(** * A to-do list manager: [Task] records and the [TaskManager] store

    Shallow embedding of [app.py].  In the store a Python [str] is a
    [string] whose characters are code points below 256; an [int] index is a
    [Z]; the list [self.tasks] is a [list Task].  Printing, the file
    [data.json], the clock read by [datetime.now()] and exceptions are the
    effects of the program: they live in the state and result of the [py]
    monad below.  Writing and reading the file are also given for tasks
    whose text is any [str], a list of code points (module [Wide]). *)

From Stdlib Require Import ZArith NArith Ascii String DecimalString.
From stdpp Require Import base option list sorting strings gmap.

Local Open Scope Z_scope.

(** ** Python text primitives *)

Module Text.

Definition NL : ascii := "010"%char.

(** The one-character string ["\n"]. *)
Definition nl : string := String NL "".

Fixpoint spaces (n : nat) : string :=
  match n with
  | O => ""
  | S n' => String " " (spaces n')
  end.

(** [format(s, "<w")]: left-justify in a field of width [w]. *)
Definition ljust (w : nat) (s : string) : string :=
  s +:+ spaces (w - String.length s).

(** [s[:n]]. *)
Fixpoint slice_to (n : nat) (s : string) : string :=
  match n, s with
  | S n', String c s' => String c (slice_to n' s')
  | _, _ => ""
  end.

(** [c.lower()] on one code point below 256: the ASCII capitals and the
    Latin-1 capitals U+00C0..U+00DE, U+00D7 (the multiplication sign)
    excepted, move up by 32. *)
Definition lower_char (c : ascii) : ascii :=
  let n := N_of_ascii c in
  if ((65 <=? n) && (n <=? 90) ||
      (192 <=? n) && (n <=? 222) && negb (n =? 215))%N
  then ascii_of_N (n + 32) else c.

Fixpoint lower (s : string) : string :=
  match s with
  | "" => ""
  | String c s' => String (lower_char c) (lower s')
  end.

(** [c.upper()] is only used to echo the criterion of a priority filter,
    which is one of [low], [medium], [high] up to case: ASCII letters. *)
Definition upper_char (c : ascii) : ascii :=
  let n := N_of_ascii c in
  if ((97 <=? n) && (n <=? 122))%N then ascii_of_N (n - 32) else c.

Fixpoint upper (s : string) : string :=
  match s with
  | "" => ""
  | String c s' => String (upper_char c) (upper s')
  end.

(** [str(n)] for a natural number. *)
Definition of_nat (n : nat) : string :=
  NilEmpty.string_of_uint (Nat.to_uint n).

(** [str(b)] for a [bool]. *)
Definition of_bool (b : bool) : string := if b then "True" else "False".

(** [s1 < s2] on [str]: lexicographic on code points. *)
Definition ltb (s1 s2 : string) : bool := String.ltb s1 s2.

(** [needle in s]. *)
Fixpoint contains (needle s : string) : bool :=
  String.prefix needle s ||
  match s with
  | "" => false
  | String _ s' => contains needle s'
  end.

(** Truth value of a [str]: non-empty. *)
Definition truthy (s : string) : bool :=
  match s with "" => false | _ => true end.

End Text.

(** ** The clock *)

Record datetime := Datetime {
  year : nat; month : nat; day : nat;
  hour : nat; minute : nat; second : nat }.

(** Decimal digits of [n], zero-padded on the left to width [w]. *)
Definition zero_pad (w n : nat) : string :=
  let d := Text.of_nat n in
  String.concat "" (replicate (w - String.length d) "0") +:+ d.

(** [dt.strftime("%Y-%m-%d %H:%M:%S")]. *)
Definition strftime (dt : datetime) : string :=
  zero_pad 4 (year dt) +:+ "-" +:+ zero_pad 2 (month dt) +:+ "-" +:+
  zero_pad 2 (day dt) +:+ " " +:+ zero_pad 2 (hour dt) +:+ ":" +:+
  zero_pad 2 (minute dt) +:+ ":" +:+ zero_pad 2 (second dt).

(** ** Task *)

Record Task := mkTask {
  name : string;
  priority : string;
  completed : bool;
  created_date : string }.

Global Instance Task_eq_dec : EqDecision Task.
Proof. solve_decision. Defined.

(** [Task.__str__] *)
Definition Task_str (self : Task) : string :=
  let status := if completed self then "[DONE]" else "[ ]" in
  let priority_label := "(P: " +:+ Text.ljust 6 (priority self) +:+ ")" in
  status +:+ " " +:+ priority_label +:+ " " +:+ name self +:+
  " (Created: " +:+ Text.slice_to 10 (created_date self) +:+ ")".

(** [Task.mark_complete] *)
Definition mark_complete (self : Task) : Task :=
  mkTask (name self) (priority self) true (created_date self).

(** [Task.toggle_complete] *)
Definition toggle_complete (self : Task) : Task :=
  mkTask (name self) (priority self) (negb (completed self)) (created_date self).

(** ** Effects *)

(** The exceptions the program can meet. *)
Inductive exn :=
  | JSONDecodeError | TypeError | AttributeError | IndexError | OSError.

(** [isinstance(e, Exception)]: every exception above derives from
    [Exception]. *)
Definition is_Exception (e : exn) : bool := true.

(** What [print] has written: a line of text, or one of the two lines that
    interpolate an exception, whose wording [str(e)] is the library's. *)
Inductive printed :=
  | Line (s : string)
  | LoadErrorLine (e : exn)
    (* f"Error loading tasks: {e}. Starting with empty list." *)
  | SaveErrorLine (e : exn).
    (* f"Error saving tasks: {e}" *)

(** The state the program runs in: the manager's list, the file
    [data.json] ([None] when it does not exist) and whether opening it for
    reading or writing succeeds, the successive readings of the clock, and the
    lines printed so far. *)
Record state := mkState {
  tasks : list Task;
  disk : option string;
  readable : bool;
  writable : bool;
  clock : nat -> datetime;
  ticks : nat;
  stdout : list printed }.

(** A computation returns, raises, or leaves the data model: Python goes on
    with a [Task] whose attribute is not a [str] (or [bool]) of this model, and
    nothing is said about what follows. *)
Inductive res (A : Type) :=
  | Ok (a : A)
  | Raise (e : exn)
  | Beyond.
Arguments Ok {A} a.
Arguments Raise {A} e.
Arguments Beyond {A}.

Definition py (A : Type) : Type := state -> res A * state.

Global Instance py_ret : MRet py := fun A a s => (Ok a, s).
Global Instance py_bind : MBind py := fun A B f m s =>
  match m s with
  | (Ok a, s') => f a s'
  | (Raise e, s') => (Raise e, s')
  | (Beyond, s') => (Beyond, s')
  end.

Definition raise {A} (e : exn) : py A := fun s => (Raise e, s).
Definition beyond {A} : py A := fun s => (Beyond, s).

(** [try: body except <handled>: handler(e)] *)
Definition try_except {A} (body : py A) (handled : exn -> bool)
    (handler : exn -> py A) : py A := fun s =>
  match body s with
  | (Raise e, s') => if handled e then handler e s' else (Raise e, s')
  | r => r
  end.

(** The state with its list of tasks replaced. *)
Definition put_tasks (l : list Task) (s : state) : state :=
  mkState l (disk s) (readable s) (writable s) (clock s) (ticks s) (stdout s).

(** The state with one more line printed. *)
Definition log (p : printed) (s : state) : state :=
  mkState (tasks s) (disk s) (readable s) (writable s) (clock s) (ticks s)
    (stdout s ++ [p]).

(** The state with the file holding [text]. *)
Definition put_disk (text : string) (s : state) : state :=
  mkState (tasks s) (Some text) (readable s) (writable s) (clock s) (ticks s)
    (stdout s).

(** The state after one more reading of the clock. *)
Definition tick (s : state) : state :=
  mkState (tasks s) (disk s) (readable s) (writable s) (clock s) (S (ticks s))
    (stdout s).

Definition get_tasks : py (list Task) := fun s => (Ok (tasks s), s).

Definition set_tasks (l : list Task) : py unit := fun s =>
  (Ok tt, put_tasks l s).

Definition emit (p : printed) : py unit := fun s => (Ok tt, log p s).

(** [print(s)] *)
Definition print (s : string) : py unit := emit (Line s).

(** [datetime.now()] *)
Definition datetime_now : py datetime := fun s =>
  (Ok (clock s (ticks s)), tick s).

(** [for x in l: body(x)] *)
Fixpoint for_each {A} (l : list A) (body : A -> py unit) : py unit :=
  match l with
  | [] => mret tt
  | x :: l' => body x ;; for_each l' body
  end.

(** [datetime.now().strftime("%Y-%m-%d %H:%M:%S")] *)
Definition now_string : py string :=
  dt ← datetime_now; mret (strftime dt).

(** [Task.__init__]; the defaults of [priority], [completed] and
    [created_date] are written out by the callers.  [created_date] is [None]
    for Python's [None] and [Some d] for a [str]. *)
Definition Task_init (name priority : string) (completed : bool)
    (created_date : option string) : py Task :=
  created ← match created_date with
            | Some d => if Text.truthy d then mret d else now_string
            | None => now_string
            end;
  mret (mkTask name priority completed created).

(** ** TaskManager: the operations on the list in memory *)

(** [TaskManager.add_task] *)
Definition add_task (name priority : string) : py unit :=
  new_task ← Task_init name priority false None;
  l ← get_tasks;
  set_tasks (l ++ [new_task]);;
  print (Text.nl +:+ "Task '" +:+ name +:+ "' added with priority '" +:+
         priority +:+ "'.").

(** The lines of [for index, task in enumerate(task_list, start)]:
    [f"{index + 1}. {task}"]. *)
Fixpoint numbered (index : nat) (task_list : list Task) : list string :=
  match task_list with
  | [] => []
  | task :: rest =>
      (Text.of_nat (index + 1) +:+ ". " +:+ Task_str task)
      :: numbered (S index) rest
  end.

(** [TaskManager.display_tasks]; the result is [None] where the source
    returns nothing. *)
Definition display_tasks (task_list : option (list Task))
    : py (option (list Task)) :=
  task_list ← match task_list with
              | None => get_tasks
              | Some l => mret l
              end;
  match task_list with
  | [] =>
      print (Text.nl +:+ "List is empty or filter returned no results.");;
      mret None
  | _ =>
      print (Text.nl +:+ "--- Current To-Do List ---");;
      for_each (numbered 0 task_list) print;;
      print "--------------------------";;
      mret (Some task_list)
  end.

(** [TaskManager.filter_tasks] *)
Definition filter_tasks (criterion : string) : py (list Task) :=
  let c := Text.lower criterion in
  if String.eqb c "all" then get_tasks
  else if bool_decide (c ∈ ["low"; "medium"; "high"]) then
    l ← get_tasks;
    let filtered_list :=
      List.filter (fun t => String.eqb (Text.lower (priority t)) c) l in
    print (Text.nl +:+ "--- Filtered by Priority: " +:+ Text.upper criterion
           +:+ " ---");;
    mret filtered_list
  else if String.eqb c "pending" then
    l ← get_tasks;
    let filtered_list := List.filter (fun t => negb (completed t)) l in
    print (Text.nl +:+ "--- Filtered: Pending Tasks Only ---");;
    mret filtered_list
  else if String.eqb c "done" then
    l ← get_tasks;
    let filtered_list := List.filter (fun t => completed t) l in
    print (Text.nl +:+ "--- Filtered: Completed Tasks Only ---");;
    mret filtered_list
  else
    print "Invalid filter criterion. Options: All, Low, Medium, High, Pending, Done.";;
    mret [].

(** [0 <= index < len(l)] *)
Definition in_range {A} (index : Z) (l : list A) : bool :=
  (0 <=? index) && (index <? Z.of_nat (length l)).

(** [self.tasks.pop(index)] for a non-negative [index]. *)
Definition tasks_pop (index : Z) : py Task :=
  l ← get_tasks;
  match l !! Z.to_nat index with
  | Some t => set_tasks (delete (Z.to_nat index) l);; mret t
  | None => raise IndexError
  end.

(** [self.tasks[index]] for a non-negative [index]. *)
Definition tasks_getitem (index : Z) : py Task :=
  l ← get_tasks;
  match l !! Z.to_nat index with
  | Some t => mret t
  | None => raise IndexError
  end.

(** [TaskManager.delete_task] *)
Definition delete_task (index : Z) : py unit :=
  l ← get_tasks;
  if in_range index l then
    removed_task ← tasks_pop index;
    print (Text.nl +:+ "Task '" +:+ name removed_task +:+ "' deleted.")
  else
    print (Text.nl +:+ "Error: Task number is out of range.").

(** [TaskManager.toggle_task]: the task object at [index] is changed in
    place, so the list holds the toggled task afterwards. *)
Definition toggle_task (index : Z) : py unit :=
  l ← get_tasks;
  if in_range index l then
    t ← tasks_getitem index;
    set_tasks (<[Z.to_nat index := toggle_complete t]> l);;
    t' ← tasks_getitem index;
    let status := if completed t' then "DONE" else "PENDING" in
    t'' ← tasks_getitem index;
    print (Text.nl +:+ "Task '" +:+ name t'' +:+ "' status set to " +:+
           status +:+ ".")
  else
    print (Text.nl +:+ "Error: Task number is out of range.").

(** ** Sorting *)

(** [list.sort] is stable: insertion into a sorted list goes past the
    elements that are smaller only, so equal elements keep their order. *)
Fixpoint insert_by {A} (lt : A -> A -> bool) (x : A) (l : list A) : list A :=
  match l with
  | [] => [x]
  | y :: l' => if lt y x then y :: insert_by lt x l' else x :: y :: l'
  end.

Definition stable_sort {A} (lt : A -> A -> bool) (l : list A) : list A :=
  foldr (insert_by lt) [] l.

(** The value of an attribute reached by a sort key: a [str], a [bool], an
    [int], or an object of a type that defines no ordering (a bound method,
    [None], a class, a [dict]). *)
Inductive attr_value :=
  | AStr (s : string)
  | ABool (b : bool)
  | AInt (z : Z)
  | AOpaque.

Definition is_str (v : attr_value) : bool :=
  match v with AStr _ => true | _ => false end.

(** [bool] is a subclass of [int] and is ordered as [0] and [1]. *)
Definition as_int (v : attr_value) : option Z :=
  match v with
  | ABool b => Some (if b then 1 else 0)
  | AInt z => Some z
  | _ => None
  end.

(** [v1 < v2]; [None] where Python raises [TypeError]. *)
Definition attr_lt (v1 v2 : attr_value) : option bool :=
  match v1, v2 with
  | AStr s1, AStr s2 => Some (Text.ltb s1 s2)
  | _, _ =>
      match as_int v1, as_int v2 with
      | Some z1, Some z2 => Some (z1 <? z2)
      | _, _ => None
      end
  end.

(** No comparison of two of the keys raises: all are [str], or all are
    [bool] or [int]. *)
Definition orderable (keys : list attr_value) : bool :=
  forallb is_str keys || forallb (fun v => bool_decide (is_Some (as_int v))) keys.

Definition keyed_lt (x y : attr_value * Task) : bool :=
  default false (attr_lt x.1 y.1).

(** [for x in l: r.append(f(x))] *)
Fixpoint map_py {A B} (f : A -> py B) (l : list A) : py (list B) :=
  match l with
  | [] => mret []
  | x :: l' => y ← f x; r ← map_py f l'; mret (y :: r)
  end.

(** The list a sort with the given keys leaves.  [reverse=True] sorts the
    reversed list and reverses the result, which keeps equal keys in their
    original order. *)
Definition sorted_by (keys : list attr_value) (reverse : bool)
    (l : list Task) : list Task :=
  (if reverse then rev (stable_sort keyed_lt (rev (zip keys l)))
   else stable_sort keyed_lt (zip keys l)).*2.

(** [self.tasks.sort(key=keyf, reverse=reverse)].  The keys are computed
    first, one call per task in list order, and an exception from [keyf]
    leaves the list as it was.  With two tasks or more every task is
    compared with another one, so a set of keys that is not [orderable] raises
    [TypeError].  A failed sort keeps every element in the list, in an
    order that depends on how far it went; the model keeps the order before
    (nothing in the program catches this exception, so nothing reads the
    list afterwards). *)
Definition tasks_sort (keyf : Task -> py attr_value) (reverse : bool)
    : py unit :=
  l ← get_tasks;
  keys ← map_py keyf l;
  if (length l <=? 1)%nat || orderable keys then
    set_tasks (sorted_by keys reverse l)
  else raise TypeError.

(** The data attributes of a task. *)
Definition fields : list string :=
  ["name"; "priority"; "completed"; "created_date"].

Definition field_value (key : string) (t : Task) : attr_value :=
  if String.eqb key "completed" then ABool (completed t)
  else if String.eqb key "name" then AStr (name t)
  else if String.eqb key "priority" then AStr (priority t)
  else AStr (created_date t).

(** The order of the fall-back sort: [created_date], as text. *)
Definition by_created_date (a b : Task) : bool :=
  Text.ltb (created_date a) (created_date b).

(** The two lines [sort_tasks] prints, for the statements below. *)
Definition sorted_line (key : string) (reverse : bool) : printed :=
  Line (Text.nl +:+ "Tasks sorted by " +:+ key +:+ " (Reverse: " +:+
        Text.of_bool reverse +:+ ").").

Definition invalid_key_line (key : string) : printed :=
  Line (Text.nl +:+ "Invalid sorting key: " +:+ key +:+
        ". Defaulting to creation date.").

Section Sort.

(** What [getattr] finds on a task for a key other than the four data
    attributes: the methods of [Task], what [object] provides, and dotted
    paths through them; [None] where it raises [AttributeError]. *)
Variable other_attr : string -> Task -> option attr_value.

(** [getattr(task, key)] as [operator.attrgetter(key)] resolves it. *)
Definition getattr (key : string) (task : Task) : option attr_value :=
  if String.eqb key "name" then Some (AStr (name task))
  else if String.eqb key "priority" then Some (AStr (priority task))
  else if String.eqb key "completed" then Some (ABool (completed task))
  else if String.eqb key "created_date" then Some (AStr (created_date task))
  else other_attr key task.

(** [operator.attrgetter(key)] *)
Definition attrgetter (key : string) (task : Task) : py attr_value :=
  match getattr key task with
  | Some v => mret v
  | None => raise AttributeError
  end.

Definition is_AttributeError (e : exn) : bool :=
  match e with AttributeError => true | _ => false end.

(** [TaskManager.sort_tasks] *)
Definition sort_tasks (key : string) (reverse : bool) : py unit :=
  try_except
    (tasks_sort (attrgetter key) reverse;;
     print (Text.nl +:+ "Tasks sorted by " +:+ key +:+ " (Reverse: " +:+
            Text.of_bool reverse +:+ ")."))
    is_AttributeError
    (fun _ =>
       print (Text.nl +:+ "Invalid sorting key: " +:+ key +:+
              ". Defaulting to creation date.");;
       tasks_sort (attrgetter "created_date") false).

End Sort.

(** ** The [json] library, as far as [json.dump(data, f, indent=4)] and
    [json.load(f)] go *)

Module Json.

(** What [json.load] builds: [None], a [bool], a number (kept as its
    literal), a [str] (its code points), a [list], or the members of an
    object in the order of the text (the [dict] is [as_dict] of them). *)
Local Unset Elimination Schemes.
Inductive value :=
  | JNull
  | JBool (b : bool)
  | JNum (lit : string)
  | JStr (s : list N)
  | JArr (items : list value)
  | JObj (members : list (list N * value)).
Local Set Elimination Schemes.

Definition DQ : ascii := "034"%char.
Definition BS : ascii := "092"%char.

Definition codes (s : string) : list N :=
  N_of_ascii <$> list_ascii_of_string s.

(** The [str] of this model with the given code points, if all are below
    256. *)
Definition text_of_codes (l : list N) : option string :=
  if forallb (fun c => c <? 256)%N l
  then Some (string_of_list_ascii (ascii_of_N <$> l)) else None.

(** *** Encoding *)

Definition hex_digit (d : N) : ascii :=
  ascii_of_N (if d <? 10 then 48 + d else 87 + d)%N.

(** ['{0:04x}'.format(n)] for [n < 65536]. *)
Definition hex4 (n : N) : string :=
  String (hex_digit (n / 4096 mod 16))
    (String (hex_digit (n / 256 mod 16))
       (String (hex_digit (n / 16 mod 16))
          (String (hex_digit (n mod 16)) ""))).

Definition u_escape (n : N) : string := String BS (String "u" (hex4 n)).

(** One code point of a string under [ensure_ascii=True]. *)
Definition escape_code (c : N) : string :=
  (if c =? 34 then String BS (String DQ "")
   else if c =? 92 then String BS (String BS "")
   else if c =? 10 then String BS "n"
   else if c =? 13 then String BS "r"
   else if c =? 9 then String BS "t"
   else if c =? 12 then String BS "f"
   else if c =? 8 then String BS "b"
   else if (32 <=? c) && (c <=? 126) then String (ascii_of_N c) ""
   else if c <? 65536 then u_escape c
   else
     let v := c - 65536 in
     u_escape (N.lor 55296 (N.land (N.shiftr v 10) 1023)) +:+
     u_escape (N.lor 56320 (N.land v 1023)))%N.

(** The escaped code points of [l], followed by [k]. *)
Fixpoint escape_codes (l : list N) (k : string) : string :=
  match l with
  | [] => k
  | c :: l' => escape_code c +:+ escape_codes l' k
  end.

(** A string between its quotes, followed by [k]. *)
Definition encode_str (l : list N) (k : string) : string :=
  String DQ (escape_codes l (String DQ k)).

Fixpoint indent (n : nat) (k : string) : string :=
  match n with
  | O => k
  | S n' => String " " (indent n' k)
  end.

(** A newline and the indentation of nesting level [lvl], followed by
    [k]. *)
Definition newline_indent (lvl : nat) (k : string) : string :=
  String Text.NL (indent (4 * lvl) k).

Section Tail.

Context {A : Type} (enc : A -> string -> string) (lvl : nat) (close : ascii).

(** The items after the first one of a list or a dictionary at level
    [lvl], each after a comma on a line of its own, then the closing
    character on a line of its own, followed by [k]. *)
Fixpoint encode_tail (l : list A) (k : string) : string :=
  match l with
  | [] => newline_indent lvl (String close k)
  | y :: l' => String "," (newline_indent (S lvl) (enc y (encode_tail l' k)))
  end.

End Tail.

(** A key, a colon, a space and the value, followed by [k]. *)
Definition encode_member (enc : value -> string -> string)
    (kv : list N * value) (k : string) : string :=
  let '(key, x) := kv in encode_str key (": " +:+ enc x k).

(** The chunks [json.dump(v, f, indent=4)] writes for [v] at nesting level
    [lvl], followed by [k]: the item separator is a comma, the key separator
    a colon and a space. *)
Fixpoint encode (lvl : nat) (v : value) (k : string) : string :=
  match v with
  | JNull => "null" +:+ k
  | JBool true => "true" +:+ k
  | JBool false => "false" +:+ k
  | JNum lit => lit +:+ k
  | JStr s => encode_str s k
  | JArr [] => "[]" +:+ k
  | JArr (x :: xs) =>
      String "[" (newline_indent (S lvl) (encode (S lvl) x
        (encode_tail (encode (S lvl)) lvl "]" xs k)))
  | JObj [] => "{}" +:+ k
  | JObj (m :: ms) =>
      String "{" (newline_indent (S lvl) (encode_member (encode (S lvl)) m
        (encode_tail (encode_member (encode (S lvl))) lvl "}" ms k)))
  end.

(** [json.dumps(v, indent=4)] *)
Definition dumps (v : value) : string := encode 0 v "".

(** *** Decoding *)

(** The result of scanning a prefix: a value and the rest of the text, a
    [JSONDecodeError], or not enough fuel for the nesting. *)
Inductive presult (A : Type) :=
  | POk (a : A) (rest : string)
  | PErr
  | PFuel.
Arguments POk {A} a rest.
Arguments PErr {A}.
Arguments PFuel {A}.

Definition pmap {A B} (f : A -> B) (r : presult A) : presult B :=
  match r with
  | POk a rest => POk (f a) rest
  | PErr => PErr
  | PFuel => PFuel
  end.

Definition is_ws (c : ascii) : bool :=
  match c with
  | " "%char | "009"%char | "010"%char | "013"%char => true
  | _ => false
  end.

Fixpoint skip_ws (s : string) : string :=
  match s with
  | String c s' => if is_ws c then skip_ws s' else s
  | "" => ""
  end.

Fixpoint strip_prefix (p s : string) : option string :=
  match p, s with
  | "", _ => Some s
  | String a p', String b s' => if Ascii.eqb a b then strip_prefix p' s' else None
  | _, _ => None
  end.

Definition hex_val (c : ascii) : option N :=
  let n := N_of_ascii c in
  (if (48 <=? n) && (n <=? 57) then Some (n - 48)
   else if (97 <=? n) && (n <=? 102) then Some (n - 87)
   else if (65 <=? n) && (n <=? 70) then Some (n - 55)
   else None)%N.

Definition hex4_val (a b c d : ascii) : option N :=
  x1 ← hex_val a; x2 ← hex_val b; x3 ← hex_val c; x4 ← hex_val d;
  Some (((x1 * 16 + x2) * 16 + x3) * 16 + x4)%N.

Definition is_high_surrogate (n : N) : bool := ((55296 <=? n) && (n <=? 56319))%N.
Definition is_low_surrogate (n : N) : bool := ((56320 <=? n) && (n <=? 57343))%N.
Definition join_surrogates (hi lo : N) : N :=
  (65536 + N.lor (N.shiftl (hi - 55296) 10) (lo - 56320))%N.

(** The character after a backslash, [u] apart. *)
Definition simple_escape (e : ascii) : option N :=
  match e with
  | "034"%char => Some 34 | "092"%char => Some 92 | "/"%char => Some 47
  | "b"%char => Some 8 | "f"%char => Some 12 | "n"%char => Some 10
  | "r"%char => Some 13 | "t"%char => Some 9
  | _ => None
  end%N.

Definition prepend (c : N) (r : option (list N * string))
    : option (list N * string) :=
  match r with
  | Some (l, rest) => Some (c :: l, rest)
  | None => None
  end.

(** The body of a string, from after the opening quote to the closing one
    ([strict=True]: no control character).  An escaped high surrogate
    followed by an escaped low surrogate is one code point. *)
Fixpoint scan_string (s : string) : option (list N * string) :=
  match s with
  | "" => None
  | String c r =>
    if Ascii.eqb c DQ then Some ([], r)
    else if Ascii.eqb c BS then
      match r with
      | "" => None
      | String e r1 =>
        match simple_escape e with
        | Some n => prepend n (scan_string r1)
        | None =>
          if Ascii.eqb e "u" then
            match r1 with
            | String h1 (String h2 (String h3 (String h4 r2))) =>
              match hex4_val h1 h2 h3 h4 with
              | None => None
              | Some hi =>
                if is_high_surrogate hi then
                  match r2 with
                  | String b (String u (String g1 (String g2 (String g3
                      (String g4 r3))))) =>
                    if Ascii.eqb b BS && Ascii.eqb u "u" then
                      match hex4_val g1 g2 g3 g4 with
                      | None => None
                      | Some lo =>
                        if is_low_surrogate lo
                        then prepend (join_surrogates hi lo) (scan_string r3)
                        else prepend hi (scan_string r2)
                      end
                    else prepend hi (scan_string r2)
                  | _ => prepend hi (scan_string r2)
                  end
                else prepend hi (scan_string r2)
              end
            | _ => None
            end
          else None
        end
      end
    else if (N_of_ascii c <? 32)%N then None
    else prepend (N_of_ascii c) (scan_string r)
  end.

Definition is_digit (c : ascii) : bool :=
  ((48 <=? N_of_ascii c) && (N_of_ascii c <=? 57))%N.

(** The longest prefix of digits, and the rest. *)
Fixpoint take_digits (s : string) : string * string :=
  match s with
  | String c s' =>
      if is_digit c then let '(d, r) := take_digits s' in (String c d, r)
      else ("", s)
  | "" => ("", "")
  end.

(** [s] without its first character, if that is [c]. *)
Definition after (c : ascii) (s : string) : option string :=
  match s with
  | String c' r => if Ascii.eqb c' c then Some r else None
  | "" => None
  end.

(** An optional character [c]: what was read, and the rest. *)
Definition opt_char (c : ascii) (s : string) : string * string :=
  match after c s with
  | Some r => (String c "", r)
  | None => ("", s)
  end.

(** The integer part of a number: a zero, or a non-zero digit and further
    digits. *)
Definition scan_int (s : string) : option (string * string) :=
  match s with
  | String c r =>
      if Ascii.eqb c "0" then Some (String c "", r)
      else if is_digit c
      then let '(d, t) := take_digits r in Some (String c d, t)
      else None
  | "" => None
  end.

(** An optional fraction: a point and one digit or more. *)
Definition scan_frac (s : string) : string * string :=
  match after "." s with
  | Some t =>
      match take_digits t with
      | ("", _) => ("", s)
      | (ds, u) => (String "." ds, u)
      end
  | None => ("", s)
  end.

(** An optional exponent: [e] or [E], an optional sign and one digit or
    more. *)
Definition scan_exp (s : string) : string * string :=
  match s with
  | String e t =>
      if Ascii.eqb e "e" || Ascii.eqb e "E" then
        let '(sg, u) :=
          match after "-" t with
          | Some u => ("-", u)
          | None => opt_char "+" t
          end in
        match take_digits u with
        | ("", _) => ("", s)
        | (ds, w) => (String e (sg +:+ ds), w)
        end
      else ("", s)
  | "" => ("", s)
  end.

(** A number: an optional minus sign, the integer part, an optional
    fraction and an optional exponent, each as long as it can be; the result
    is the text of the number and the rest. *)
Definition scan_number (s : string) : option (string * string) :=
  let '(sign, s1) := opt_char "-" s in
  match scan_int s1 with
  | Some (int, r1) =>
      let '(frac, r2) := scan_frac r1 in
      let '(exp, r3) := scan_exp r2 in
      Some (sign +:+ int +:+ frac +:+ exp, r3)
  | None => None
  end.

(** The constants the scanner knows by name. *)
Definition constants : list (string * value) :=
  [("null", JNull); ("true", JBool true); ("false", JBool false);
   ("NaN", JNum "NaN"); ("Infinity", JNum "Infinity");
   ("-Infinity", JNum "-Infinity")].

Fixpoint scan_constant (cs : list (string * value)) (s : string)
    : option (value * string) :=
  match cs with
  | [] => None
  | (word, v) :: cs' =>
      match strip_prefix word s with
      | Some r => Some (v, r)
      | None => scan_constant cs' s
      end
  end.

(** The elements of a non-empty array, from the first element to the
    closing bracket; [pv] scans one value. *)
Fixpoint parse_elems (pv : string -> presult value) (fuel : nat) (s : string)
    : presult (list value) :=
  match fuel with
  | O => PFuel
  | S fuel' =>
    match pv s with
    | POk v r =>
      match skip_ws r with
      | String c r' =>
          if Ascii.eqb c "]" then POk [v] r'
          else if Ascii.eqb c ","
          then pmap (cons v) (parse_elems pv fuel' (skip_ws r'))
          else PErr
      | "" => PErr
      end
    | PErr => PErr
    | PFuel => PFuel
    end
  end.

(** The members of a non-empty object, from the quote of the first key to
    the closing brace. *)
Fixpoint parse_members (pv : string -> presult value) (fuel : nat) (s : string)
    : presult (list (list N * value)) :=
  match fuel with
  | O => PFuel
  | S fuel' =>
    match after DQ s with
    | Some r =>
      match scan_string r with
      | None => PErr
      | Some (k, r1) =>
        match after ":" (skip_ws r1) with
        | Some r2 =>
          match pv (skip_ws r2) with
          | POk v r3 =>
            match skip_ws r3 with
            | String c r' =>
                if Ascii.eqb c "}" then POk [(k, v)] r'
                else if Ascii.eqb c ","
                then pmap (cons (k, v)) (parse_members pv fuel' (skip_ws r'))
                else PErr
            | "" => PErr
            end
          | PErr => PErr
          | PFuel => PFuel
          end
        | None => PErr
        end
      end
    | None => PErr
    end
  end.

(** A constant or a number at the head of [s]. *)
Definition parse_atom (s : string) : presult value :=
  match scan_constant constants s with
  | Some (v, r) => POk v r
  | None =>
    match scan_number s with
    | Some (lit, r) => POk (JNum lit) r
    | None => PErr
    end
  end.

(** One value at the head of [s] (the scanner's [scan_once]). *)
Fixpoint parse_value (fuel : nat) (s : string) : presult value :=
  match fuel with
  | O => PFuel
  | S fuel' =>
    match s with
    | String c r =>
      if Ascii.eqb c DQ then
        match scan_string r with
        | Some (l, r') => POk (JStr l) r'
        | None => PErr
        end
      else if Ascii.eqb c "[" then
        match after "]" (skip_ws r) with
        | Some r' => POk (JArr []) r'
        | None => pmap JArr (parse_elems (parse_value fuel') fuel' (skip_ws r))
        end
      else if Ascii.eqb c "{" then
        match after "}" (skip_ws r) with
        | Some r' => POk (JObj []) r'
        | None =>
            pmap JObj (parse_members (parse_value fuel') fuel' (skip_ws r))
        end
      else parse_atom s
    | "" => PErr
    end
  end.

(** [json.loads(s)]: one value between optional white space; [None] where
    the library raises [JSONDecodeError].  A value consumes a character per
    level of nesting and per element, so the length of the text is fuel
    enough ([loads_fuel] below). *)
Definition loads (s : string) : option value :=
  match parse_value (S (String.length s)) (skip_ws s) with
  | POk v r => match skip_ws r with "" => Some v | _ => None end
  | _ => None
  end.

(** *** Values of the model *)

(** Code points below 256: the strings of this model. *)
Definition latin1 (l : list N) : bool := forallb (fun c => c <? 256)%N l.

(** The [str] that [json.load] gives back as [json.dump] wrote them: code
    points of Unicode among which no high surrogate is directly followed by
    a low one.  (Written as two escapes, such a pair is read as the one code
    point above U+FFFF that it encodes.) *)
Fixpoint faithful (l : list N) : bool :=
  match l with
  | [] => true
  | c :: l' =>
      (c <? 1114112)%N &&
      negb (is_high_surrogate c &&
            (if l' is d :: _ then is_low_surrogate d else false)) &&
      faithful l'
  end.

(** The values built from [None], [bool], [list], [dict] and such
    strings. *)
Fixpoint modelled (v : value) : bool :=
  match v with
  | JNull | JBool _ => true
  | JNum _ => false
  | JStr s => faithful s
  | JArr l => forallb modelled l
  | JObj m => forallb (fun kv => let '(k, x) := kv in faithful k && modelled x) m
  end.

(** The number of nodes of a value: the fuel that scanning it takes. *)
Fixpoint size (v : value) : nat :=
  match v with
  | JArr l => S (list_sum (size <$> l))
  | JObj m => S (list_sum ((fun kv => let '(_, x) := kv in size x) <$> m))
  | _ => 1
  end.

(** A text that starts with a character that is neither white space nor a
    closing bracket or brace. *)
Definition head_ok (s : string) : bool :=
  match s with
  | String c _ =>
      negb (is_ws c) && negb (Ascii.eqb c "]") && negb (Ascii.eqb c "}")
  | "" => false
  end.

(** [pv] never runs out of fuel on a text shorter than [b], and what it
    leaves is shorter than what it was given. *)
Definition progresses {X} (pv : string -> presult X) (b : nat) : Prop :=
  forall s, (String.length s < b)%nat ->
    pv s <> PFuel /\
    forall v r, pv s = POk v r -> (String.length r < String.length s)%nat.

(** *** The Python view of a value *)

(** [d[k] = v] on a [dict] kept in insertion order. *)
Fixpoint dict_set {V} (k : list N) (v : V) (d : list (list N * V))
    : list (list N * V) :=
  match d with
  | [] => [(k, v)]
  | (k', v') :: d' =>
      if decide (k = k') then (k, v) :: d' else (k', v') :: dict_set k v d'
  end.

(** The [dict] built from the members of an object: a later member
    replaces an earlier one of the same key. *)
Definition as_dict {V} (members : list (list N * V)) : list (list N * V) :=
  foldl (fun d kv => dict_set kv.1 kv.2 d) [] members.

Fixpoint dict_get {V} (k : list N) (d : list (list N * V)) : option V :=
  match d with
  | [] => None
  | (k', v) :: d' => if decide (k = k') then Some v else dict_get k d'
  end.

(** A number that is zero: every digit of its integer and fraction parts is
    [0].  (Other numbers are non-zero, unless too small for a [float].) *)
Fixpoint zero_digits (s : string) : bool :=
  match s with
  | "" => true
  | String c s' =>
      if Ascii.eqb c "e" || Ascii.eqb c "E" then true
      else (Ascii.eqb c "0" || Ascii.eqb c "." || Ascii.eqb c "-")
           && zero_digits s'
  end.

Definition is_zero_literal (lit : string) : bool :=
  negb (String.eqb lit "NaN") && negb (String.eqb lit "Infinity")
  && negb (String.eqb lit "-Infinity") && zero_digits lit.

(** [bool(v)], where the model decides it: a number that is not a zero
    literal is left open. *)
Definition truth (v : value) : option bool :=
  match v with
  | JNull => Some false
  | JBool b => Some b
  | JNum lit => if is_zero_literal lit then Some false else None
  | JStr s => Some (if s is [] then false else true)
  | JArr l => Some (if l is [] then false else true)
  | JObj m => Some (if m is [] then false else true)
  end.

(** [iter(v)] as a list; [None] where [v] is not iterable.  A [dict]
    yields its keys, a [str] its characters. *)
Definition iterate (v : value) : option (list value) :=
  match v with
  | JArr l => Some l
  | JObj m => Some ((fun kv => JStr kv.1) <$> as_dict m)
  | JStr s => Some ((fun c => JStr [c]) <$> s)
  | _ => None
  end.

End Json.

(** ** TaskManager: the file *)

Import Json.

(** [Task.to_dict] *)
Definition to_dict (self : Task) : value :=
  JObj [(codes "name", JStr (codes (name self)));
        (codes "priority", JStr (codes (priority self)));
        (codes "completed", JBool (completed self));
        (codes "created_date", JStr (codes (created_date self)))].

Definition as_text (v : value) : option string :=
  match v with JStr l => text_of_codes l | _ => None end.

Definition as_bool (v : value) : option bool :=
  match v with JBool b => Some b | _ => None end.

(** [Task(name, priority, completed, created_date)] on values read from a
    file.  A [name] or [priority] that is not a [str] of the model, or a
    [completed] that is not a [bool], is kept by Python as it is and leaves
    the model; so does a [created_date] that is true and not a [str].  A
    false [created_date] of any type is replaced, as [None] is. *)
Definition Task_call (name priority completed created_date : value)
    : py Task :=
  match as_text name, as_text priority, as_bool completed with
  | Some n, Some p, Some c =>
      match as_text created_date with
      | Some d => Task_init n p c (Some d)
      | None =>
          match truth created_date with
          | Some false => Task_init n p c None
          | _ => beyond
          end
      end
  | _, _, _ => beyond
  end.

(** The parameters of [Task.__init__] after [self]. *)
Definition params : list (list N) :=
  [codes "name"; codes "priority"; codes "completed"; codes "created_date"].

(** [Task] called with the items of [task_dict] as keyword arguments:
    [TypeError] when [task_dict] is not a mapping, has a key that is no
    parameter, or lacks [name]. *)
Definition Task_kwargs (task_dict : value) : py Task :=
  match task_dict with
  | JObj members =>
      let d := as_dict members in
      if forallb (fun kv => bool_decide (kv.1 ∈ params)) d then
        match dict_get (codes "name") d with
        | Some n =>
            Task_call n
              (default (JStr (codes "Medium")) (dict_get (codes "priority") d))
              (default (JBool false) (dict_get (codes "completed") d))
              (default JNull (dict_get (codes "created_date") d))
        | None => raise TypeError
        end
      else raise TypeError
  | _ => raise TypeError
  end.

(** [os.path.exists(FILE_NAME)] *)
Definition os_path_exists : py bool := fun s =>
  (Ok (if disk s is Some _ then true else false), s).

(** [os.stat(FILE_NAME).st_size] *)
Definition os_stat_size : py nat := fun s =>
  match disk s with
  | Some text => (Ok (String.length text), s)
  | None => (Raise OSError, s)
  end.

(** [open(FILE_NAME, 'r')] and reading the file to its end. *)
Definition read_file : py string := fun s =>
  match disk s with
  | Some text => if readable s then (Ok text, s) else (Raise OSError, s)
  | None => (Raise OSError, s)
  end.

(** [open(FILE_NAME, 'w')] and writing [text]. *)
Definition write_file (text : string) : py unit := fun s =>
  if writable s then (Ok tt, put_disk text s) else (Raise OSError, s).

(** [json.load(f)] *)
Definition json_load : py value :=
  text ← read_file;
  match loads text with
  | Some v => mret v
  | None => raise JSONDecodeError
  end.

(** [json.dump(data, f, indent=4)] *)
Definition json_dump (data : value) : py unit := write_file (dumps data).

(** The elements [for task_dict in data] goes through. *)
Definition for_in (data : value) : py (list value) :=
  match iterate data with
  | Some l => mret l
  | None => raise TypeError
  end.

(** [TaskManager.load_tasks] *)
Definition load_tasks : py unit :=
  absent_or_empty ←
    (present ← os_path_exists;
     if negb present then mret true
     else size ← os_stat_size; mret (size =? 0)%nat);
  if (absent_or_empty : bool) then mret tt
  else
    try_except
      (data ← json_load;
       items ← for_in data;
       new_tasks ← map_py Task_kwargs items;
       set_tasks new_tasks;;
       l ← get_tasks;
       print ("Loaded " +:+ Text.of_nat (length l) +:+ " tasks."))
      is_Exception
      (fun e => emit (LoadErrorLine e)).

(** [TaskManager.save_tasks] *)
Definition save_tasks : py unit :=
  l ← get_tasks;
  let data_to_save := JArr (to_dict <$> l) in
  try_except
    (json_dump data_to_save;;
     print "Tasks saved successfully!")
    is_Exception
    (fun e => emit (SaveErrorLine e)).

(** [TaskManager.__init__] *)
Definition TaskManager_init : py unit :=
  set_tasks [];;
  load_tasks.

(** The list the [with] block of [load_tasks] builds before it is assigned
    to [self.tasks]. *)
Definition records_of_file : py (list Task) :=
  data ← json_load; items ← for_in data; map_py Task_kwargs items.

(** Two states that differ at most in the number of clock readings. *)
Definition same_but_ticks (s s' : state) : Prop :=
  tasks s' = tasks s /\ disk s' = disk s /\ stdout s' = stdout s.

(** ** The file of tasks whose text is any [str]

    The store keeps the text of a task as a [string], code points below
    256: that is what the operations on the list in memory (lower case,
    padding, comparison) are modelled for.  Writing and reading the file do
    not depend on it.  Here a [str] is the list of its code points, and
    [to_dict], the constructor and the methods that write and read the file
    are the same code over such tasks.  The list of the manager,
    [self.tasks], is passed to the methods and returned by them; the file,
    the clock and what is printed are those of the state. *)
Module Wide.

Definition str : Type := list N.

Record Task := mkTask {
  name : str;
  priority : str;
  completed : bool;
  created_date : str }.

(** [Task.__init__] *)
Definition Task_init (name priority : str) (completed : bool)
    (created_date : option str) : py Task :=
  created ← match created_date with
            | Some (c :: d) => mret (c :: d)
            | _ => now ← now_string; mret (codes now)
            end;
  mret (mkTask name priority completed created).

(** [Task.to_dict] *)
Definition to_dict (self : Task) : value :=
  JObj [(codes "name", JStr (name self));
        (codes "priority", JStr (priority self));
        (codes "completed", JBool (completed self));
        (codes "created_date", JStr (created_date self))].

Definition as_str (v : value) : option str :=
  match v with JStr l => Some l | _ => None end.

(** [Task(name, priority, completed, created_date)] on values read from a
    file; a value of another type than expected is kept by Python as it is
    and leaves the model, as in the store. *)
Definition Task_call (name priority completed created_date : value)
    : py Task :=
  match as_str name, as_str priority, as_bool completed with
  | Some n, Some p, Some c =>
      match as_str created_date with
      | Some d => Task_init n p c (Some d)
      | None =>
          match truth created_date with
          | Some false => Task_init n p c None
          | _ => beyond
          end
      end
  | _, _, _ => beyond
  end.

(** [Task] called with the items of [task_dict] as keyword arguments. *)
Definition Task_kwargs (task_dict : value) : py Task :=
  match task_dict with
  | JObj members =>
      let d := as_dict members in
      if forallb (fun kv => bool_decide (kv.1 ∈ params)) d then
        match dict_get (codes "name") d with
        | Some n =>
            Task_call n
              (default (JStr (codes "Medium")) (dict_get (codes "priority") d))
              (default (JBool false) (dict_get (codes "completed") d))
              (default JNull (dict_get (codes "created_date") d))
        | None => raise TypeError
        end
      else raise TypeError
  | _ => raise TypeError
  end.

(** [TaskManager.load_tasks] of a manager whose list is [self_tasks]: the
    list afterwards. *)
Definition load_tasks (self_tasks : list Task) : py (list Task) :=
  absent_or_empty ←
    (present ← os_path_exists;
     if negb present then mret true
     else size ← os_stat_size; mret (size =? 0)%nat);
  if (absent_or_empty : bool) then mret self_tasks
  else
    try_except
      (data ← json_load;
       items ← for_in data;
       new_tasks ← map_py Task_kwargs items;
       print ("Loaded " +:+ Text.of_nat (length new_tasks) +:+ " tasks.");;
       mret new_tasks)
      is_Exception
      (fun e => emit (LoadErrorLine e);; mret self_tasks).

(** [TaskManager.save_tasks] of a manager whose list is [self_tasks]. *)
Definition save_tasks (self_tasks : list Task) : py unit :=
  let data_to_save := JArr (to_dict <$> self_tasks) in
  try_except
    (json_dump data_to_save;;
     print "Tasks saved successfully!")
    is_Exception
    (fun e => emit (SaveErrorLine e)).

(** [TaskManager.__init__]: the list of the new manager. *)
Definition TaskManager_init : py (list Task) := load_tasks [].

(** Every code point of the text of [t] is one of Unicode: [t] is a task
    that Python can hold. *)
Definition valid (t : Task) : bool :=
  forallb (fun c => c <? 1114112)%N (name t ++ priority t ++ created_date t).

(** In no text of [t] a high surrogate is directly followed by a low
    one. *)
Definition storable (t : Task) : bool :=
  faithful (name t) && faithful (priority t) && faithful (created_date t).

End Wide.

(** The task of the store as a task of any text. *)
Definition widen (t : Task) : Wide.Task :=
  Wide.mkTask (codes (name t)) (codes (priority t)) (completed t)
    (codes (created_date t)).

(** ** Auxiliary notions for the properties of the store *)

(** The keywords [filter_tasks] knows. *)
Definition keywords : list string :=
  ["all"; "low"; "medium"; "high"; "pending"; "done"].

(** The state after a sequence of lines was printed. *)
Definition logs (ps : list printed) (s : state) : state :=
  foldl (fun s p => log p s) s ps.

(** The order [list.sort] uses when the key of a task is [g]. *)
Definition lt_key (g : Task → attr_value) (a b : Task) : bool :=
  default false (attr_lt (g a) (g b)).

(** [b] may come after [a] in a list sorted by [key]: the keys can be
    compared and that of [b] is not the smaller one. *)
Definition in_order (key : string) (a b : Task) : Prop :=
  attr_lt (field_value key b) (field_value key a) = Some false.

(** [x] and [a] have equal keys. *)
Definition same_key (key : string) (a x : Task) : bool :=
  negb (lt_key (field_value key) x a) && negb (lt_key (field_value key) a x).

(** [Task] called with the items of [task_dict] as keyword arguments raises
    [TypeError] before [__init__] runs. *)
Definition bad_record (task_dict : value) : bool :=
  match task_dict with
  | JObj members =>
      let d := as_dict members in
      negb (forallb (fun kv => bool_decide (kv.1 ∈ params)) d) ||
      (if dict_get (codes "name") d is Some _ then false else true)
  | _ => true
  end.

(** ** The console: [input], [get_task_index] and [main] *)

(** [c.isspace()] on one code point below 256: what [str.strip] removes. *)
Definition is_space (c : ascii) : bool :=
  let n := N_of_ascii c in
  ((9 <=? n) && (n <=? 13) || (28 <=? n) && (n <=? 32) ||
   (n =? 133) || (n =? 160))%N.

Fixpoint lstrip (s : string) : string :=
  match s with
  | "" => ""
  | String c s' => if is_space c then lstrip s' else s
  end.

Fixpoint rstrip (s : string) : string :=
  match s with
  | "" => ""
  | String c s' =>
      let r := rstrip s' in
      if is_space c && negb (Text.truthy r) then "" else String c r
  end.

(** [s.strip()] *)
Definition strip (s : string) : string := rstrip (lstrip s).

(** The capital of one code point below 256, where it is one code point
    below 256 again: the ASCII small letters and the Latin-1 small letters
    U+00E0..U+00FE, U+00F7 (the division sign) excepted, move down by 32.
    The capitals of U+00B5, U+00DF and U+00FF are not of that kind. *)
Definition capital_char (c : ascii) : option ascii :=
  let n := N_of_ascii c in
  if ((97 <=? n) && (n <=? 122) ||
      (224 <=? n) && (n <=? 254) && negb (n =? 247))%N
  then Some (ascii_of_N (n - 32))
  else if ((n =? 181) || (n =? 223) || (n =? 255))%N then None
  else Some c.

(** [s.capitalize()]: the first character as a capital, the rest in lower
    case; [None] where the capital of the first character is not one code
    point below 256, that is for U+00B5, U+00DF and U+00FF.  The result,
    which in lower case starts with U+03BC, with [ss] or with U+00FF, is
    then none of the words the program compares it to. *)
Definition capitalize (s : string) : option string :=
  match s with
  | "" => Some ""
  | String c s' =>
      match capital_char c with
      | Some c' => Some (String c' (Text.lower s'))
      | None => None
      end
  end.

(** The blanks [int] skips at both ends of its argument. *)
Definition int_space (c : ascii) : bool :=
  let n := N_of_ascii c in
  ((9 <=? n) && (n <=? 13) || (n =? 32) || (n =? 133) || (n =? 160))%N.

Fixpoint int_lstrip (s : string) : string :=
  match s with
  | "" => ""
  | String c s' => if int_space c then int_lstrip s' else s
  end.

Fixpoint int_rstrip (s : string) : string :=
  match s with
  | "" => ""
  | String c s' =>
      let r := int_rstrip s' in
      if int_space c && negb (Text.truthy r) then "" else String c r
  end.

(** Decimal digits, single underscores allowed between two of them: the
    value and the number of digits. *)
Fixpoint int_digits (acc : Z) (count : nat) (after_digit : bool) (s : string)
    : option (Z * nat) :=
  match s with
  | "" => if after_digit then Some (acc, count) else None
  | String c s' =>
      if is_digit c then
        int_digits (10 * acc + Z.of_N (N_of_ascii c - 48)) (S count) true s'
      else if Ascii.eqb c "_" then
        if after_digit then int_digits acc count false s' else None
      else None
  end.

(** [int(s)] for a [str]; [None] where it raises [ValueError].
    [max_str_digits] is [sys.get_int_max_str_digits()], 0 where the number of
    digits is not limited. *)
Definition int_of_str (max_str_digits : nat) (s : string) : option Z :=
  let body := int_rstrip (int_lstrip s) in
  let '(negative, digits) :=
    match body with
    | String c rest =>
        if Ascii.eqb c "-" then (true, rest)
        else if Ascii.eqb c "+" then (false, rest)
        else (false, body)
    | "" => (false, "")
    end in
  match int_digits 0 0 false digits with
  | Some (n, count) =>
      if (0 <? max_str_digits)%nat && (max_str_digits <? count)%nat then None
      else Some (if negative then - n else n)
  | None => None
  end.

(** How a run at the console ends: it returns; an exception of the store
    escapes; [input] meets the end of the input and raises [EOFError], which
    nothing catches; the run leaves the data model; or the steps allowed are
    used up. *)
Inductive outcome (A : Type) :=
  | Returned (a : A)
  | Uncaught (e : exn)
  | EOFError
  | Outside
  | Unfinished.
Arguments Returned {A} a.
Arguments Uncaught {A} e.
Arguments EOFError {A}.
Arguments Outside {A}.
Arguments Unfinished {A}.

(** The program at a terminal: the state of the store, the lines still to be
    typed, and the prompts [input] has written, each with the number of lines
    printed before it. *)
Record console := mkConsole {
  world : state;
  stdin : list string;
  prompts : list (nat * string) }.

Definition io (A : Type) : Type := console -> outcome A * console.

Global Instance io_ret : MRet io := fun A a c => (Returned a, c).
Global Instance io_bind : MBind io := fun A B f m c =>
  match m c with
  | (Returned a, c') => f a c'
  | (Uncaught e, c') => (Uncaught e, c')
  | (EOFError, c') => (EOFError, c')
  | (Outside, c') => (Outside, c')
  | (Unfinished, c') => (Unfinished, c')
  end.

(** A computation of the store, run at the console. *)
Definition lift {A} (m : py A) : io A := fun c =>
  let '(r, s) := m (world c) in
  (match r with
   | Ok a => Returned a
   | Raise e => Uncaught e
   | Beyond => Outside
   end,
   mkConsole s (stdin c) (prompts c)).

(** [input(prompt)] *)
Definition input (prompt : string) : io string := fun c =>
  let written := prompts c ++ [(length (stdout (world c)), prompt)] in
  match stdin c with
  | [] => (EOFError, mkConsole (world c) [] written)
  | line :: rest => (Returned line, mkConsole (world c) rest written)
  end.

Definition menu_lines : list string :=
  [Text.nl +:+ "=============================================";
   "          ADVANCED TO-DO LIST MANAGER";
   "=============================================";
   "1. View Tasks (Master List)";
   "2. Add New Task";
   "3. Sort Tasks";
   "4. Filter Tasks";
   "5. Toggle Task Status (Complete/Pending)";
   "6. Delete Task";
   "7. Exit (and Save)";
   "============================================="].

(** [filter_tasks] on a criterion that [capitalize] gave and that is no
    [str] of the model.  In lower case it is none of the keywords (it starts
    with U+03BC, with [ss] or with U+00FF), so [filter_tasks] takes its last
    branch. *)
Definition filter_tasks_unmatched : py (list Task) :=
  print "Invalid filter criterion. Options: All, Low, Medium, High, Pending, Done.";;
  mret [].

Section Console.

(** The attributes of a [Task] that are no data attribute, as in [Sort], and
    the limit on the digits [int] reads. *)
Variable other_attr : string -> Task -> option attr_value.
Variable max_str_digits : nat.

(** [get_task_index(manager, prompt)]; both callers pass the prompt.  The
    [try] covers [input] too, but catches [ValueError] only: the [EOFError]
    of [input] goes through. *)
Definition get_task_index (prompt : string) : io Z :=
  lift (display_tasks None);;
  l ← lift get_tasks;
  if l is [] then mret (-1)
  else
    task_num ← input prompt;
    match int_of_str max_str_digits task_num with
    | Some n =>
        let index := n - 1 in
        l ← lift get_tasks;
        if in_range index l then mret index
        else
          lift (print (Text.nl +:+ "Error: Task number is out of range."));;
          mret (-1)
    | None =>
        lift (print (Text.nl +:+ "Error: Please enter a valid number."));;
        mret (-1)
    end.

(** The [if choice == '1': ... else: ...] statement of the loop of [main];
    [false] at [break]. *)
Definition dispatch (choice : string) : io bool :=
  if String.eqb choice "1" then
    lift (display_tasks None);;
    mret true
  else if String.eqb choice "2" then
    name ← input "Enter task name: ";
    line ← input "Enter priority (Low, Medium, High): ";
    let priority :=
      match capitalize (strip line) with
      | Some p => if bool_decide (p ∈ ["Low"; "Medium"; "High"]) then p
                  else "Medium"
      | None => "Medium"
      end in
    lift (add_task name priority);;
    mret true
  else if String.eqb choice "3" then
    line ← input "Sort by: 'name', 'priority', or 'created_date'? (Default: created_date): ";
    let sort_key := if Text.truthy line then line else "created_date" in
    line ← input "Reverse order? (y/n): ";
    let is_reverse := String.eqb (Text.lower line) "y" in
    lift (sort_tasks other_attr sort_key is_reverse);;
    lift (display_tasks None);;
    mret true
  else if String.eqb choice "4" then
    line ← input "Filter by (Low, Medium, High, Pending, Done, All): ";
    filtered_list ← lift (match capitalize (strip line) with
                          | Some filter_crit => filter_tasks filter_crit
                          | None => filter_tasks_unmatched
                          end);
    lift (display_tasks (Some filtered_list));;
    mret true
  else if String.eqb choice "5" then
    index ← get_task_index "Enter the number of the task to toggle status: ";
    (if index =? -1 then mret tt else lift (toggle_task index));;
    mret true
  else if String.eqb choice "6" then
    index ← get_task_index "Enter the number of the task to DELETE: ";
    (if index =? -1 then mret tt else lift (delete_task index));;
    mret true
  else if String.eqb choice "7" then
    lift save_tasks;;
    lift (print "Application closed. Goodbye!");;
    mret false
  else
    lift (print "Invalid choice. Please enter a number from 1 to 7.");;
    mret true.

(** One turn of the loop of [main]. *)
Definition menu : io bool :=
  lift (for_each menu_lines print);;
  choice ← input "Enter your choice (1-7): ";
  dispatch choice.

(** [while True:] for at most [fuel] turns. *)
Fixpoint main_loop (fuel : nat) : io unit :=
  match fuel with
  | O => fun c => (Unfinished, c)
  | S fuel' =>
      again ← menu;
      if (again : bool) then main_loop fuel' else mret tt
  end.

(** [while True:]; every turn reads a line, so one turn more than there are
    lines to read is enough. *)
Definition main_while : io unit := fun c =>
  main_loop (S (length (stdin c))) c.

(** [main()] *)
Definition main : io unit :=
  lift TaskManager_init;;
  main_while.

End Console.

(** ** Predicates on runs at the console *)

(** What every run leaves alone but the one that ends with the choice 7: the
    file and whether it can be written; no line is put back on the input. *)
Definition frame (c c' : console) : Prop :=
  disk (world c') = disk (world c) ∧
  writable (world c') = writable (world c) ∧
  (length (stdin c') <= length (stdin c))%nat.

(** [m] keeps the frame, returns only values in [Q], lets no exception
    escape but the [TypeError] of a sort, meets the end of the input only
    when the input is used up, stays within the model and never runs out of
    steps. *)
Definition ok {A} (Q : A -> Prop) (m : io A) : Prop :=
  ∀ c, match m c with
       | (Returned a, c') => Q a ∧ frame c c'
       | (Uncaught e, c') => e = TypeError ∧ frame c c'
       | (EOFError, c') => frame c c' ∧ stdin c' = []
       | (Outside, _) => False
       | (Unfinished, _) => False
       end.

(** The same for a computation of the store. *)
Definition quiet {A} (m : py A) : Prop :=
  ∀ s, disk (m s).2 = disk s ∧ writable (m s).2 = writable s ∧
       match (m s).1 with
       | Ok _ => True
       | Raise e => e = TypeError
       | Beyond => False
       end.

(** The console after the choice 7: the outcome of [save_tasks] and the
    farewell are the last two lines, and the file holds the tasks if it could
    be written. *)
Definition closed (c' : console) : Prop :=
  let s := world c' in
  (∃ pre, stdout s = pre ++
     [if writable s then Line "Tasks saved successfully!"
      else SaveErrorLine OSError;
      Line "Application closed. Goodbye!"]) ∧
  (writable s = true →
   disk s = Some (dumps (JArr (to_dict <$> tasks s)))).

(** * Properties *)

Ltac run := unfold mbind, mret, py_bind, py_ret; simpl.

(** ** The operations on the list in memory *)

Lemma in_range_spec {A} (index : Z) (l : list A) :
  in_range index l = true ↔ 0 ≤ index < Z.of_nat (length l).
Proof. unfold in_range. rewrite andb_true_iff, Z.leb_le, Z.ltb_lt. done. Qed.

(** C3: on a list of [n] tasks, [delete_task index] with [0 <= index < n]
    removes exactly the task at [index] (the list before is the kept prefix,
    that task and the kept suffix), leaves [n - 1] tasks and prints the name
    of the removed task; with any other [index] the state is unchanged but
    for the out-of-range message. *)
Theorem delete_task_spec (s : state) (index : Z) :
  if decide (0 ≤ index < Z.of_nat (length (tasks s))) then
    ∃ t : Task,
      tasks s !! Z.to_nat index = Some t ∧
      tasks s = take (Z.to_nat index) (tasks s) ++ t :: drop (S (Z.to_nat index)) (tasks s) ∧
      delete_task index s =
        (Ok tt,
         log (Line (Text.nl +:+ "Task '" +:+ name t +:+ "' deleted."))
           (put_tasks (take (Z.to_nat index) (tasks s) ++
                       drop (S (Z.to_nat index)) (tasks s)) s)) ∧
      Z.of_nat (length (take (Z.to_nat index) (tasks s) ++
              drop (S (Z.to_nat index)) (tasks s))) = Z.of_nat (length (tasks s)) - 1
  else
    delete_task index s =
      (Ok tt, log (Line (Text.nl +:+ "Error: Task number is out of range.")) s).
Proof.
  case_decide as Hr.
  - destruct (lookup_lt_is_Some_2 (tasks s) (Z.to_nat index)) as [t Ht]; [lia|].
    exists t. split; [done|]. split.
    { by rewrite <- (take_drop_middle _ _ _ Ht) at 1. }
    split.
    + unfold delete_task, tasks_pop. run.
      rewrite (proj2 (in_range_spec index (tasks s)) Hr). simpl.
      rewrite Ht. simpl. rewrite delete_take_drop. done.
    + rewrite length_app, length_take, length_drop. lia.
  - unfold delete_task. run.
    destruct (in_range index (tasks s)) eqn:E; [|done].
    apply in_range_spec in E. lia.
Qed.

Lemma toggle_task_in_range (s : state) (index : Z) (t : Task) :
  0 ≤ index < Z.of_nat (length (tasks s)) →
  tasks s !! Z.to_nat index = Some t →
  toggle_task index s =
    (Ok tt,
     log (Line (Text.nl +:+ "Task '" +:+ name t +:+ "' status set to " +:+
                (if negb (completed t) then "DONE" else "PENDING") +:+ "."))
       (put_tasks (<[Z.to_nat index := toggle_complete t]> (tasks s)) s)).
Proof.
  intros Hr Ht. unfold toggle_task, tasks_getitem. run.
  rewrite (proj2 (in_range_spec index (tasks s)) Hr). simpl.
  rewrite Ht. simpl.
  repeat (rewrite list_lookup_insert_eq by lia; simpl). done.
Qed.

Lemma toggle_complete_involutive (t : Task) :
  toggle_complete (toggle_complete t) = t.
Proof. destruct t as [n p c d]. unfold toggle_complete. simpl. by rewrite negb_involutive. Qed.

(** C4: for an index in range, [toggle_task] negates [completed] of the
    task at that index and changes no other field and no other task; a
    second [toggle_task] at the same index gives back the original list. *)
Theorem toggle_task_twice (s : state) (index : Z) :
  0 ≤ index < Z.of_nat (length (tasks s)) →
  ∃ (t : Task) (s1 s2 : state),
    tasks s !! Z.to_nat index = Some t ∧
    toggle_task index s = (Ok tt, s1) ∧
    tasks s1 =
      <[Z.to_nat index :=
          mkTask (name t) (priority t) (negb (completed t)) (created_date t)]>
        (tasks s) ∧
    toggle_task index s1 = (Ok tt, s2) ∧
    tasks s2 = tasks s ∧ disk s2 = disk s.
Proof.
  intros Hr.
  destruct (lookup_lt_is_Some_2 (tasks s) (Z.to_nat index)) as [t Ht]; [lia|].
  exists t. eexists. eexists.
  split; [done|]. split; [by apply toggle_task_in_range|].
  split; [done|]. split.
  - apply toggle_task_in_range; simpl.
    + rewrite length_insert. done.
    + apply list_lookup_insert_eq. lia.
  - simpl. split; [|done].
    rewrite list_insert_insert_eq, toggle_complete_involutive.
    by apply list_insert_id.
Qed.

Lemma toggle_task_twice_witness :
  let s := mkState [mkTask "a" "Low" false "2024-01-01 00:00:00"] None true true
             (fun _ => Datetime 2024 1 1 0 0 0) 0 [] in
  ∃ (t : Task) (s1 s2 : state),
    tasks s !! Z.to_nat 0 = Some t ∧
    toggle_task 0 s = (Ok tt, s1) ∧
    tasks s1 =
      <[Z.to_nat 0 :=
          mkTask (name t) (priority t) (negb (completed t)) (created_date t)]>
        (tasks s) ∧
    toggle_task 0 s1 = (Ok tt, s2) ∧
    tasks s2 = tasks s ∧ disk s2 = disk s.
Proof. intros s. apply (toggle_task_twice s 0). simpl. lia. Defined.

Lemma filter_partition {A} (p : A → bool) (l : list A) :
  List.filter p l ++ List.filter (fun x => negb (p x)) l ≡ₚ l.
Proof.
  induction l as [|x l IH]; simpl; [done|].
  destruct (p x); simpl.
  - by f_equiv.
  - rewrite <- Permutation_middle. by f_equiv.
Qed.

(** C5: [filter_tasks "done"] returns precisely the completed tasks,
    [filter_tasks "pending"] precisely the others; together they are a
    rearrangement of the whole list and no task is in both. *)
Theorem filter_done_pending_partition (s : state) :
  let done := List.filter (fun t => completed t) (tasks s) in
  let pending := List.filter (fun t => negb (completed t)) (tasks s) in
  filter_tasks "done" s =
    (Ok done, log (Line (Text.nl +:+ "--- Filtered: Completed Tasks Only ---")) s) ∧
  filter_tasks "pending" s =
    (Ok pending, log (Line (Text.nl +:+ "--- Filtered: Pending Tasks Only ---")) s) ∧
  done ++ pending ≡ₚ tasks s ∧
  (∀ t, t ∈ done ↔ t ∈ tasks s ∧ completed t = true) ∧
  (∀ t, t ∈ pending ↔ t ∈ tasks s ∧ completed t = false) ∧
  (∀ t, ¬ (t ∈ done ∧ t ∈ pending)).
Proof.
  intros done pending.
  assert (Hin : ∀ (p : Task → bool) t,
             t ∈ List.filter p (tasks s) ↔ t ∈ tasks s ∧ p t = true).
  { intros p t. rewrite !list_elem_of_In. apply filter_In. }
  split; [reflexivity|]. split; [reflexivity|].
  split; [apply filter_partition|].
  split; [intros t; apply Hin|].
  split.
  - intros t. unfold pending. rewrite Hin, negb_true_iff. done.
  - intros t [H1 H2]. apply Hin in H1 as [_ H1]. apply Hin in H2 as [_ H2].
    rewrite H1 in H2. done.
Qed.

(** C8: on an empty store, [add_task "Buy milk" "High"] leaves exactly one
    task, and [display_tasks] then prints the header, one numbered line and
    the footer; that line contains the marker [[ ]], the label
    [(P: High  )] padded to width 6, and the name. *)
Theorem add_then_display (d : option string) (r w : bool)
    (c : nat → datetime) (k : nat) (out : list printed) :
  let s := mkState [] d r w c k out in
  let t := mkTask "Buy milk" "High" false (strftime (c k)) in
  let line := "1. [ ] (P: High  ) Buy milk (Created: " +:+
              Text.slice_to 10 (strftime (c k)) +:+ ")" in
  ∃ s1 s2,
    add_task "Buy milk" "High" s = (Ok tt, s1) ∧
    tasks s1 = [t] ∧
    stdout s1 = out ++
      [Line (Text.nl +:+ "Task 'Buy milk' added with priority 'High'.")] ∧
    display_tasks None s1 = (Ok (Some [t]), s2) ∧
    stdout s2 = stdout s1 ++
      [Line (Text.nl +:+ "--- Current To-Do List ---"); Line line;
       Line "--------------------------"] ∧
    Text.contains "[ ]" line = true ∧
    Text.contains "(P: High  )" line = true ∧
    Text.contains "Buy milk" line = true.
Proof.
  intros s t line. eexists. eexists.
  split; [reflexivity|]. split; [reflexivity|]. split; [reflexivity|].
  split; [reflexivity|].
  split.
  { simpl. rewrite <- !app_assoc. reflexivity. }
  repeat split; vm_compute; reflexivity.
Qed.

(** ** Sorting *)

Section SortFacts.
Context {A : Type} (lt : A → A → bool).

Lemma insert_by_perm (x : A) (l : list A) : insert_by lt x l ≡ₚ x :: l.
Proof.
  induction l as [|y l IH]; simpl; [done|].
  destruct (lt y x); [|done].
  rewrite IH. apply perm_swap.
Qed.

Lemma stable_sort_perm (l : list A) : stable_sort lt l ≡ₚ l.
Proof.
  induction l as [|x l IH]; simpl; [done|].
  unfold stable_sort in *. simpl. rewrite insert_by_perm. by f_equiv.
Qed.

Context (R : relation A) `{!Transitive R}.
Hypothesis lt_R : ∀ a b, lt a b = true → R a b.
Hypothesis nlt_R : ∀ a b, lt a b = false → R b a.

Lemma insert_by_sorted (x : A) (l : list A) :
  Sorted R l → Sorted R (insert_by lt x l).
Proof.
  induction 1 as [|y l Hs IH Hhd]; simpl.
  - by repeat constructor.
  - destruct (lt y x) eqn:E.
    + constructor; [done|].
      destruct Hhd as [|z l Hyz]; simpl.
      * constructor. by apply lt_R.
      * destruct (lt z x); constructor; [done|by apply lt_R].
    + constructor; [by constructor|]. constructor. by apply nlt_R.
Qed.

Lemma stable_sort_sorted (l : list A) : StronglySorted R (stable_sort lt l).
Proof.
  apply Sorted_StronglySorted; [done|].
  induction l as [|x l IH]; [constructor|].
  by apply insert_by_sorted.
Qed.

End SortFacts.

(** Insertion sort is stable: the elements of one class of equal keys come
    out in the order they came in.  With [stable_sort_perm] and
    [stable_sort_sorted] this fixes the result, whatever the algorithm of
    [list.sort] is. *)
Section Stable.
Context {A : Type} (lt : A → A → bool) (a : A).

(** Neither smaller nor greater than [a]. *)
Let same (x : A) : bool := negb (lt x a) && negb (lt a x).

Hypothesis lt_same : ∀ y x, lt y x = true → same x = true → lt y a = true.

Lemma insert_by_same (x : A) (l : list A) :
  List.filter same (insert_by lt x l) =
    if same x then x :: List.filter same l else List.filter same l.
Proof.
  induction l as [|y l IH]; simpl.
  - by destruct (same x).
  - destruct (lt y x) eqn:E; simpl.
    + rewrite IH. destruct (same x) eqn:Ex; [|done].
      assert (same y = false) as ->; [|done].
      unfold same. by rewrite (lt_same y x E Ex).
    + done.
Qed.

Lemma stable_sort_stable (l : list A) :
  List.filter same (stable_sort lt l) = List.filter same l.
Proof.
  induction l as [|x l IH]; [done|].
  unfold stable_sort in *. simpl. rewrite insert_by_same, IH.
  by destruct (same x).
Qed.

End Stable.

Lemma insert_by_fmap {A B} (h : A → B) (lt : A → A → bool)
    (lt' : B → B → bool) (x : A) (l : list A) :
  (∀ a b, lt' (h a) (h b) = lt a b) →
  insert_by lt' (h x) (h <$> l) = h <$> insert_by lt x l.
Proof.
  intros Hlt. induction l as [|y l IH]; [done|].
  rewrite fmap_cons. simpl. rewrite Hlt.
  destruct (lt y x); [|done]. by rewrite fmap_cons, IH.
Qed.

Lemma stable_sort_fmap {A B} (h : A → B) (lt : A → A → bool)
    (lt' : B → B → bool) (l : list A) :
  (∀ a b, lt' (h a) (h b) = lt a b) →
  stable_sort lt' (h <$> l) = h <$> stable_sort lt l.
Proof.
  intros Hlt. induction l as [|x l IH]; [done|].
  rewrite fmap_cons. unfold stable_sort in *. simpl foldr.
  rewrite IH. by apply insert_by_fmap.
Qed.

Lemma zip_fmap_self {A B} (g : A → B) (l : list A) :
  zip (g <$> l) l = (fun t => (g t, t)) <$> l.
Proof. induction l; simpl; [done|by f_equal]. Qed.

Lemma ltb_le (a b : string) : Text.ltb a b = true → String.le a b.
Proof.
  unfold Text.ltb, String.ltb, String.le, String.leb.
  destruct (String.compare a b); done.
Qed.

Lemma nltb_le (a b : string) : Text.ltb a b = false → String.le b a.
Proof.
  unfold Text.ltb, String.ltb, String.le, String.leb.
  rewrite (String.compare_antisym b a).
  destruct (String.compare a b); done.
Qed.

Section SortTasks.
Variable other : string → Task → option attr_value.

Lemma map_py_attrgetter (key : string) (l : list Task) (s : state) :
  map_py (attrgetter other key) l s =
    (match mapM (getattr other key) l with
     | Some keys => Ok keys
     | None => Raise AttributeError
     end, s).
Proof.
  induction l as [|t l IH]; [done|].
  simpl. unfold mbind at 1, py_bind. unfold attrgetter at 1.
  destruct (getattr other key t) as [v|]; simpl; [|done].
  unfold mbind at 1, py_bind. rewrite IH.
  destruct (mapM (getattr other key) l); done.
Qed.

Lemma tasks_sort_unfold (key : string) (reverse : bool) (s : state) :
  tasks_sort (attrgetter other key) reverse s =
    match mapM (getattr other key) (tasks s) with
    | None => (Raise AttributeError, s)
    | Some keys =>
        if (length (tasks s) <=? 1)%nat || orderable keys
        then (Ok tt, put_tasks (sorted_by keys reverse (tasks s)) s)
        else (Raise TypeError, s)
    end.
Proof.
  unfold tasks_sort. unfold mbind at 1, py_bind. simpl.
  unfold mbind at 1, py_bind. rewrite map_py_attrgetter.
  destruct (mapM (getattr other key) (tasks s)) as [keys|]; [|done].
  by destruct (_ || _).
Qed.

Lemma sorted_by_perm (keys : list attr_value) (reverse : bool)
    (l : list Task) :
  length keys = length l → sorted_by keys reverse l ≡ₚ l.
Proof.
  intros Hlen. unfold sorted_by.
  trans ((zip keys l).*2); [|by rewrite snd_zip by lia].
  apply fmap_Permutation. destruct reverse.
  - by rewrite <- Permutation_rev, stable_sort_perm, <- Permutation_rev.
  - apply stable_sort_perm.
Qed.

Lemma mapM_Some_fmap {X Y} (g : X → Y) (f : X → option Y) (l : list X) :
  (∀ x, f x = Some (g x)) → mapM f l = Some (g <$> l).
Proof.
  intros Hf. induction l as [|x l IH]; [done|].
  simpl. rewrite Hf. simpl. rewrite IH. done.
Qed.

Lemma getattr_field (key : string) (t : Task) :
  key ∈ fields → getattr other key t = Some (field_value key t).
Proof.
  unfold fields. rewrite !elem_of_cons, elem_of_nil.
  intros [->|[->|[->|[->|[]]]]]; reflexivity.
Qed.

Lemma getattr_other (key : string) (t : Task) :
  key ∉ fields → getattr other key t = other key t.
Proof.
  unfold fields. rewrite !not_elem_of_cons. intros (H1 & H2 & H3 & H4 & _).
  unfold getattr.
  apply String.eqb_neq in H1, H2, H3, H4. by rewrite H1, H2, H3, H4.
Qed.

Lemma orderable_field (key : string) (l : list Task) :
  key ∈ fields → orderable (field_value key <$> l) = true.
Proof.
  unfold fields. rewrite !elem_of_cons, elem_of_nil. unfold orderable.
  intros [->|[->|[->|[->|[]]]]].
  - apply orb_true_iff. left. induction l; simpl; [done|]. done.
  - apply orb_true_iff. left. induction l; simpl; [done|]. done.
  - apply orb_true_iff. right. induction l as [|t l IH]; [done|].
    rewrite fmap_cons. simpl. rewrite IH. done.
  - apply orb_true_iff. left. induction l; simpl; [done|]. done.
Qed.

Lemma mapM_getattr_field (key : string) (l : list Task) :
  key ∈ fields → mapM (getattr other key) l = Some (field_value key <$> l).
Proof. intros Hk. apply mapM_Some_fmap. intros t. by apply getattr_field. Qed.

Lemma sort_tasks_unfold (key : string) (reverse : bool) (s : state) :
  sort_tasks other key reverse s =
    match mapM (getattr other key) (tasks s) with
    | None =>
        (Ok tt,
         put_tasks
           (sorted_by (field_value "created_date" <$> tasks s) false (tasks s))
           (log (invalid_key_line key) s))
    | Some keys =>
        if (length (tasks s) <=? 1)%nat || orderable keys
        then (Ok tt,
              log (sorted_line key reverse)
                (put_tasks (sorted_by keys reverse (tasks s)) s))
        else (Raise TypeError, s)
    end.
Proof.
  unfold sort_tasks, try_except. unfold mbind at 1, py_bind.
  rewrite tasks_sort_unfold.
  destruct (mapM (getattr other key) (tasks s)) as [keys|].
  - by destruct (_ || _).
  - cbn [is_AttributeError]. unfold mbind, py_bind. cbn [print emit].
    rewrite tasks_sort_unfold. cbn [tasks log].
    rewrite mapM_getattr_field by (unfold fields; rewrite !elem_of_cons; auto).
    rewrite orderable_field by (unfold fields; rewrite !elem_of_cons; auto).
    by rewrite orb_true_r.
Qed.

End SortTasks.

Lemma sorted_by_created_date (l : list Task) :
  sorted_by (field_value "created_date" <$> l) false l =
    stable_sort by_created_date l.
Proof.
  unfold sorted_by. rewrite zip_fmap_self.
  rewrite (stable_sort_fmap _ by_created_date keyed_lt) by done.
  rewrite <- list_fmap_compose. apply list_fmap_id.
Qed.

Global Instance created_date_le_trans :
  Transitive (fun a b : Task => String.le (created_date a) (created_date b)).
Proof. intros a b c. apply transitivity. Qed.

(** C6, amended: on a list that is not empty, a key that [getattr] finds
    on no task makes [sort_tasks] print the invalid-key line and sort by
    [created_date] ascending whatever [reverse] is; the result is a
    rearrangement of the list. *)
Theorem sort_tasks_invalid_key (other : string → Task → option attr_value)
    (key : string) (reverse : bool) (s : state) :
  tasks s ≠ [] →
  (∀ t, getattr other key t = None) →
  let sorted := stable_sort by_created_date (tasks s) in
  sort_tasks other key reverse s =
    (Ok tt, put_tasks sorted (log (invalid_key_line key) s)) ∧
  sorted ≡ₚ tasks s ∧
  StronglySorted (fun a b => String.le (created_date a) (created_date b)) sorted.
Proof.
  intros Hne Hkey sorted. split; [|split].
  - rewrite sort_tasks_unfold.
    assert (mapM (getattr other key) (tasks s) = None) as ->.
    { destruct (tasks s) as [|t l]; [done|]. cbn [mapM]. by rewrite Hkey. }
    by rewrite sorted_by_created_date.
  - apply stable_sort_perm.
  - apply stable_sort_sorted.
    + apply _.
    + intros a b. apply ltb_le.
    + intros a b. apply nltb_le.
Qed.

Lemma sort_tasks_invalid_key_witness :
  let s := mkState [mkTask "b" "Low" false "2024-02-01 00:00:00";
                    mkTask "a" "High" true "2024-01-01 00:00:00"]
             None true true (fun _ => Datetime 2024 1 1 0 0 0) 0 [] in
  let sorted := stable_sort by_created_date (tasks s) in
  sort_tasks (fun _ _ => None) "bogus" true s =
    (Ok tt, put_tasks sorted (log (invalid_key_line "bogus") s)) ∧
  sorted ≡ₚ tasks s ∧
  StronglySorted (fun a b => String.le (created_date a) (created_date b)) sorted.
Proof.
  intros s. apply (sort_tasks_invalid_key (fun _ _ => None) "bogus" true s).
  - simpl. discriminate.
  - intros t. reflexivity.
Defined.

(** C6 as stated fails on the empty list: no attribute is looked up, so
    the key [bogus] is reported as sorted by, not as invalid. *)
Lemma sort_tasks_invalid_key_empty :
  let s := mkState [] None true true (fun _ => Datetime 2024 1 1 0 0 0) 0 [] in
  (∀ t, getattr (fun _ _ => None) "bogus" t = None) ∧
  sort_tasks (fun _ _ => None) "bogus" true s =
    (Ok tt, log (sorted_line "bogus" true) s) ∧
  invalid_key_line "bogus" ∉ stdout (log (sorted_line "bogus" true) s).
Proof.
  intros s. split; [done|]. split; [reflexivity|].
  simpl. rewrite elem_of_cons, elem_of_nil. intros [E|[]]. discriminate E.
Qed.

(** C9: for any key and any [reverse], whether [sort_tasks] returns or
    raises, the list after it is a rearrangement of the list before: no task
    is added, removed or changed.  It never leaves the model, and the only
    exception that escapes is the [TypeError] of a key that names something
    else than a data attribute on every task, with two tasks or more to
    compare. *)
Theorem sort_tasks_permutation (other : string → Task → option attr_value)
    (key : string) (reverse : bool) (s : state) :
  match sort_tasks other key reverse s with
  | (Ok _, s') => tasks s' ≡ₚ tasks s
  | (Raise e, s') =>
      tasks s' ≡ₚ tasks s ∧
      e = TypeError ∧ (key ∉ fields) ∧ (2 ≤ length (tasks s))%nat ∧
      (∀ t, t ∈ tasks s → is_Some (other key t))
  | (Beyond, _) => False
  end.
Proof.
  rewrite sort_tasks_unfold.
  destruct (mapM (getattr other key) (tasks s)) as [keys|] eqn:E.
  - destruct (_ || _) eqn:C.
    + apply sorted_by_perm. symmetry. by eapply length_mapM.
    + apply orb_false_iff in C as [Hlen%Nat.leb_gt Hord].
      assert (Hk : key ∉ fields).
      { intros Hk. rewrite mapM_getattr_field in E by done.
        injection E as <-. by rewrite orderable_field in Hord. }
      split; [done|]. split; [done|]. split; [done|]. split; [lia|].
      intros t Ht. apply mapM_Some in E.
      destruct (proj1 (list_elem_of_lookup _ _) Ht) as [i Hi].
      destruct (Forall2_lookup_l _ _ _ _ _ E Hi) as (v & _ & Hv).
      rewrite getattr_other in Hv by done. by eexists.
  - cbn [tasks put_tasks]. apply sorted_by_perm. by rewrite length_fmap.
Qed.

(** C2: on the list [[A; B]] with priorities [Low] and [High],
    [sort_tasks "priority"] without [reverse] leaves [[B; A]]: the order is
    that of the text, in which [High] is before [Low] and [Low] before
    [Medium]. *)
Theorem sort_by_priority_lexical (other : string → Task → option attr_value)
    (nA nB dA dB : string) (cA cB : bool)
    (d : option string) (r w : bool) (c : nat → datetime) (k : nat)
    (out : list printed) :
  let A := mkTask nA "Low" cA dA in
  let B := mkTask nB "High" cB dB in
  let s := mkState [A; B] d r w c k out in
  sort_tasks other "priority" false s =
    (Ok tt, log (sorted_line "priority" false) (put_tasks [B; A] s)) ∧
  Text.ltb "High" "Low" = true ∧ Text.ltb "Low" "Medium" = true ∧
  Text.ltb "Medium" "High" = false.
Proof. repeat split. Qed.

(** ** Encoding and decoding *)

Lemma scan_string_plain (c : ascii) (r : string) :
  Ascii.eqb c DQ = false → Ascii.eqb c BS = false →
  (N_of_ascii c <? 32)%N = false →
  scan_string (String c r) = prepend (N_of_ascii c) (scan_string r).
Proof. intros H1 H2 H3. cbn [scan_string]. by rewrite H1, H2, H3. Qed.

Lemma scan_string_simple (e : ascii) (n : N) (r : string) :
  simple_escape e = Some n →
  scan_string (String BS (String e r)) = prepend n (scan_string r).
Proof. intros H. cbn [scan_string]. rewrite H. reflexivity. Qed.

Lemma scan_string_u (h1 h2 h3 h4 : ascii) (hi : N) (r : string) :
  hex4_val h1 h2 h3 h4 = Some hi → is_high_surrogate hi = false →
  scan_string
    (String BS (String "u" (String h1 (String h2 (String h3 (String h4 r))))))
  = prepend hi (scan_string r).
Proof. intros H1 H2. cbn [scan_string]. rewrite H1, H2. reflexivity. Qed.

Lemma hex_val_digit (d : N) : (d < 16)%N → hex_val (hex_digit d) = Some d.
Proof.
  intros Hd. destruct d as [|p]; [reflexivity|].
  do 4 (destruct p as [p|p|]; try reflexivity); lia.
Qed.

Lemma hex4_val_hex4 (c : N) (k : string) :
  (c < 256)%N →
  ∃ h3 h4, hex4 c +:+ k = String "0" (String "0" (String h3 (String h4 k))) ∧
           hex4_val "0" "0" h3 h4 = Some c.
Proof.
  intros Hc. exists (hex_digit (c / 16 mod 16)), (hex_digit (c mod 16)).
  unfold hex4.
  rewrite (N.div_small c 4096), (N.div_small c 256) by lia.
  split; [reflexivity|].
  unfold hex4_val.
  change (hex_val "0") with (Some 0%N). simpl.
  assert (c / 16 < 16)%N by (apply N.Div0.div_lt_upper_bound; lia).
  rewrite (N.mod_small (c / 16)) by done.
  rewrite !hex_val_digit by (done || apply N.mod_lt; lia). simpl.
  f_equal. rewrite (N.Div0.div_mod c 16) at 3. lia.
Qed.

Lemma ascii_of_N_eqb (c n : N) :
  (c < 256)%N → (n < 256)%N → c ≠ n →
  Ascii.eqb (ascii_of_N c) (ascii_of_N n) = false.
Proof.
  intros Hc Hn Hne. apply Ascii.eqb_neq. intros E.
  apply (f_equal N_of_ascii) in E. by rewrite !N_ascii_embedding in E.
Qed.

Lemma scan_escape_code (c : N) (k : string) :
  (c < 256)%N →
  scan_string (escape_code c +:+ k) = prepend c (scan_string k).
Proof.
  intros Hc. unfold escape_code.
  destruct (N.eqb_spec c 34) as [->|H34]; [reflexivity|].
  destruct (N.eqb_spec c 92) as [->|H92]; [reflexivity|].
  destruct (N.eqb_spec c 10) as [->|H10]; [reflexivity|].
  destruct (N.eqb_spec c 13) as [->|H13]; [reflexivity|].
  destruct (N.eqb_spec c 9) as [->|H9]; [reflexivity|].
  destruct (N.eqb_spec c 12) as [->|H12]; [reflexivity|].
  destruct (N.eqb_spec c 8) as [->|H8]; [reflexivity|].
  destruct ((32 <=? c)%N && (c <=? 126)%N) eqn:Hp.
  - apply andb_true_iff in Hp as [H1%N.leb_le H2%N.leb_le].
    change (String (ascii_of_N c) "" +:+ k) with (String (ascii_of_N c) k).
    rewrite scan_string_plain.
    + by rewrite N_ascii_embedding.
    + by apply (ascii_of_N_eqb c 34).
    + by apply (ascii_of_N_eqb c 92).
    + rewrite N_ascii_embedding by done. apply N.ltb_ge. done.
  - assert ((c <? 65536)%N = true) as -> by (apply N.ltb_lt; lia).
    destruct (hex4_val_hex4 c k Hc) as (h3 & h4 & Hs & Hv).
    unfold u_escape.
    change (String BS (String "u" (hex4 c)) +:+ k)
      with (String BS (String "u" (hex4 c +:+ k))).
    rewrite Hs. apply scan_string_u; [done|].
    unfold is_high_surrogate. apply andb_false_iff. left. apply N.leb_gt. lia.
Qed.

Lemma latin1_faithful (l : list N) : latin1 l = true → faithful l = true.
Proof.
  induction l as [|c l IH]; [done|]. cbn [latin1 forallb faithful].
  intros [Hc%N.ltb_lt Hl]%andb_true_iff. rewrite (IH Hl), andb_true_r.
  apply andb_true_iff. split; [apply N.ltb_lt; lia|].
  apply negb_true_iff, andb_false_iff. left.
  unfold is_high_surrogate. apply andb_false_iff. left. apply N.leb_gt. lia.
Qed.

Lemma land_shiftl_small (a b n : N) :
  (b < 2 ^ n)%N → N.land (N.shiftl a n) b = 0%N.
Proof.
  intros Hb. apply N.bits_inj. intros i. rewrite N.land_spec, N.bits_0.
  destruct (N.lt_ge_cases i n) as [Hi|Hi].
  - by rewrite N.shiftl_spec_low.
  - rewrite <- (N.mod_small b (2 ^ n)) by done.
    rewrite N.mod_pow2_bits_high by done. apply andb_false_r.
Qed.

Lemma lor_shiftl_add (a b n : N) :
  (b < 2 ^ n)%N → N.lor (N.shiftl a n) b = (a * 2 ^ n + b)%N.
Proof.
  intros Hb. rewrite <- N.lxor_lor, <- N.add_nocarry_lxor
    by by apply land_shiftl_small.
  by rewrite N.shiftl_mul_pow2.
Qed.

(** The two halves [json.dump] writes for a code point above U+FFFF. *)
Lemma surrogates_of (c : N) :
  (65536 ≤ c < 1114112)%N →
  let v := (c - 65536)%N in
  let hi := N.lor 55296 (N.land (N.shiftr v 10) 1023) in
  let lo := N.lor 56320 (N.land v 1023) in
  is_high_surrogate hi = true ∧ is_low_surrogate lo = true ∧
  join_surrogates hi lo = c.
Proof.
  intros Hc v hi lo.
  assert (Ev : (c = v + 65536)%N) by (unfold v; lia).
  assert (Hv : (v < 1048576)%N) by (unfold v; lia).
  clearbody v.
  assert (Hq : (v / 1024 < 1024)%N) by (apply N.Div0.div_lt_upper_bound; lia).
  assert (Hr : (v mod 1024 < 1024)%N) by (apply N.mod_lt; lia).
  assert (Hhi : hi = (55296 + v / 1024)%N).
  { unfold hi. change 1023%N with (N.ones 10). rewrite N.land_ones.
    rewrite N.shiftr_div_pow2. change (2 ^ 10)%N with 1024%N.
    rewrite (N.mod_small (v / 1024)) by done.
    change 55296%N with (N.shiftl 54 10).
    rewrite lor_shiftl_add by done. reflexivity. }
  assert (Hlo : lo = (56320 + v mod 1024)%N).
  { unfold lo. change 1023%N with (N.ones 10). rewrite N.land_ones.
    change (2 ^ 10)%N with 1024%N.
    change 56320%N with (N.shiftl 55 10).
    rewrite lor_shiftl_add by done. reflexivity. }
  clearbody hi lo. subst hi lo.
  pose proof (N.Div0.div_mod v 1024) as Hdm.
  set (q := (v / 1024)%N) in *. set (r := (v mod 1024)%N) in *.
  clearbody q r.
  split_and!.
  - unfold is_high_surrogate.
    apply andb_true_iff. split; apply N.leb_le; lia.
  - unfold is_low_surrogate.
    apply andb_true_iff. split; apply N.leb_le; lia.
  - unfold join_surrogates.
    replace (55296 + q - 55296)%N with q by lia.
    replace (56320 + r - 56320)%N with r by lia.
    rewrite lor_shiftl_add by done. change (2 ^ 10)%N with 1024%N. lia.
Qed.

Lemma hex4_val_hex4_wide (c : N) (k : string) :
  (c < 65536)%N →
  ∃ h1 h2 h3 h4,
    hex4 c +:+ k = String h1 (String h2 (String h3 (String h4 k))) ∧
    hex4_val h1 h2 h3 h4 = Some c.
Proof.
  intros Hc. eexists _, _, _, _. split; [reflexivity|].
  unfold hex4_val.
  assert (Ha : (c / 4096 < 16)%N) by (apply N.Div0.div_lt_upper_bound; lia).
  assert (E2 : (c / 16 / 16 = c / 256)%N) by (by rewrite N.Div0.div_div).
  assert (E3 : (c / 256 / 16 = c / 4096)%N) by (by rewrite N.Div0.div_div).
  pose proof (N.Div0.div_mod c 16) as H1.
  pose proof (N.Div0.div_mod (c / 16) 16) as H2.
  pose proof (N.Div0.div_mod (c / 256) 16) as H3.
  rewrite E2 in H2. rewrite E3 in H3.
  rewrite (N.mod_small (c / 4096)) by done.
  rewrite !hex_val_digit by (done || apply N.mod_lt; lia). simpl.
  f_equal.
  set (a := (c / 4096)%N) in *. set (b := ((c / 256) mod 16)%N) in *.
  set (d := ((c / 16) mod 16)%N) in *. set (e := (c mod 16)%N) in *.
  set (x := (c / 256)%N) in *. set (y := (c / 16)%N) in *.
  clearbody a b d e x y. lia.
Qed.

(** The scanner on an escaped high surrogate that no escaped low surrogate
    follows. *)
Lemma scan_string_u_high (h1 h2 h3 h4 : ascii) (hi : N) (r2 : string) :
  hex4_val h1 h2 h3 h4 = Some hi → is_high_surrogate hi = true →
  (∀ b u g1 g2 g3 g4 r3,
     r2 = String b (String u (String g1 (String g2 (String g3 (String g4 r3)))))
     → Ascii.eqb b BS && Ascii.eqb u "u" = true →
     ∃ lo, hex4_val g1 g2 g3 g4 = Some lo ∧ is_low_surrogate lo = false) →
  scan_string
    (String BS (String "u" (String h1 (String h2 (String h3 (String h4 r2))))))
  = prepend hi (scan_string r2).
Proof.
  intros Hv Hh Hnext. cbn [scan_string].
  change (Ascii.eqb BS DQ) with false. change (Ascii.eqb BS BS) with true.
  cbv iota. change (simple_escape "u") with (@None N). cbv iota.
  change (Ascii.eqb "u" "u") with true. cbv iota. rewrite Hv, Hh.
  destruct r2 as [|b [|u [|g1 [|g2 [|g3 [|g4 r3]]]]]]; try reflexivity.
  destruct (Ascii.eqb b BS && Ascii.eqb u "u") eqn:E; [|reflexivity].
  destruct (Hnext _ _ _ _ _ _ _ eq_refl E) as (lo & -> & ->). reflexivity.
Qed.

Lemma scan_string_u_pair (h1 h2 h3 h4 g1 g2 g3 g4 : ascii) (hi lo : N)
    (r : string) :
  hex4_val h1 h2 h3 h4 = Some hi → is_high_surrogate hi = true →
  hex4_val g1 g2 g3 g4 = Some lo → is_low_surrogate lo = true →
  scan_string
    (String BS (String "u" (String h1 (String h2 (String h3 (String h4
      (String BS (String "u" (String g1 (String g2 (String g3 (String g4
        r))))))))))))
  = prepend (join_surrogates hi lo) (scan_string r).
Proof.
  intros Hv Hh Gv Gl. cbn [scan_string].
  change (Ascii.eqb BS DQ) with false. change (Ascii.eqb BS BS) with true.
  cbv iota. change (simple_escape "u") with (@None N). cbv iota.
  change (Ascii.eqb "u" "u") with true. cbv iota.
  rewrite Hv, Hh. cbn [andb]. cbv iota. rewrite Gv, Gl. reflexivity.
Qed.

(** What [escape_code] writes for a code point that is no low surrogate
    does not read as an escaped low surrogate. *)
Lemma escape_code_not_low (d : N) (k : string) b u g1 g2 g3 g4 r3 :
  (d < 1114112)%N → is_low_surrogate d = false →
  escape_code d +:+ k =
    String b (String u (String g1 (String g2 (String g3 (String g4 r3))))) →
  Ascii.eqb b BS && Ascii.eqb u "u" = true →
  ∃ lo, hex4_val g1 g2 g3 g4 = Some lo ∧ is_low_surrogate lo = false.
Proof.
  intros Hd Hlow. unfold escape_code.
  destruct (N.eqb_spec d 34) as [->|H34]; [by intros [= <- <-]|].
  destruct (N.eqb_spec d 92) as [->|H92]; [by intros [= <- <-]|].
  destruct (N.eqb_spec d 10) as [->|H10]; [by intros [= <- <-]|].
  destruct (N.eqb_spec d 13) as [->|H13]; [by intros [= <- <-]|].
  destruct (N.eqb_spec d 9) as [->|H9]; [by intros [= <- <-]|].
  destruct (N.eqb_spec d 12) as [->|H12]; [by intros [= <- <-]|].
  destruct (N.eqb_spec d 8) as [->|H8]; [by intros [= <- <-]|].
  destruct ((32 <=? d)%N && (d <=? 126)%N) eqn:Hp.
  - apply andb_true_iff in Hp as [H1%N.leb_le H2%N.leb_le].
    change (String (ascii_of_N d) "" +:+ k) with (String (ascii_of_N d) k).
    intros [= <- _] E. apply andb_true_iff in E as [E _].
    change BS with (ascii_of_N 92) in E.
    by rewrite (ascii_of_N_eqb d 92) in E by lia.
  - destruct (d <? 65536)%N eqn:Hlt.
    + apply N.ltb_lt in Hlt.
      destruct (hex4_val_hex4_wide d k Hlt) as (h1 & h2 & h3 & h4 & Hs & Hv).
      unfold u_escape.
      change (String BS (String "u" (hex4 d)) +:+ k)
        with (String BS (String "u" (hex4 d +:+ k))).
      rewrite Hs. intros [= <- <- <- <- <- <- _] _. eauto.
    + apply N.ltb_ge in Hlt.
      destruct (surrogates_of d ltac:(lia)) as (Hh & _ & _).
      set (hi := N.lor 55296 _) in *. set (lo := N.lor 56320 _) in *.
      assert (Hhi : (hi < 65536)%N).
      { unfold is_high_surrogate in Hh.
        apply andb_true_iff in Hh as [_ ?%N.leb_le]. lia. }
      destruct (hex4_val_hex4_wide hi (u_escape lo +:+ k) Hhi)
        as (h1 & h2 & h3 & h4 & Hs & Hv).
      unfold u_escape at 1.
      change ((String BS (String "u" (hex4 hi)) +:+ u_escape lo) +:+ k)
        with (String BS (String "u" (hex4 hi +:+ (u_escape lo +:+ k)))).
      rewrite Hs. intros [= <- <- <- <- <- <- _] _.
      exists hi. split; [done|].
      unfold is_high_surrogate, is_low_surrogate in *.
      apply andb_true_iff in Hh as [_ ?%N.leb_le].
      apply andb_false_iff. left. apply N.leb_gt. lia.
Qed.

Lemma scan_escape_code_wide (c : N) (l : list N) (k : string) :
  (c < 1114112)%N →
  is_high_surrogate c && (if l is d :: _ then is_low_surrogate d else false)
    = false →
  forallb (fun d => d <? 1114112)%N l = true →
  scan_string (escape_code c +:+ escape_codes l (String DQ k)) =
    prepend c (scan_string (escape_codes l (String DQ k))).
Proof.
  intros Hc Hpair Hl. set (r := escape_codes l (String DQ k)).
  destruct (c <? 256)%N eqn:H256.
  { apply scan_escape_code. by apply N.ltb_lt. }
  apply N.ltb_ge in H256. unfold escape_code.
  repeat match goal with
  | |- context [(c =? ?n)%N] =>
      let H := fresh in destruct (N.eqb_spec c n) as [H|H]; [lia|]
  end.
  assert ((32 <=? c)%N && (c <=? 126)%N = false) as ->
    by (apply andb_false_iff; right; apply N.leb_gt; lia).
  destruct (c <? 65536)%N eqn:Hlt.
  - apply N.ltb_lt in Hlt.
    destruct (hex4_val_hex4_wide c r Hlt) as (h1 & h2 & h3 & h4 & Hs & Hv).
    unfold u_escape.
    change (String BS (String "u" (hex4 c)) +:+ r)
      with (String BS (String "u" (hex4 c +:+ r))).
    rewrite Hs. destruct (is_high_surrogate c) eqn:Hh.
    + apply scan_string_u_high; [done|done|].
      intros b u g1 g2 g3 g4 r3 Hr E. unfold r in Hr.
      destruct l as [|d l'].
      * simpl in Hr. injection Hr as <-. done.
      * cbn [escape_codes] in Hr. simpl in Hpair.
        apply andb_true_iff in Hl as [Hd%N.ltb_lt _].
        by apply (escape_code_not_low d _ b u g1 g2 g3 g4 r3 Hd Hpair Hr).
    + by apply scan_string_u.
  - apply N.ltb_ge in Hlt.
    destruct (surrogates_of c ltac:(lia)) as (Hh & Hlo & Hj).
    set (hi := N.lor 55296 _) in *. set (lo := N.lor 56320 _) in *.
    assert (Hhi : (hi < 65536)%N).
    { unfold is_high_surrogate in Hh.
      apply andb_true_iff in Hh as [_ ?%N.leb_le]. lia. }
    assert (Hlo' : (lo < 65536)%N).
    { unfold is_low_surrogate in Hlo.
      apply andb_true_iff in Hlo as [_ ?%N.leb_le]. lia. }
    destruct (hex4_val_hex4_wide lo r Hlo') as (g1 & g2 & g3 & g4 & Gs & Gv).
    destruct (hex4_val_hex4_wide hi (String BS (String "u" (hex4 lo +:+ r))) Hhi)
      as (h1 & h2 & h3 & h4 & Hs & Hv).
    unfold u_escape.
    change ((String BS (String "u" (hex4 hi)) +:+
             String BS (String "u" (hex4 lo))) +:+ r)
      with (String BS (String "u"
              (hex4 hi +:+ String BS (String "u" (hex4 lo +:+ r))))).
    rewrite Hs, Gs. rewrite <- Hj. by apply scan_string_u_pair.
Qed.

Lemma faithful_valid (l : list N) :
  faithful l = true → forallb (fun d => d <? 1114112)%N l = true.
Proof.
  induction l as [|c l IH]; [done|]. cbn [faithful forallb].
  intros [[-> _]%andb_true_iff Hl]%andb_true_iff. by apply IH.
Qed.

(** Scanning what [encode_str] wrote gives the code points back. *)
Lemma scan_string_escape_codes (l : list N) (k : string) :
  faithful l = true →
  scan_string (escape_codes l (String DQ k)) = Some (l, k).
Proof.
  induction l as [|c l IH]; intros Hl; [reflexivity|].
  cbn [faithful] in Hl.
  apply andb_true_iff in Hl as [[Hc%N.ltb_lt Hp%negb_true_iff]%andb_true_iff Hl].
  cbn [escape_codes].
  rewrite scan_escape_code_wide by (done || by apply faithful_valid).
  by rewrite IH.
Qed.

Lemma value_ind' (P : value → Prop) :
  P JNull → (∀ b, P (JBool b)) → (∀ lit, P (JNum lit)) → (∀ s, P (JStr s)) →
  (∀ l, Forall P l → P (JArr l)) →
  (∀ m, Forall (fun kv : list N * value => P kv.2) m → P (JObj m)) →
  ∀ v, P v.
Proof.
  intros Hnull Hbool Hnum Hstr Harr Hobj.
  fix IH 1. intros [ |b|lit|s|l|m].
  - exact Hnull.
  - apply Hbool.
  - apply Hnum.
  - apply Hstr.
  - apply Harr. induction l as [|x l IHl]; constructor; [apply IH|exact IHl].
  - apply Hobj. induction m as [|[k x] m IHm]; constructor; [apply IH|exact IHm].
Qed.

Lemma skip_ws_indent (n : nat) (k : string) : skip_ws (indent n k) = skip_ws k.
Proof. induction n as [|n IH]; [done|]. simpl. exact IH. Qed.

Lemma skip_ws_newline_indent (lvl : nat) (k : string) :
  skip_ws (newline_indent lvl k) = skip_ws k.
Proof. unfold newline_indent. simpl. apply skip_ws_indent. Qed.

Lemma head_ok_skip_ws (s : string) : head_ok s = true → skip_ws s = s.
Proof.
  destruct s as [|c s]; [done|]. simpl.
  destruct (is_ws c); [done|done].
Qed.

Lemma encode_str_head (l : list N) (k : string) : head_ok (encode_str l k) = true.
Proof. reflexivity. Qed.

Lemma encode_head (lvl : nat) (v : value) (k : string) :
  modelled v = true → head_ok (encode lvl v k) = true.
Proof.
  destruct v as [ |[]|lit|s|[|x l]|[|[key x] m]]; try reflexivity.
  discriminate.
Qed.

Lemma head_ok_after (s : string) :
  head_ok s = true → after "]" s = None ∧ after "}" s = None.
Proof.
  destruct s as [|c s]; [done|]. unfold head_ok, after.
  intros [[_ H1%negb_true_iff]%andb_true_iff H2%negb_true_iff]%andb_true_iff.
  by rewrite H1, H2.
Qed.

(** Scanning an array or an object whose first item is there. *)
Lemma parse_value_array (f : nat) (r : string) :
  head_ok (skip_ws r) = true →
  parse_value (S f) (String "[" r) =
    pmap JArr (parse_elems (parse_value f) f (skip_ws r)).
Proof.
  intros [H _]%head_ok_after. cbn [parse_value].
  change (Ascii.eqb "[" DQ) with false. change (Ascii.eqb "[" "[") with true.
  cbv iota. by rewrite H.
Qed.

Lemma parse_value_object (f : nat) (r : string) :
  head_ok (skip_ws r) = true →
  parse_value (S f) (String "{" r) =
    pmap JObj (parse_members (parse_value f) f (skip_ws r)).
Proof.
  intros [_ H]%head_ok_after. cbn [parse_value].
  change (Ascii.eqb "{" DQ) with false. change (Ascii.eqb "{" "[") with false.
  change (Ascii.eqb "{" "{") with true.
  cbv iota. by rewrite H.
Qed.

Section Items.
Context (pv : string → presult value) (lvl : nat).

Lemma parse_elems_tail (enc : value → string → string) (xs : list value) :
  Forall (fun y => ∀ k, pv (enc y k) = POk y k ∧ head_ok (enc y k) = true) xs →
  ∀ (x : value) (n : nat) (k : string),
    (∀ k', pv (enc x k') = POk x k') →
    (length xs < n)%nat →
    parse_elems pv n (enc x (encode_tail enc lvl "]" xs k)) = POk (x :: xs) k.
Proof.
  induction 1 as [|y xs Hy _ IH]; intros x n k Hx Hn.
  - destruct n as [|n]; [simpl in Hn; lia|].
    cbn [parse_elems encode_tail]. rewrite Hx, skip_ws_newline_indent.
    reflexivity.
  - destruct n as [|n]; [simpl in Hn; lia|].
    cbn [parse_elems encode_tail]. rewrite Hx.
    cbn [skip_ws is_ws]. rewrite skip_ws_newline_indent.
    rewrite head_ok_skip_ws by apply Hy.
    rewrite IH; [reflexivity|intros k'; apply Hy|simpl in Hn; lia].
Qed.

Lemma parse_members_tail (enc : value → string → string)
    (ms : list (list N * value)) :
  Forall (fun kv => faithful kv.1 = true ∧
            ∀ k, pv (enc kv.2 k) = POk kv.2 k ∧ head_ok (enc kv.2 k) = true) ms →
  ∀ (m : list N * value) (n : nat) (k : string),
    faithful m.1 = true →
    (∀ k', pv (enc m.2 k') = POk m.2 k' ∧ head_ok (enc m.2 k') = true) →
    (length ms < n)%nat →
    parse_members pv n
      (encode_member enc m (encode_tail (encode_member enc) lvl "}" ms k))
    = POk (m :: ms) k.
Proof.
  assert (Hone : ∀ (m : list N * value) (n : nat) (r : string),
    faithful m.1 = true →
    (∀ k', pv (enc m.2 k') = POk m.2 k' ∧ head_ok (enc m.2 k') = true) →
    parse_members pv (S n) (encode_member enc m r) =
      match skip_ws r with
      | String c r' =>
          if Ascii.eqb c "}" then POk [m] r'
          else if Ascii.eqb c ","
          then pmap (cons m) (parse_members pv n (skip_ws r'))
          else PErr
      | "" => PErr
      end).
  { intros [key x] n r Hkey Hx. simpl in Hkey, Hx.
    unfold encode_member, encode_str. cbn [parse_members after].
    rewrite Ascii.eqb_refl.
    rewrite scan_string_escape_codes by done.
    change (": " +:+ enc x r) with (String ":" (String " " (enc x r))).
    change (skip_ws (String ":" ?t)) with (String ":" t).
    cbn [after]. rewrite Ascii.eqb_refl.
    change (skip_ws (String " " ?t)) with (skip_ws t).
    rewrite head_ok_skip_ws by apply Hx.
    rewrite (proj1 (Hx r)). reflexivity. }
  induction 1 as [|m' ms [Hk' Hm'] _ IH]; intros m n k Hk Hm Hn.
  - destruct n as [|n]; [simpl in Hn; lia|].
    rewrite Hone by done. cbn [encode_tail].
    rewrite skip_ws_newline_indent. reflexivity.
  - destruct n as [|n]; [simpl in Hn; lia|].
    rewrite Hone by done. cbn [encode_tail skip_ws is_ws].
    rewrite skip_ws_newline_indent.
    assert (Hh : head_ok (encode_member enc m'
               (encode_tail (encode_member enc) lvl "}" ms k)) = true).
    { destruct m'. reflexivity. }
    rewrite head_ok_skip_ws by exact Hh.
    rewrite IH; [reflexivity|done|done|simpl in Hn; lia].
Qed.

End Items.

Lemma size_pos (v : value) : (1 ≤ size v)%nat.
Proof. destruct v; simpl; lia. Qed.

Lemma list_sum_elem (n : nat) (l : list nat) : n ∈ l → (n ≤ list_sum l)%nat.
Proof. induction 1; simpl; lia. Qed.

Lemma list_sum_length {X} (f : X → nat) (l : list X) :
  (∀ x, 1 ≤ f x)%nat → (length l ≤ list_sum (f <$> l))%nat.
Proof.
  intros Hf. induction l as [|x l IH]; [simpl; lia|].
  rewrite fmap_cons. specialize (Hf x). simpl in *. lia.
Qed.

Lemma forallb_elem {X} (f : X → bool) (l : list X) (x : X) :
  forallb f l = true → x ∈ l → f x = true.
Proof. intros H Hx. by apply (proj1 (forallb_forall f l) H), list_elem_of_In. Qed.

Lemma parse_encode (v : value) :
  modelled v = true →
  ∀ (lvl : nat) (k : string) (fuel : nat),
    (size v ≤ fuel)%nat → parse_value fuel (encode lvl v k) = POk v k.
Proof.
  induction v as [ |b|lit|s|l IH|m IH] using value_ind';
    intros Hm lvl k fuel Hf;
    (destruct fuel as [|f];
     [match type of Hf with (size ?v ≤ _)%nat => pose proof (size_pos v) end;
      lia|]).
  - reflexivity.
  - destruct b; reflexivity.
  - discriminate.
  - simpl in Hm. unfold encode, encode_str. cbn [parse_value].
    rewrite Ascii.eqb_refl. by rewrite scan_string_escape_codes.
  - destruct l as [|x xs]; [reflexivity|].
    simpl in Hm. apply andb_true_iff in Hm as [Hx Hxs].
    assert (Hf' : (size x + list_sum (size <$> xs) ≤ f)%nat).
    { change (size (JArr (x :: xs)))
        with (S (size x + list_sum (size <$> xs))) in Hf. lia. }
    clear Hf. pose proof (size_pos x).
    pose proof (list_sum_length size xs size_pos) as Hlen.
    apply Forall_cons in IH as [IHx IHxs].
    cbn [encode].
    rewrite parse_value_array;
      rewrite skip_ws_newline_indent, head_ok_skip_ws;
      try by apply encode_head.
    rewrite parse_elems_tail; [reflexivity| | |lia].
    + rewrite Forall_forall in IHxs. apply Forall_forall. intros y Hy k'.
      pose proof (forallb_elem _ _ _ Hxs Hy) as Hmy.
      split; [|by apply encode_head].
      apply IHxs; [done|done|].
      assert (size y ≤ list_sum (size <$> xs))%nat; [|lia].
      apply list_sum_elem, list_elem_of_fmap. eauto.
    + intros k'. apply IHx; [done|lia].
  - destruct m as [|[key x] ms]; [reflexivity|].
    simpl in Hm. apply andb_true_iff in Hm as [[Hkey Hx]%andb_true_iff Hms].
    set (sz := fun kv : list N * value => let '(_, x) := kv in size x) in *.
    assert (Hf' : (size x + list_sum (sz <$> ms) ≤ f)%nat).
    { change (size (JObj ((key, x) :: ms)))
        with (S (size x + list_sum (sz <$> ms))) in Hf. lia. }
    clear Hf. pose proof (size_pos x).
    assert (Hlen : (length ms ≤ list_sum (sz <$> ms))%nat).
    { apply list_sum_length. intros [? y]. apply size_pos. }
    apply Forall_cons in IH as [IHx IHms]. simpl in IHx.
    cbn [encode].
    rewrite parse_value_object;
      rewrite skip_ws_newline_indent, head_ok_skip_ws; try reflexivity.
    rewrite parse_members_tail; [reflexivity| |done| |lia].
    + rewrite Forall_forall in IHms. apply Forall_forall. intros [key' y] Hy.
      pose proof (forallb_elem _ _ _ Hms Hy) as [Hk' Hmy]%andb_true_iff.
      split; [done|]. intros k'. simpl.
      split; [|by apply encode_head].
      apply (IHms _ Hy); [done|].
      assert (size y ≤ list_sum (sz <$> ms))%nat; [|simpl; lia].
      apply list_sum_elem, list_elem_of_fmap. by exists (key', y).
    + intros k'. simpl. split; [apply IHx; [done|lia]|by apply encode_head].
Qed.

Lemma length_app (a b : string) :
  String.length (a +:+ b) = (String.length a + String.length b)%nat.
Proof. induction a as [|c a IH]; simpl; [done|]. by rewrite IH. Qed.

Lemma length_escape_codes (l : list N) (k : string) :
  (String.length k ≤ String.length (escape_codes l k))%nat.
Proof.
  induction l as [|c l IH]; simpl; [lia|]. rewrite length_app. lia.
Qed.

Lemma length_encode_str (l : list N) (k : string) :
  (1 + String.length k ≤ String.length (encode_str l k))%nat.
Proof.
  unfold encode_str. simpl.
  pose proof (length_escape_codes l (String DQ k)). simpl in *. lia.
Qed.

Lemma length_indent (n : nat) (k : string) :
  (String.length k ≤ String.length (indent n k))%nat.
Proof. induction n as [|n IH]; simpl; lia. Qed.

Lemma length_newline_indent (lvl : nat) (k : string) :
  (String.length k ≤ String.length (newline_indent lvl k))%nat.
Proof.
  unfold newline_indent. cbn [String.length].
  pose proof (length_indent (4 * lvl) k). lia.
Qed.

Lemma length_encode_tail {X} (enc : X → string → string) (sz : X → nat)
    (lvl : nat) (close : ascii) (l : list X) (k : string) :
  Forall (fun x => ∀ k', (sz x + String.length k' ≤ String.length (enc x k'))%nat) l →
  (list_sum (sz <$> l) + String.length k
     ≤ String.length (encode_tail enc lvl close l k))%nat.
Proof.
  induction 1 as [|x l Hx _ IH]; cbn [encode_tail].
  - pose proof (length_newline_indent lvl (String close k)) as Hn.
    cbn [String.length] in Hn. change (list_sum (sz <$> [])) with 0%nat. lia.
  - rewrite fmap_cons.
    change (list_sum (sz x :: (sz <$> l)))
      with (sz x + list_sum (sz <$> l))%nat.
    cbn [String.length].
    pose proof (length_newline_indent (S lvl)
                  (enc x (encode_tail enc lvl close l k))).
    specialize (Hx (encode_tail enc lvl close l k)). lia.
Qed.

Lemma length_encode (v : value) :
  modelled v = true →
  ∀ (lvl : nat) (k : string),
    (size v + String.length k ≤ String.length (encode lvl v k))%nat.
Proof.
  induction v as [ |b|lit|s|l IH|m IH] using value_ind'; intros Hm lvl k.
  - cbn [encode size]. rewrite length_app. simpl. lia.
  - destruct b; cbn [encode size]; rewrite length_app; simpl; lia.
  - discriminate.
  - apply length_encode_str.
  - destruct l as [|x xs]; [cbn [encode]; rewrite length_app; simpl; lia|].
    simpl in Hm. apply andb_true_iff in Hm as [Hx Hxs].
    apply Forall_cons in IH as [IHx IHxs].
    change (size (JArr (x :: xs)))
      with (S (size x + list_sum (size <$> xs))).
    cbn [encode String.length].
    set (tl := encode_tail (encode (S lvl)) lvl "]" xs k).
    pose proof (length_newline_indent (S lvl) (encode (S lvl) x tl)).
    pose proof (IHx Hx (S lvl) tl).
    assert (list_sum (size <$> xs) + String.length k ≤ String.length tl)%nat;
      [|lia].
    apply length_encode_tail, Forall_forall. intros y Hy k'.
    rewrite Forall_forall in IHxs. apply IHxs; [done|].
    by apply (forallb_elem _ _ _ Hxs).
  - destruct m as [|[key x] ms]; [cbn [encode]; rewrite length_app; simpl; lia|].
    simpl in Hm. apply andb_true_iff in Hm as [[Hkey Hx]%andb_true_iff Hms].
    apply Forall_cons in IH as [IHx IHms]. simpl in IHx.
    set (sz := fun kv : list N * value => let '(_, x) := kv in size x) in *.
    change (size (JObj ((key, x) :: ms)))
      with (S (size x + list_sum (sz <$> ms))).
    cbn [encode String.length encode_member].
    set (tl := encode_tail (encode_member (encode (S lvl))) lvl "}" ms k).
    pose proof (length_newline_indent (S lvl)
                  (encode_str key (": " +:+ encode (S lvl) x tl))).
    pose proof (length_encode_str key (": " +:+ encode (S lvl) x tl)) as Hs.
    change (String.length (": " +:+ encode (S lvl) x tl))
      with (S (S (String.length (encode (S lvl) x tl)))) in Hs.
    pose proof (IHx Hx (S lvl) tl).
    assert (list_sum (sz <$> ms) + String.length k ≤ String.length tl)%nat;
      [|lia].
    apply length_encode_tail, Forall_forall. intros [key' y] Hy k'.
    pose proof (forallb_elem _ _ _ Hms Hy) as [Hk' Hmy]%andb_true_iff.
    rewrite Forall_forall in IHms. specialize (IHms _ Hy Hmy (S lvl) k').
    simpl in IHms. unfold encode_member, sz.
    pose proof (length_encode_str key' (": " +:+ encode (S lvl) y k')) as Hs'.
    change (String.length (": " +:+ encode (S lvl) y k'))
      with (S (S (String.length (encode (S lvl) y k')))) in Hs'.
    lia.
Qed.

(** Decoding what was encoded gives the value back. *)
Theorem loads_dumps (v : value) : modelled v = true → loads (dumps v) = Some v.
Proof.
  intros Hm. unfold loads, dumps.
  rewrite head_ok_skip_ws by by apply encode_head.
  rewrite parse_encode; [reflexivity|done|].
  pose proof (length_encode v Hm 0 ""). lia.
Qed.

Lemma skip_ws_length (s : string) : (String.length (skip_ws s) ≤ String.length s)%nat.
Proof.
  induction s as [|c s IH]; simpl; [lia|]. destruct (is_ws c); simpl; lia.
Qed.

Lemma after_length (c : ascii) (s r : string) :
  after c s = Some r → String.length s = S (String.length r).
Proof.
  destruct s as [|c' s]; [done|]. simpl.
  destruct (Ascii.eqb c' c); [|done]. by intros [= ->].
Qed.

Lemma prepend_Some (c : N) (x : option (list N * string)) (l : list N)
    (r : string) :
  prepend c x = Some (l, r) → ∃ l', x = Some (l', r).
Proof. destruct x as [[l' r']|]; [|done]. intros [= _ ->]. eauto. Qed.

Lemma scan_string_length (s : string) (l : list N) (r : string) :
  scan_string s = Some (l, r) → (String.length r < String.length s)%nat.
Proof.
  remember (String.length s) as n eqn:Hn. revert s l r Hn.
  induction n as [n IH] using lt_wf_ind. intros s l r -> H.
  assert (Hrec : ∀ (c : N) (s' : string),
            (String.length s' < String.length s)%nat →
            prepend c (scan_string s') = Some (l, r) → (String.length r < String.length s)%nat).
  { intros c s' Hlt [l' Hs']%prepend_Some.
    specialize (IH _ Hlt s' l' r eq_refl Hs'). lia. }
  destruct s as [|c s]; [done|]. cbn [scan_string] in H.
  destruct (Ascii.eqb c DQ); [injection H as _ ->; simpl; lia|].
  destruct (Ascii.eqb c BS).
  - destruct s as [|e r1]; [done|].
    destruct (simple_escape e); [eapply Hrec; [|exact H]; simpl; lia|].
    destruct (Ascii.eqb e "u"); [|done].
    destruct r1 as [|h1 [|h2 [|h3 [|h4 r2]]]]; try done.
    destruct (hex4_val h1 h2 h3 h4) as [hi|]; [|done].
    destruct (is_high_surrogate hi);
      [|eapply Hrec; [|exact H]; simpl; lia].
    destruct r2 as [|b [|u [|g1 [|g2 [|g3 [|g4 r3]]]]]];
      try (eapply Hrec; [|exact H]; simpl; lia).
    destruct (Ascii.eqb b BS && Ascii.eqb u "u");
      [|eapply Hrec; [|exact H]; simpl; lia].
    destruct (hex4_val g1 g2 g3 g4) as [lo|]; [|done].
    destruct (is_low_surrogate lo); (eapply Hrec; [|exact H]; simpl; lia).
  - destruct (N_of_ascii c <? 32)%N; [done|].
    eapply Hrec; [|exact H]. simpl; lia.
Qed.

Lemma take_digits_length (s d r : string) :
  take_digits s = (d, r) → (String.length r ≤ String.length s)%nat.
Proof.
  revert d r. induction s as [|c s IH]; intros d r; simpl.
  - intros [= _ <-]. simpl. lia.
  - destruct (is_digit c).
    + destruct (take_digits s) as [d' r']. intros [= _ <-].
      specialize (IH _ _ eq_refl). lia.
    + intros [= _ <-]. simpl. lia.
Qed.

Lemma opt_char_length (c : ascii) (s lit r : string) :
  opt_char c s = (lit, r) → (String.length r ≤ String.length s)%nat.
Proof.
  unfold opt_char. destruct (after c s) as [t|] eqn:E.
  - apply after_length in E. intros [= _ <-]. lia.
  - by intros [= _ <-].
Qed.

Lemma scan_int_length (s lit r : string) :
  scan_int s = Some (lit, r) → (String.length r < String.length s)%nat.
Proof.
  destruct s as [|c s]; [done|]. simpl.
  destruct (Ascii.eqb c "0"); [intros [= _ <-]; lia|].
  destruct (is_digit c); [|done].
  destruct (take_digits s) as [d t] eqn:E. apply take_digits_length in E.
  intros [= _ <-]. lia.
Qed.

Lemma scan_frac_length (s lit r : string) :
  scan_frac s = (lit, r) → (String.length r ≤ String.length s)%nat.
Proof.
  unfold scan_frac. destruct (after "." s) as [t|] eqn:E.
  - apply after_length in E.
    destruct (take_digits t) as [ds u] eqn:E'. apply take_digits_length in E'.
    destruct ds; intros [= _ <-]; lia.
  - by intros [= _ <-].
Qed.

Lemma scan_exp_length (s lit r : string) :
  scan_exp s = (lit, r) → (String.length r ≤ String.length s)%nat.
Proof.
  unfold scan_exp. destruct s as [|e t]; [by intros [= _ <-]|].
  destruct (Ascii.eqb e "e" || Ascii.eqb e "E"); [|by intros [= _ <-]].
  destruct (match after "-" t with
            | Some u => ("-", u)
            | None => opt_char "+" t
            end) as [sg u] eqn:E.
  assert (String.length u ≤ String.length t)%nat.
  { destruct (after "-" t) as [u1|] eqn:E1.
    - apply after_length in E1. injection E as _ <-. lia.
    - by apply opt_char_length in E. }
  destruct (take_digits u) as [ds w] eqn:E'. apply take_digits_length in E'.
  destruct ds; intros [= _ <-]; simpl; lia.
Qed.

Lemma scan_number_length (s lit r : string) :
  scan_number s = Some (lit, r) → (String.length r < String.length s)%nat.
Proof.
  unfold scan_number.
  destruct (opt_char "-" s) as [sign s1] eqn:E1. apply opt_char_length in E1.
  destruct (scan_int s1) as [[int r1]|] eqn:E2; [|done].
  apply scan_int_length in E2.
  destruct (scan_frac r1) as [frac r2] eqn:E3. apply scan_frac_length in E3.
  destruct (scan_exp r2) as [exp r3] eqn:E4. apply scan_exp_length in E4.
  intros [= _ <-]. lia.
Qed.

Lemma strip_prefix_length (p s r : string) :
  strip_prefix p s = Some r → String.length s = (String.length p + String.length r)%nat.
Proof.
  revert s. induction p as [|a p IH]; intros s; simpl.
  - by intros [= ->].
  - destruct s as [|b s]; [done|]. destruct (Ascii.eqb a b); [|done].
    intros H%IH. simpl. lia.
Qed.

Lemma parse_atom_length (s : string) (v : value) (r : string) :
  parse_atom s = POk v r → (String.length r < String.length s)%nat.
Proof.
  unfold parse_atom.
  destruct (scan_constant constants s) as [[v' r']|] eqn:E.
  - intros [= _ <-]. unfold constants in E. cbn [scan_constant] in E.
    repeat match type of E with
    | context [strip_prefix ?p s] =>
        let E' := fresh in
        destruct (strip_prefix p s) eqn:E';
          [apply strip_prefix_length in E'; injection E as _ <-;
           simpl in E'; lia|]
    end.
    done.
  - destruct (scan_number s) as [[lit r']|] eqn:E'; [|done].
    apply scan_number_length in E'. by intros [= _ <-].
Qed.

Lemma pmap_progress {X Y} (f : X → Y) (p : presult X) (n : nat) :
  (p ≠ PFuel ∧ ∀ v r, p = POk v r → (String.length r < n)%nat) →
  pmap f p ≠ PFuel ∧ ∀ v r, pmap f p = POk v r → (String.length r < n)%nat.
Proof.
  destruct p as [x t| |]; simpl; intros [H1 H2].
  - split; [done|]. intros v r [= _ <-]. eauto.
  - done.
  - done.
Qed.

Lemma parse_elems_progress (pv : string → presult value) (b : nat) :
  progresses pv b → ∀ n, (∀ s, (String.length s < n)%nat → (String.length s < b)%nat →
    parse_elems pv n s ≠ PFuel ∧
    ∀ vs r, parse_elems pv n s = POk vs r → (String.length r < String.length s)%nat).
Proof.
  intros Hpv. induction n as [|n IH]; intros s Hn Hb; [lia|].
  cbn [parse_elems]. destruct (Hpv s Hb) as [Hf Hok].
  destruct (pv s) as [v r| |]; [|done|done]. specialize (Hok v r eq_refl).
  pose proof (skip_ws_length r).
  destruct (skip_ws r) as [|c r']; [done|]. simpl in *.
  destruct (Ascii.eqb c "]"); [split; [done|]; intros vs t [= _ <-]; lia|].
  destruct (Ascii.eqb c ","); [|done].
  pose proof (skip_ws_length r').
  apply pmap_progress. destruct (IH (skip_ws r')) as [Hq1 Hq2]; [lia|lia|].
  split; [done|]. intros vs t Ht. specialize (Hq2 _ _ Ht). lia.
Qed.

Lemma parse_members_progress (pv : string → presult value) (b : nat) :
  progresses pv b → ∀ n, (∀ s, (String.length s < n)%nat → (String.length s < b)%nat →
    parse_members pv n s ≠ PFuel ∧
    ∀ ms r, parse_members pv n s = POk ms r → (String.length r < String.length s)%nat).
Proof.
  intros Hpv. induction n as [|n IH]; intros s Hn Hb; [lia|].
  cbn [parse_members].
  destruct (after DQ s) as [r|] eqn:E0; [|done]. apply after_length in E0.
  destruct (scan_string r) as [[k r1]|] eqn:E1; [|done].
  apply scan_string_length in E1.
  pose proof (skip_ws_length r1).
  destruct (after ":" (skip_ws r1)) as [r2|] eqn:E2; [|done].
  apply after_length in E2. pose proof (skip_ws_length r2).
  destruct (Hpv (skip_ws r2)) as [Hf Hok]; [lia|].
  destruct (pv (skip_ws r2)) as [v r3| |]; [|done|done].
  specialize (Hok v r3 eq_refl). pose proof (skip_ws_length r3).
  destruct (skip_ws r3) as [|c r']; [done|]. simpl in *.
  destruct (Ascii.eqb c "}"); [split; [done|]; intros vs t [= _ <-]; lia|].
  destruct (Ascii.eqb c ","); [|done].
  pose proof (skip_ws_length r').
  apply pmap_progress. destruct (IH (skip_ws r')) as [Hq1 Hq2]; [lia|lia|].
  split; [done|]. intros vs t Ht. specialize (Hq2 _ _ Ht). lia.
Qed.

Lemma parse_value_progress (fuel : nat) : progresses (parse_value fuel) fuel.
Proof.
  induction fuel as [|f IH]; intros s Hs; [lia|].
  cbn [parse_value]. destruct s as [|c r]; [done|]. simpl in Hs.
  destruct (Ascii.eqb c DQ).
  { destruct (scan_string r) as [[l r']|] eqn:E; [|done].
    apply scan_string_length in E. split; [done|].
    intros v t [= _ <-]. simpl. lia. }
  pose proof (skip_ws_length r).
  destruct (Ascii.eqb c "[").
  { destruct (after "]" (skip_ws r)) as [r'|] eqn:E.
    - apply after_length in E. split; [done|]. intros v t [= _ <-]. simpl. lia.
    - apply pmap_progress.
      destruct (parse_elems_progress _ _ IH f (skip_ws r)) as [Hq1 Hq2];
        [lia|lia|].
      split; [done|]. intros vs t Ht. specialize (Hq2 _ _ Ht). simpl. lia. }
  destruct (Ascii.eqb c "{").
  { destruct (after "}" (skip_ws r)) as [r'|] eqn:E.
    - apply after_length in E. split; [done|]. intros v t [= _ <-]. simpl. lia.
    - apply pmap_progress.
      destruct (parse_members_progress _ _ IH f (skip_ws r)) as [Hq1 Hq2];
        [lia|lia|].
      split; [done|]. intros vs t Ht. specialize (Hq2 _ _ Ht). simpl. lia. }
  split.
  - unfold parse_atom. destruct (scan_constant _ _) as [[? ?]|]; [done|].
    destruct (scan_number _) as [[? ?]|]; done.
  - intros v t. apply parse_atom_length.
Qed.

(** The fuel [loads] starts with is never used up: [None] is a
    [JSONDecodeError]. *)
Theorem loads_fuel (s : string) :
  parse_value (S (String.length s)) (skip_ws s) ≠ PFuel.
Proof.
  apply parse_value_progress. pose proof (skip_ws_length s). lia.
Qed.

(** ** Saving and loading *)

Lemma latin1_codes (s : string) : latin1 (codes s) = true.
Proof.
  unfold codes, latin1. induction (list_ascii_of_string s) as [|c l IH]; [done|].
  rewrite fmap_cons. cbn [forallb]. rewrite IH, andb_true_r.
  apply N.ltb_lt, N_ascii_bounded.
Qed.

Lemma text_of_codes_codes (s : string) : text_of_codes (codes s) = Some s.
Proof.
  unfold text_of_codes. fold (latin1 (codes s)). rewrite latin1_codes.
  f_equal. unfold codes. rewrite <- list_fmap_compose.
  rewrite <- (string_of_list_ascii_of_string s) at 2. f_equal.
  induction (list_ascii_of_string s) as [|c l IH]; [done|].
  rewrite fmap_cons, IH. cbn. by rewrite ascii_N_embedding.
Qed.

Lemma faithful_codes (s : string) : faithful (codes s) = true.
Proof. apply latin1_faithful, latin1_codes. Qed.

Lemma modelled_to_dict (t : Task) : modelled (to_dict t) = true.
Proof.
  unfold to_dict. cbn [modelled forallb].
  change (faithful (codes "name")) with true.
  change (faithful (codes "priority")) with true.
  change (faithful (codes "completed")) with true.
  change (faithful (codes "created_date")) with true.
  by rewrite !faithful_codes.
Qed.

Lemma modelled_to_dicts (l : list Task) : modelled (JArr (to_dict <$> l)) = true.
Proof.
  cbn [modelled]. induction l as [|t l IH]; [done|].
  rewrite fmap_cons. cbn [forallb]. by rewrite modelled_to_dict, IH.
Qed.

Lemma Task_init_Some (n p d : string) (c : bool) (s : state) :
  d ≠ "" → Task_init n p c (Some d) s = (Ok (mkTask n p c d), s).
Proof. intros Hd. destruct d; [done|reflexivity]. Qed.

Lemma Task_init_falsy (n p : string) (c : bool) (cd : option string)
    (s : state) :
  cd = None ∨ cd = Some "" →
  Task_init n p c cd s =
    (Ok (mkTask n p c (strftime (clock s (ticks s)))), tick s).
Proof. intros [-> | ->]; reflexivity. Qed.

Lemma Task_kwargs_to_dict (t : Task) (s : state) :
  Task_kwargs (to_dict t) s =
    Task_init (name t) (priority t) (completed t) (Some (created_date t)) s.
Proof.
  unfold Task_kwargs, to_dict.
  change (as_dict ?m) with m.
  change (forallb _ _) with true. cbv iota.
  change (dict_get (codes "name") _) with (Some (JStr (codes (name t)))).
  change (dict_get (codes "priority") _) with (Some (JStr (codes (priority t)))).
  change (dict_get (codes "completed") _) with (Some (JBool (completed t))).
  change (dict_get (codes "created_date") _)
    with (Some (JStr (codes (created_date t)))).
  cbv [default from_option id]. unfold Task_call, as_text, as_bool.
  by rewrite !text_of_codes_codes.
Qed.

Lemma Task_eta (t : Task) :
  mkTask (name t) (priority t) (completed t) (created_date t) = t.
Proof. by destruct t. Qed.

Lemma map_py_Task_kwargs (l : list Task) (s : state) :
  Forall (fun t => created_date t ≠ "") l →
  map_py Task_kwargs (to_dict <$> l) s = (Ok l, s).
Proof.
  induction 1 as [|t l Ht _ IH]; [done|].
  rewrite fmap_cons. cbn [map_py]. unfold mbind at 1, py_bind.
  rewrite Task_kwargs_to_dict. rewrite Task_init_Some by done.
  unfold mbind at 1, py_bind. rewrite IH, Task_eta. reflexivity.
Qed.

Lemma dumps_nonempty (v : value) :
  modelled v = true → (String.length (dumps v) =? 0)%nat = false.
Proof.
  intros Hm. pose proof (length_encode v Hm 0 "") as H.
  pose proof (size_pos v). apply Nat.eqb_neq. unfold dumps. lia.
Qed.

(** What [load_tasks] does with a file that is there and not empty. *)
Lemma load_tasks_unfold (s : state) (text : string) :
  disk s = Some text → text ≠ "" →
  load_tasks s =
    match (data ← json_load; items ← for_in data; map_py Task_kwargs items) s
    with
    | (Ok new_tasks, s') =>
        (Ok tt,
         log (Line ("Loaded " +:+ Text.of_nat (length new_tasks) +:+ " tasks."))
           (put_tasks new_tasks s'))
    | (Raise e, s') => (Ok tt, log (LoadErrorLine e) s')
    | (Beyond, s') => (Beyond, s')
    end.
Proof.
  intros Hd Ht.
  unfold load_tasks, os_path_exists, os_stat_size, try_except.
  unfold mbind, mret, py_bind, py_ret. cbv beta. rewrite Hd. cbn [negb].
  cbv beta iota. rewrite Hd.
  destruct text as [|c text]; [done|]. cbn [String.length Nat.eqb].
  destruct (json_load s) as [[data| |] s1]; [|done|done].
  destruct (for_in data s1) as [[items| |] s2]; [|done|done].
  destruct (map_py Task_kwargs items s2) as [[new| |] s3]; done.
Qed.

Lemma json_load_unfold (s : state) (text : string) :
  disk s = Some text → readable s = true →
  json_load s =
    (match loads text with Some v => Ok v | None => Raise JSONDecodeError end,
     s).
Proof.
  intros Hd Hr. unfold json_load, read_file, mbind, py_bind.
  rewrite Hd, Hr. by destruct (loads text).
Qed.

(** In the store, whose text is of code points below 256: when the file can
    be written and read and every task has a non-empty [created_date],
    [save_tasks] followed by the start of a new manager gives back the same
    list of tasks. *)
Lemma save_load_store (s : state) :
  writable s = true → readable s = true →
  Forall (fun t => created_date t ≠ "") (tasks s) →
  ∃ s1 s2 : state,
    save_tasks s = (Ok tt, s1) ∧
    disk s1 = Some (dumps (JArr (to_dict <$> tasks s))) ∧
    TaskManager_init s1 = (Ok tt, s2) ∧
    tasks s2 = tasks s ∧
    stdout s2 = stdout s ++
      [Line "Tasks saved successfully!";
       Line ("Loaded " +:+ Text.of_nat (length (tasks s)) +:+ " tasks.")].
Proof.
  intros Hw Hr Hd.
  set (text := dumps (JArr (to_dict <$> tasks s))).
  assert (Hsave : save_tasks s =
            (Ok tt, log (Line "Tasks saved successfully!") (put_disk text s))).
  { unfold save_tasks, try_except, json_dump, write_file. run. by rewrite Hw. }
  eexists. eexists. split; [exact Hsave|]. split; [reflexivity|].
  assert (Hne : text ≠ "").
  { intros E. pose proof (dumps_nonempty _ (modelled_to_dicts (tasks s))) as H.
    fold text in H. by rewrite E in H. }
  unfold TaskManager_init. unfold mbind at 1, py_bind. cbn [set_tasks].
  rewrite (load_tasks_unfold _ text) by done.
  unfold mbind at 1, py_bind.
  rewrite (json_load_unfold _ text) by done.
  unfold text at 1. rewrite loads_dumps by apply modelled_to_dicts.
  unfold for_in at 1. cbn [iterate].
  unfold mbind at 1, py_bind. unfold mret at 1, py_ret.
  rewrite map_py_Task_kwargs by done.
  split; [reflexivity|]. split; [reflexivity|].
  cbn [stdout log put_tasks put_disk]. by rewrite <- app_assoc.
Qed.

Lemma Task_init_same (n p : string) (c : bool) (cd : option string)
    (s : state) :
  same_but_ticks s (Task_init n p c cd s).2.
Proof. destruct cd as [[|??]|]; done. Qed.

Lemma Task_kwargs_same (v : value) (s : state) :
  same_but_ticks s (Task_kwargs v s).2.
Proof.
  unfold Task_kwargs. destruct v as [ | | | | |m]; try done.
  destruct (forallb _ _); [|done].
  destruct (dict_get (codes "name") _) as [n|]; [|done].
  unfold Task_call.
  destruct (as_text n); [|done]. destruct (as_text _); [|done].
  destruct (as_bool _); [|done].
  destruct (as_text _); [apply Task_init_same|].
  destruct (truth _) as [[]|]; first [done|apply Task_init_same].
Qed.

Lemma map_py_Task_kwargs_same (l : list value) (s : state) :
  same_but_ticks s (map_py Task_kwargs l s).2.
Proof.
  revert s. induction l as [|v l IH]; intros s; [done|].
  cbn [map_py]. unfold mbind, py_bind.
  pose proof (Task_kwargs_same v s) as H1.
  destruct (Task_kwargs v s) as [[t| |] s1]; [|done|done].
  pose proof (IH s1) as H2.
  destruct H1 as (Ha & Hb & Hc).
  destruct (map_py Task_kwargs l s1) as [[r| |] s2]; simpl in *;
    destruct H2 as (Ha' & Hb' & Hc'); unfold same_but_ticks;
    by rewrite Ha', Hb', Hc'.
Qed.

Lemma records_of_file_same (s : state) :
  same_but_ticks s (records_of_file s).2.
Proof.
  unfold records_of_file, json_load, read_file, for_in, mbind, py_bind.
  destruct (disk s); [|done]. destruct (readable s); [|done].
  destruct (loads _) as [v|]; [|done]. unfold mret, py_ret.
  destruct (iterate v) as [l|]; [|done].
  apply map_py_Task_kwargs_same.
Qed.

Lemma invalid_json_raises (s : state) (text : string) :
  disk s = Some text → loads text = None →
  ∃ e, records_of_file s = (Raise e, s).
Proof.
  intros Hd Hl. unfold records_of_file, json_load, read_file, mbind, py_bind.
  rewrite Hd. destruct (readable s); [|by eauto]. rewrite Hl. by eauto.
Qed.

(** ** The round trip through the file, for any text *)

Lemma Wide_modelled_to_dicts (l : list Wide.Task) :
  Forall (fun t => Wide.storable t = true) l →
  modelled (JArr (Wide.to_dict <$> l)) = true.
Proof.
  cbn [modelled]. induction 1 as [|t l Ht _ IH]; [done|].
  rewrite fmap_cons. cbn [forallb]. rewrite IH, andb_true_r.
  unfold Wide.storable in Ht.
  apply andb_true_iff in Ht as [[H1 H2]%andb_true_iff H3].
  unfold Wide.to_dict. cbn [modelled forallb].
  change (faithful (codes "name")) with true.
  change (faithful (codes "priority")) with true.
  change (faithful (codes "completed")) with true.
  change (faithful (codes "created_date")) with true.
  by rewrite H1, H2, H3.
Qed.

Lemma Wide_Task_kwargs_to_dict (t : Wide.Task) (s : state) :
  Wide.created_date t ≠ [] →
  Wide.Task_kwargs (Wide.to_dict t) s = (Ok t, s).
Proof.
  intros Hd. destruct t as [n p c d]. simpl in Hd.
  unfold Wide.Task_kwargs, Wide.to_dict.
  change (as_dict ?m) with m.
  change (forallb _ _) with true. cbv iota.
  cbn [Wide.name Wide.priority Wide.completed Wide.created_date].
  change (dict_get (codes "name") _) with (Some (JStr n)).
  change (dict_get (codes "priority") _) with (Some (JStr p)).
  change (dict_get (codes "completed") _) with (Some (JBool c)).
  change (dict_get (codes "created_date") _) with (Some (JStr d)).
  cbv [default from_option id]. unfold Wide.Task_call, Wide.as_str, as_bool.
  by destruct d.
Qed.

Lemma Wide_map_py_Task_kwargs (l : list Wide.Task) (s : state) :
  Forall (fun t => Wide.created_date t ≠ []) l →
  map_py Wide.Task_kwargs (Wide.to_dict <$> l) s = (Ok l, s).
Proof.
  induction 1 as [|t l Ht _ IH]; [done|].
  rewrite fmap_cons. cbn [map_py]. unfold mbind at 1, py_bind.
  rewrite Wide_Task_kwargs_to_dict by done.
  unfold mbind at 1, py_bind. rewrite IH. reflexivity.
Qed.

(** What [Wide.load_tasks] does with a file that is there and not empty. *)
Lemma Wide_load_tasks_unfold (l0 : list Wide.Task) (s : state) (text : string) :
  disk s = Some text → text ≠ "" →
  Wide.load_tasks l0 s =
    match (data ← json_load; items ← for_in data;
           map_py Wide.Task_kwargs items) s with
    | (Ok new_tasks, s') =>
        (Ok new_tasks,
         log (Line ("Loaded " +:+ Text.of_nat (length new_tasks) +:+ " tasks."))
           s')
    | (Raise e, s') => (Ok l0, log (LoadErrorLine e) s')
    | (Beyond, s') => (Beyond, s')
    end.
Proof.
  intros Hd Ht.
  unfold Wide.load_tasks, os_path_exists, os_stat_size, try_except.
  unfold mbind, mret, py_bind, py_ret. cbv beta. rewrite Hd. cbn [negb].
  cbv beta iota. rewrite Hd.
  destruct text as [|c text]; [done|]. cbn [String.length Nat.eqb].
  destruct (json_load s) as [[data| |] s1]; [|done|done].
  destruct (for_in data s1) as [[items| |] s2]; [|done|done].
  destruct (map_py Wide.Task_kwargs items s2) as [[new| |] s3]; done.
Qed.

(** C1, amended: for tasks of any text in which no high surrogate is
    directly followed by a low one, each with a [created_date] that is not
    empty, when the file can be written and read, [save_tasks] followed by
    the start of a new manager ([TaskManager_init], which loads the file)
    gives back the same list of tasks, field by field. *)
Theorem save_load_roundtrip (l : list Wide.Task) (s : state) :
  writable s = true → readable s = true →
  Forall (fun t => Wide.storable t = true ∧ Wide.created_date t ≠ []) l →
  ∃ s1 s2 : state,
    Wide.save_tasks l s = (Ok tt, s1) ∧
    disk s1 = Some (dumps (JArr (Wide.to_dict <$> l))) ∧
    Wide.TaskManager_init s1 = (Ok l, s2) ∧
    stdout s2 = stdout s ++
      [Line "Tasks saved successfully!";
       Line ("Loaded " +:+ Text.of_nat (length l) +:+ " tasks.")].
Proof.
  intros Hw Hr Hl.
  assert (Hst : Forall (fun t => Wide.storable t = true) l)
    by (eapply Forall_impl; [exact Hl|]; by intros t [? _]).
  assert (Hcd : Forall (fun t => Wide.created_date t ≠ []) l)
    by (eapply Forall_impl; [exact Hl|]; by intros t [_ ?]).
  set (text := dumps (JArr (Wide.to_dict <$> l))).
  assert (Hsave : Wide.save_tasks l s =
            (Ok tt, log (Line "Tasks saved successfully!") (put_disk text s))).
  { unfold Wide.save_tasks, try_except, json_dump, write_file. run.
    by rewrite Hw. }
  eexists. eexists. split; [exact Hsave|]. split; [reflexivity|].
  pose proof (Wide_modelled_to_dicts l Hst) as Hm.
  assert (Hne : text ≠ "").
  { intros E. pose proof (dumps_nonempty _ Hm) as H.
    fold text in H. by rewrite E in H. }
  unfold Wide.TaskManager_init.
  rewrite (Wide_load_tasks_unfold _ _ text) by done.
  unfold mbind at 1, py_bind.
  rewrite (json_load_unfold _ text) by done.
  unfold text at 1. rewrite (loads_dumps _ Hm).
  unfold for_in at 1. cbn [iterate].
  unfold mbind at 1, py_bind. unfold mret at 1, py_ret.
  rewrite Wide_map_py_Task_kwargs by done.
  split; [reflexivity|].
  cbn [stdout log put_tasks put_disk]. by rewrite <- app_assoc.
Qed.

Lemma save_load_roundtrip_witness :
  let l := [Wide.mkTask [26085%N; 26412%N; 35486%N] (codes "High") false
              (codes "2024-03-07 09:05:00");
            Wide.mkTask [128512%N; 56832%N; 55357%N] (codes "Low") true
              (codes "2024-03-08 10:00:00")] in
  let s := mkState [] None true true (fun _ => Datetime 2024 3 9 8 0 0) 0 [] in
  ∃ s1 s2 : state,
    Wide.save_tasks l s = (Ok tt, s1) ∧
    disk s1 = Some (dumps (JArr (Wide.to_dict <$> l))) ∧
    Wide.TaskManager_init s1 = (Ok l, s2) ∧
    stdout s2 = stdout s ++
      [Line "Tasks saved successfully!";
       Line ("Loaded " +:+ Text.of_nat (length l) +:+ " tasks.")].
Proof.
  intros l s. apply (save_load_roundtrip l s).
  - reflexivity.
  - reflexivity.
  - repeat constructor; discriminate.
Defined.

(** C1 as stated fails on a name made of a high surrogate and the low
    surrogate after it, a valid [str]: [json.dump] writes the name as two
    escapes, which [json.load] reads as the one code point they encode, so
    the task comes back with another name. *)
Lemma save_load_surrogate_pair :
  let t := Wide.mkTask [55357%N; 56832%N] (codes "High") false
             (codes "2024-03-07 09:05:00") in
  let t' := Wide.mkTask [128512%N] (codes "High") false
              (codes "2024-03-07 09:05:00") in
  let s := mkState [] None true true (fun _ => Datetime 2024 3 9 8 0 0) 0 [] in
  Wide.valid t = true ∧ Wide.name t ≠ [] ∧ Wide.created_date t ≠ [] ∧
  ∃ s1 s2 : state,
    Wide.save_tasks [t] s = (Ok tt, s1) ∧
    Wide.TaskManager_init s1 = (Ok [t'], s2) ∧
    [t'] ≠ [t].
Proof.
  intros t t' s. split; [reflexivity|]. split; [discriminate|].
  split; [discriminate|].
  eexists _, _. split; [reflexivity|]. split; [vm_compute; reflexivity|].
  discriminate.
Qed.

(** *** The store is the file layer of any text, kept to code points below
    256 *)

Lemma codes_text_of_codes (l : list N) (x : string) :
  text_of_codes l = Some x → codes x = l.
Proof.
  unfold text_of_codes. destruct (forallb _ l) eqn:E; [|done].
  intros [= <-]. unfold codes. rewrite list_ascii_of_string_of_list_ascii.
  induction l as [|c l IH]; [done|].
  apply andb_true_iff in E as [Hc%N.ltb_lt E].
  rewrite !fmap_cons, N_ascii_embedding by done. by rewrite IH.
Qed.

Lemma to_dict_widen (t : Task) : Wide.to_dict (widen t) = to_dict t.
Proof. reflexivity. Qed.

Lemma save_tasks_widen (s : state) :
  Wide.save_tasks (widen <$> tasks s) s = save_tasks s.
Proof.
  unfold Wide.save_tasks, save_tasks. unfold mbind at 3, py_bind.
  cbn [get_tasks]. by rewrite <- list_fmap_compose.
Qed.

Lemma Task_init_widen (n p : string) (c : bool) (cd : option string)
    (s : state) :
  Wide.Task_init (codes n) (codes p) c (codes <$> cd) s =
    let '(r, s1) := Task_init n p c cd s in
    (match r with Ok t => Ok (widen t) | Raise e => Raise e | Beyond => Beyond end,
     s1).
Proof. destruct cd as [[|x d]|]; reflexivity. Qed.

Lemma as_str_as_text (x : value) (y : string) :
  as_text x = Some y → Wide.as_str x = Some (codes y).
Proof.
  destruct x; try done. simpl. intros H. by rewrite (codes_text_of_codes _ _ H).
Qed.

Lemma Task_kwargs_widen (v : value) (s : state) :
  match Task_kwargs v s with
  | (Ok t, s1) => Wide.Task_kwargs v s = (Ok (widen t), s1)
  | (Raise e, s1) => Wide.Task_kwargs v s = (Raise e, s1)
  | (Beyond, _) => True
  end.
Proof.
  unfold Task_kwargs, Wide.Task_kwargs. destruct v as [ | | | | |m]; try done.
  destruct (forallb _ _); [|done].
  destruct (dict_get (codes "name") _) as [n|]; [|done].
  unfold Task_call, Wide.Task_call.
  destruct (as_text n) as [n'|] eqn:En; [|done].
  destruct (as_text (default _ _)) as [p'|] eqn:Ep; [|done].
  destruct (as_bool _) as [c'|]; [|done].
  rewrite (as_str_as_text _ _ En), (as_str_as_text _ _ Ep).
  set (cd := default JNull _).
  destruct (as_text cd) as [d'|] eqn:Ed.
  - rewrite (as_str_as_text _ _ Ed).
    pose proof (Task_init_widen n' p' c' (Some d') s) as H.
    cbn [fmap option_fmap option_map] in H.
    by destruct (Task_init n' p' c' (Some d') s) as [[t| |] s1].
  - destruct (truth cd) as [[]|] eqn:Et; try done.
    assert (Wide.as_str cd = None) as ->.
    { destruct cd as [ | | |l| | ]; try done.
      destruct l as [|x l]; [|done]. simpl in Ed. done. }
    pose proof (Task_init_widen n' p' c' None s) as H.
    cbn [fmap option_fmap option_map] in H.
    by destruct (Task_init n' p' c' None s) as [[t| |] s1].
Qed.

Lemma map_py_Task_kwargs_widen (items : list value) (s : state) :
  match map_py Task_kwargs items s with
  | (Ok l, s1) => map_py Wide.Task_kwargs items s = (Ok (widen <$> l), s1)
  | (Raise e, s1) => map_py Wide.Task_kwargs items s = (Raise e, s1)
  | (Beyond, _) => True
  end.
Proof.
  revert s. induction items as [|v items IH]; intros s; [done|].
  cbn [map_py]. unfold mbind, py_bind.
  pose proof (Task_kwargs_widen v s) as Hv.
  destruct (Task_kwargs v s) as [[t| |] s1]; [|by rewrite Hv|done].
  rewrite Hv. specialize (IH s1).
  destruct (map_py Task_kwargs items s1) as [[l| |] s2]; [|by rewrite IH|done].
  by rewrite IH.
Qed.

Lemma Wide_Task_init_frame (n p : Wide.str) (c : bool)
    (cd : option Wide.str) (l : list Task) (s : state) :
  Wide.Task_init n p c cd (put_tasks l s) =
    let '(r, s1) := Wide.Task_init n p c cd s in (r, put_tasks l s1).
Proof. destruct cd as [[|x d]|]; reflexivity. Qed.

Lemma Wide_Task_kwargs_frame (v : value) (l : list Task) (s : state) :
  Wide.Task_kwargs v (put_tasks l s) =
    let '(r, s1) := Wide.Task_kwargs v s in (r, put_tasks l s1).
Proof.
  unfold Wide.Task_kwargs. destruct v as [ | | | | |m]; try done.
  destruct (forallb _ _); [|done].
  destruct (dict_get (codes "name") _) as [n|]; [|done].
  unfold Wide.Task_call.
  destruct (Wide.as_str n); [|done]. destruct (Wide.as_str _); [|done].
  destruct (as_bool _); [|done].
  destruct (Wide.as_str _); [apply Wide_Task_init_frame|].
  destruct (truth _) as [[]|]; first [done|apply Wide_Task_init_frame].
Qed.

Lemma Wide_map_py_frame (items : list value) (l : list Task) (s : state) :
  map_py Wide.Task_kwargs items (put_tasks l s) =
    let '(r, s1) := map_py Wide.Task_kwargs items s in (r, put_tasks l s1).
Proof.
  revert s. induction items as [|v items IH]; intros s; [done|].
  cbn [map_py]. unfold mbind, py_bind. rewrite Wide_Task_kwargs_frame.
  destruct (Wide.Task_kwargs v s) as [[t| |] s1]; [|done|done].
  rewrite IH. by destruct (map_py Wide.Task_kwargs items s1) as [[r| |] s2].
Qed.

(** Whenever a new manager of the store starts within the model, the new
    manager of any text does the same and has the same tasks. *)
Lemma TaskManager_init_widen (s : state) :
  match TaskManager_init s with
  | (Ok _, s') =>
      Wide.TaskManager_init s =
        (Ok (widen <$> tasks s'), put_tasks (tasks s) s')
  | (Raise _, _) => False
  | (Beyond, _) => True
  end.
Proof.
  change (TaskManager_init s) with (load_tasks (put_tasks [] s)).
  unfold Wide.TaskManager_init.
  destruct (disk s) as [text|] eqn:Hd.
  - destruct (decide (text = "")) as [->|Hne].
    + unfold load_tasks, Wide.load_tasks, os_path_exists, os_stat_size.
      run. rewrite Hd. simpl. rewrite Hd. cbn [String.length Nat.eqb].
      by destruct s.
    + rewrite (load_tasks_unfold _ text), (Wide_load_tasks_unfold _ _ text)
        by done.
      unfold mbind at 1 3, py_bind. unfold json_load, read_file.
      unfold mbind at 1 3, py_bind. cbn [disk readable put_tasks]. rewrite Hd.
      destruct (readable s); [|by destruct s].
      destruct (loads text) as [v|]; [|by destruct s].
      unfold mret at 1 2, py_ret. unfold for_in.
      destruct (iterate v) as [items|]; [|by destruct s].
      unfold mbind at 1 2, py_bind. unfold mret at 1 2, py_ret.
      pose proof (map_py_Task_kwargs_widen items (put_tasks [] s)) as H.
      pose proof (Wide_map_py_frame items (tasks s) (put_tasks [] s)) as Hf.
      assert (Es : put_tasks (tasks s) (put_tasks [] s) = s) by by destruct s.
      rewrite Es in Hf.
      pose proof (map_py_Task_kwargs_same items (put_tasks [] s)) as (Ht & _).
      destruct (map_py Task_kwargs items (put_tasks [] s)) as [[l|e|] s1];
        [| |done]; rewrite H in Hf; rewrite Hf.
      * rewrite length_fmap. reflexivity.
      * cbn [tasks log snd put_tasks] in *. by rewrite Ht.
  - unfold load_tasks, Wide.load_tasks, os_path_exists.
    run. rewrite Hd. simpl. by destruct s.
Qed.

(** C7: for a file that is there and not empty (an absent or empty file
    is not parsed at all), when its text is not valid JSON, or reading it or
    building the tasks raises, a new manager starts with no task, prints the
    load-error line and returns normally. *)
Theorem load_tasks_failure (s : state) (text : string) :
  disk s = Some text → text ≠ "" →
  loads text = None ∨
    (∃ e s1, records_of_file (put_tasks [] s) = (Raise e, s1)) →
  ∃ e s2, TaskManager_init s = (Ok tt, s2) ∧ is_Exception e = true ∧
          tasks s2 = [] ∧ stdout s2 = stdout s ++ [LoadErrorLine e].
Proof.
  intros Hd Ht Hfail.
  assert (∃ e s1, records_of_file (put_tasks [] s) = (Raise e, s1))
    as (e & s1 & He).
  { destruct Hfail as [Hl|H]; [|done].
    destruct (invalid_json_raises (put_tasks [] s) text Hd Hl) as [e He].
    eauto. }
  exists e.
  unfold TaskManager_init. unfold mbind at 1, py_bind. cbn [set_tasks].
  rewrite (load_tasks_unfold _ text) by done.
  fold records_of_file. rewrite He.
  pose proof (records_of_file_same (put_tasks [] s)) as (H1 & _ & H3).
  rewrite He in H1, H3. simpl in H1, H3.
  eexists. split; [reflexivity|]. split; [done|].
  cbn [tasks stdout log]. by rewrite H1, H3.
Qed.

Lemma load_tasks_failure_witness :
  let s := mkState [] (Some "[{") true true
             (fun _ => Datetime 2024 1 1 0 0 0) 0 [] in
  disk s = Some "[{" ∧ "[{" ≠ "" ∧ loads "[{" = None ∧
  ∃ e s2, TaskManager_init s = (Ok tt, s2) ∧ is_Exception e = true ∧
          tasks s2 = [] ∧ stdout s2 = stdout s ++ [LoadErrorLine e].
Proof.
  intros s. split; [reflexivity|]. split; [discriminate|].
  split; [reflexivity|].
  apply (load_tasks_failure s "[{"); [reflexivity|discriminate|].
  left. reflexivity.
Defined.

(** The empty file is skipped by the guard of [load_tasks]: nothing is read
    and nothing is printed. *)
Lemma load_empty_file_silent :
  let s := mkState [] (Some "") true true
             (fun _ => Datetime 2024 1 1 0 0 0) 0 [] in
  loads "" = None ∧ TaskManager_init s = (Ok tt, s) ∧
  ∀ e, LoadErrorLine e ∉ stdout s.
Proof.
  intros s. split; [reflexivity|]. split; [reflexivity|].
  intros e. apply not_elem_of_nil.
Qed.

Lemma length_app_pos (a b : string) : b ≠ "" → a +:+ b ≠ "".
Proof. intros Hb. destruct a; [done|]. discriminate. Qed.

Lemma strftime_nonempty (dt : datetime) : strftime dt ≠ "".
Proof. unfold strftime. apply length_app_pos. discriminate. Qed.

(** C10: [Task_init] replaces a [created_date] that is [None] or empty by
    the time of the clock, and so does the constructor called on any false
    value read from a file; a record saved with an empty [created_date] is
    loaded with the time of loading instead; and a constructed task never
    has an empty [created_date]. *)
Theorem Task_created_date_default (n p : string) (c : bool) (s : state) :
  let now := strftime (clock s (ticks s)) in
  let fresh := mkTask n p c now in
  (∀ cd, cd = None ∨ cd = Some "" →
     Task_init n p c cd s = (Ok fresh, tick s)) ∧
  (∀ v, truth v = Some false →
     Task_call (JStr (codes n)) (JStr (codes p)) (JBool c) v s
       = (Ok fresh, tick s)) ∧
  (readable s = true →
   disk s = Some (dumps (JArr [to_dict (mkTask n p c "")])) →
   ∃ s', TaskManager_init s = (Ok tt, s') ∧ tasks s' = [fresh] ∧
         fresh ≠ mkTask n p c "") ∧
  (∀ cd, ∃ t s', Task_init n p c cd s = (Ok t, s') ∧ created_date t ≠ "").
Proof.
  intros now fresh.
  assert (Hinit : ∀ cd, cd = None ∨ cd = Some "" →
            Task_init n p c cd s = (Ok fresh, tick s)).
  { intros cd Hcd. by apply Task_init_falsy. }
  assert (Hnow : now ≠ "") by apply strftime_nonempty.
  split; [exact Hinit|]. split; [|split].
  - intros v Hv. unfold Task_call, as_text at 1 2, as_bool.
    rewrite !text_of_codes_codes.
    destruct v as [ |[]|lit|[|x l]|[|x l]|[|x l]]; try discriminate Hv;
      cbn [as_text truth text_of_codes forallb]; try (apply Hinit; by auto).
    simpl in Hv. destruct (is_zero_literal lit); [|done]. apply Hinit; auto.
  - intros Hr Hd.
    set (text := dumps (JArr [to_dict (mkTask n p c "")])) in *.
    assert (Hm : modelled (JArr [to_dict (mkTask n p c "")]) = true)
      by apply (modelled_to_dicts [_]).
    assert (Hne : text ≠ "").
    { intros E. pose proof (dumps_nonempty _ Hm) as H.
      change (dumps _) with text in H. by rewrite E in H. }
    unfold TaskManager_init. unfold mbind at 1, py_bind. cbn [set_tasks].
    rewrite (load_tasks_unfold _ text) by done.
    unfold mbind at 1, py_bind.
    rewrite (json_load_unfold _ text) by done.
    unfold text at 1.
    rewrite (loads_dumps _ Hm).
    unfold for_in at 1. cbn [iterate].
    unfold mbind at 1, py_bind. unfold mret at 1, py_ret.
    cbn [map_py]. unfold mbind at 1, py_bind.
    rewrite Task_kwargs_to_dict. cbn [name priority completed created_date].
    rewrite (Task_init_falsy n p c (Some "")) by auto.
    eexists. split; [reflexivity|]. split; [reflexivity|].
    intros E. apply Hnow. by injection E.
  - intros [d|].
    + destruct (decide (d = "")) as [->|Hd].
      * exists fresh, (tick s). split; [apply Hinit; auto|done].
      * exists (mkTask n p c d), s. split; [by apply Task_init_Some|done].
    + exists fresh, (tick s). split; [apply Hinit; auto|done].
Qed.

Lemma Task_created_date_default_witness :
  let t := mkTask "Buy milk" "High" false "" in
  let s := mkState [] (Some (dumps (JArr [to_dict t]))) true true
             (fun _ => Datetime 2024 3 7 9 5 0) 0 [] in
  let fresh := mkTask "Buy milk" "High" false "2024-03-07 09:05:00" in
  Task_init "Buy milk" "High" false (Some "") s = (Ok fresh, tick s) ∧
  Task_call (JStr (codes "Buy milk")) (JStr (codes "High")) (JBool false)
    (JArr []) s = (Ok fresh, tick s) ∧
  (∃ s', TaskManager_init s = (Ok tt, s') ∧ tasks s' = [fresh] ∧ fresh ≠ t).
Proof.
  intros t s fresh.
  destruct (Task_created_date_default "Buy milk" "High" false s)
    as (H1 & H2 & H3 & _).
  split; [apply H1; by right|]. split; [apply H2; reflexivity|].
  apply H3; reflexivity.
Defined.

(** * Further properties of the code *)

(** ** Filtering *)

Lemma filter_sublist {A} (p : A → bool) (l : list A) : List.filter p l `sublist_of` l.
Proof.
  induction l as [|x l IH]; simpl; [constructor|].
  destruct (p x); by constructor.
Qed.

(** X7: for every criterion [filter_tasks] returns, and what it returns is a
    sublist of the tasks, in their order; the tasks and the file stay as they
    are. *)
Theorem filter_tasks_sublist (criterion : string) (s : state) :
  ∃ (r : list Task) (s' : state),
    filter_tasks criterion s = (Ok r, s') ∧
    r `sublist_of` tasks s ∧
    tasks s' = tasks s ∧ disk s' = disk s.
Proof.
  unfold filter_tasks.
  destruct (String.eqb _ "all").
  { eexists _, _. split; [reflexivity|]. split; [reflexivity|done]. }
  case_bool_decide.
  { eexists _, _. split; [reflexivity|]. split; [apply filter_sublist|done]. }
  destruct (String.eqb _ "pending").
  { eexists _, _. split; [reflexivity|]. split; [apply filter_sublist|done]. }
  destruct (String.eqb _ "done").
  { eexists _, _. split; [reflexivity|]. split; [apply filter_sublist|done]. }
  eexists _, _. split; [reflexivity|]. split; [apply sublist_nil_l|done].
Qed.

(** X8: a criterion that is [low], [medium] or [high] up to case selects
    exactly the tasks whose priority is the same word up to case, and the line
    printed shows the criterion in capitals. *)
Theorem filter_tasks_priority (criterion : string) (s : state) :
  Text.lower criterion ∈ ["low"; "medium"; "high"] →
  let r := List.filter
             (fun t => String.eqb (Text.lower (priority t)) (Text.lower criterion))
             (tasks s) in
  filter_tasks criterion s =
    (Ok r, log (Line (Text.nl +:+ "--- Filtered by Priority: " +:+
                      Text.upper criterion +:+ " ---")) s) ∧
  (∀ t, t ∈ r ↔ t ∈ tasks s ∧ Text.lower (priority t) = Text.lower criterion).
Proof.
  intros Hc r. split.
  - unfold filter_tasks.
    assert (String.eqb (Text.lower criterion) "all" = false) as ->.
    { apply String.eqb_neq. intros E. rewrite E in Hc.
      rewrite !elem_of_cons, elem_of_nil in Hc.
      destruct Hc as [?|[?|[?|[]]]]; discriminate. }
    by rewrite bool_decide_eq_true_2.
  - intros t. unfold r. rewrite !list_elem_of_In, filter_In, String.eqb_eq. done.
Qed.

Lemma filter_tasks_priority_witness :
  let s := mkState [mkTask "a" "high" false "d"; mkTask "b" "Low" true "e";
                    mkTask "c" "HIGH" false "f"]
             None true true (fun _ => Datetime 2024 1 1 0 0 0) 0 [] in
  filter_tasks "High" s =
    (Ok [mkTask "a" "high" false "d"; mkTask "c" "HIGH" false "f"],
     log (Line (Text.nl +:+ "--- Filtered by Priority: HIGH ---")) s).
Proof.
  intros s.
  destruct (filter_tasks_priority "High" s) as [H _]; [|exact H].
  simpl. rewrite !elem_of_cons. auto.
Defined.

(** X9: a criterion that is none of the six keywords up to case gives the
    empty list and the line naming the options. *)
Theorem filter_tasks_invalid (criterion : string) (s : state) :
  Text.lower criterion ∉ keywords →
  filter_tasks criterion s =
    (Ok [],
     log (Line "Invalid filter criterion. Options: All, Low, Medium, High, Pending, Done.") s).
Proof.
  unfold keywords. rewrite !not_elem_of_cons.
  intros (H1 & H2 & H3 & H4 & H5 & H6 & _). unfold filter_tasks.
  apply String.eqb_neq in H1, H5, H6. rewrite H1, H5, H6.
  rewrite bool_decide_eq_false_2; [done|].
  rewrite !elem_of_cons, elem_of_nil. intros [?|[?|[?|[]]]]; done.
Qed.

(** ** Displaying *)

Lemma stdout_logs (ps : list printed) (s : state) :
  stdout (logs ps s) = stdout s ++ ps.
Proof.
  revert s. induction ps as [|p ps IH]; intros s; simpl.
  - by rewrite app_nil_r.
  - rewrite IH. simpl. by rewrite <- app_assoc.
Qed.

Lemma logs_same (ps : list printed) (s : state) :
  tasks (logs ps s) = tasks s ∧ disk (logs ps s) = disk s.
Proof.
  revert s. induction ps as [|p ps IH]; intros s; simpl; [done|].
  destruct (IH (log p s)) as [-> ->]. done.
Qed.

Lemma for_each_print (lines : list string) (s : state) :
  for_each lines print s = (Ok tt, logs (Line <$> lines) s).
Proof.
  revert s. induction lines as [|x lines IH]; intros s; [done|].
  cbn [for_each]. unfold mbind, py_bind. cbn [print emit]. by rewrite IH.
Qed.

Lemma numbered_length (k : nat) (l : list Task) :
  length (numbered k l) = length l.
Proof. revert k. induction l as [|t l IH]; intros k; simpl; [done|]. by rewrite IH. Qed.

Lemma numbered_lookup (k i : nat) (l : list Task) (t : Task) :
  l !! i = Some t →
  numbered k l !! i =
    Some (Text.of_nat (k + i + 1) +:+ ". " +:+ Task_str t).
Proof.
  revert k i. induction l as [|x l IH]; intros k i; [done|].
  destruct i as [|i]; simpl.
  - intros [= ->]. by rewrite Nat.add_0_r.
  - intros H. rewrite (IH (S k) i H). do 3 f_equal. lia.
Qed.

(** What [display_tasks] does, in one equation. *)
Lemma display_tasks_unfold (subset : option (list Task)) (s : state) :
  display_tasks subset s =
    let l := default (tasks s) subset in
    match l with
    | [] =>
        (Ok None,
         log (Line (Text.nl +:+ "List is empty or filter returned no results.")) s)
    | _ =>
        (Ok (Some l),
         log (Line "--------------------------")
           (logs (Line <$> numbered 0 l)
              (log (Line (Text.nl +:+ "--- Current To-Do List ---")) s)))
    end.
Proof.
  unfold display_tasks. unfold mbind at 1, py_bind.
  assert ((match subset with Some l0 => mret l0 | None => get_tasks end) s
          = (Ok (default (tasks s) subset), s)) as -> by by destruct subset.
  cbv zeta. destruct (default (tasks s) subset) as [|t l'] eqn:E; [done|].
  unfold mbind, py_bind. cbn [print emit].
  by rewrite for_each_print.
Qed.

(** X5: [display_tasks] on an empty list, the manager's own or a filtered one
    passed to it, prints the one line saying so and returns nothing. *)
Theorem display_tasks_empty (subset : option (list Task)) (s : state) :
  default (tasks s) subset = [] →
  display_tasks subset s =
    (Ok None,
     log (Line (Text.nl +:+ "List is empty or filter returned no results.")) s).
Proof.
  intros H. unfold display_tasks. unfold mbind at 1, py_bind.
  destruct subset as [l|]; simpl in H; cbn [get_tasks mret py_ret]; by rewrite H.
Qed.

Lemma display_tasks_empty_witness :
  let s := mkState [mkTask "a" "Low" false "d"] None true true
             (fun _ => Datetime 2024 1 1 0 0 0) 0 [] in
  display_tasks (Some []) s =
    (Ok None,
     log (Line (Text.nl +:+ "List is empty or filter returned no results.")) s).
Proof. intros s. apply (display_tasks_empty (Some []) s). reflexivity. Defined.

(** X6: on a list that is not empty [display_tasks] prints a header, one line
    per task numbered from 1 in the order of the list, and a footer; it
    returns the list and changes neither the tasks nor the file. *)
Theorem display_tasks_lines (subset : option (list Task)) (s : state) :
  let l := default (tasks s) subset in
  l ≠ [] →
  ∃ s' : state,
    display_tasks subset s = (Ok (Some l), s') ∧
    stdout s' = stdout s ++
      [Line (Text.nl +:+ "--- Current To-Do List ---")] ++
      (Line <$> numbered 0 l) ++ [Line "--------------------------"] ∧
    length (numbered 0 l) = length l ∧
    (∀ i t, l !! i = Some t →
       numbered 0 l !! i =
         Some (Text.of_nat (i + 1) +:+ ". " +:+ Task_str t)) ∧
    tasks s' = tasks s ∧ disk s' = disk s.
Proof.
  intros l Hl.
  set (s1 := log (Line (Text.nl +:+ "--- Current To-Do List ---")) s).
  exists (log (Line "--------------------------")
            (logs (Line <$> numbered 0 l) s1)).
  split; [|split; [|split; [|split]]].
  - rewrite display_tasks_unfold. cbv zeta. fold l.
    by destruct l as [|t l'] eqn:E.
  - cbn [stdout log]. rewrite stdout_logs. cbn [stdout log s1].
    by rewrite <- !app_assoc.
  - apply numbered_length.
  - intros i t Hi. by rewrite (numbered_lookup 0 i l t Hi).
  - cbn [tasks disk log]. by destruct (logs_same (Line <$> numbered 0 l) s1) as [-> ->].
Qed.

Lemma display_tasks_lines_witness :
  let s := mkState [mkTask "a" "Low" false "2024-01-01 10:00:00";
                    mkTask "b" "High" true "2024-01-02 10:00:00"]
             None true true (fun _ => Datetime 2024 1 1 0 0 0) 0 [] in
  ∃ s' : state,
    display_tasks None s = (Ok (Some (tasks s)), s') ∧
    stdout s' =
      [Line (Text.nl +:+ "--- Current To-Do List ---");
       Line "1. [ ] (P: Low   ) a (Created: 2024-01-01)";
       Line "2. [DONE] (P: High  ) b (Created: 2024-01-02)";
       Line "--------------------------"].
Proof.
  intros s.
  destruct (display_tasks_lines None s) as (s' & H1 & H2 & _); [discriminate|].
  exists s'. split; [exact H1|]. rewrite H2. reflexivity.
Defined.

(** ** The printed form of a task; adding, deleting and toggling *)

Lemma spaces_length (n : nat) : String.length (Text.spaces n) = n.
Proof. induction n as [|n IH]; simpl; [done|]. by rewrite IH. Qed.

Lemma ljust_length (w : nat) (s : string) :
  String.length (Text.ljust w s) = (w `max` String.length s)%nat.
Proof. unfold Text.ljust. rewrite length_app, spaces_length. lia. Qed.

Lemma slice_to_length (n : nat) (s : string) :
  String.length (Text.slice_to n s) = (n `min` String.length s)%nat.
Proof.
  revert s. induction n as [|n IH]; intros [|c s]; simpl; try done.
  by rewrite IH.
Qed.

Lemma slice_to_prefix (n : nat) (s : string) :
  String.prefix (Text.slice_to n s) s = true.
Proof.
  revert s. induction n as [|n IH]; intros [|c s]; simpl; try done.
  destruct (ascii_dec c c); [apply IH|done].
Qed.

Lemma string_app_assoc (a b c : string) : (a +:+ b) +:+ c = a +:+ (b +:+ c).
Proof.
  induction a as [|x a IH]; [done|].
  change (String x (a +:+ b) +:+ c = String x (a +:+ (b +:+ c))).
  change (String x ((a +:+ b) +:+ c) = String x (a +:+ (b +:+ c))).
  by rewrite IH.
Qed.

(** X1: the line [Task.__str__] builds is the status marker, the priority
    left-justified in a field of six characters inside [(P: )], the name
    unchanged, and the first ten characters of [created_date]; a longer
    priority widens the line, a shorter date is shown whole. *)
Theorem Task_str_layout (t : Task) :
  let marker := if completed t then "[DONE]" else "[ ]" in
  let pre := marker +:+ " (P: " +:+ priority t +:+
             Text.spaces (6 - String.length (priority t)) +:+ ") " in
  let shown := Text.slice_to 10 (created_date t) in
  Task_str t = pre +:+ name t +:+ " (Created: " +:+ shown +:+ ")" ∧
  String.length pre =
    (String.length marker + 7 + (6 `max` String.length (priority t)))%nat ∧
  String.length shown = (10 `min` String.length (created_date t))%nat ∧
  String.prefix shown (created_date t) = true.
Proof.
  intros marker pre shown. split; [|split; [|split]].
  - unfold Task_str, pre, Text.ljust. fold marker. fold shown.
    rewrite !string_app_assoc. reflexivity.
  - unfold pre. rewrite !length_app, spaces_length. simpl. lia.
  - apply slice_to_length.
  - apply slice_to_prefix.
Qed.

Lemma delete_task_in_range (s : state) (index : Z) (t : Task) :
  tasks s !! Z.to_nat index = Some t → 0 ≤ index →
  delete_task index s =
    (Ok tt,
     log (Line (Text.nl +:+ "Task '" +:+ name t +:+ "' deleted."))
       (put_tasks (delete (Z.to_nat index) (tasks s)) s)).
Proof.
  intros Ht H0. unfold delete_task, tasks_pop. run.
  assert (in_range index (tasks s) = true) as ->.
  { apply in_range_spec. apply lookup_lt_Some in Ht. lia. }
  simpl. by rewrite Ht.
Qed.

(** X3: [add_task] never fails: it puts one pending task with the given name
    and priority and the time of the clock, which is never empty, at the end
    of the list, prints its line and leaves the file alone. *)
Theorem add_task_appends (n p : string) (s : state) :
  let t := mkTask n p false (strftime (clock s (ticks s))) in
  ∃ s' : state,
    add_task n p s = (Ok tt, s') ∧
    tasks s' = tasks s ++ [t] ∧
    created_date t ≠ "" ∧
    stdout s' = stdout s ++
      [Line (Text.nl +:+ "Task '" +:+ n +:+ "' added with priority '" +:+
             p +:+ "'.")] ∧
    disk s' = disk s.
Proof.
  intros t. eexists. split; [reflexivity|].
  split; [reflexivity|]. split; [apply strftime_nonempty|done].
Qed.

(** X4: deleting the task just added, at the index that was the length of the
    list, gives the list back as it was and prints the name of the task. *)
Theorem add_then_delete_last (n p : string) (s : state) :
  ∃ s1 s2 : state,
    add_task n p s = (Ok tt, s1) ∧
    delete_task (Z.of_nat (length (tasks s))) s1 = (Ok tt, s2) ∧
    tasks s2 = tasks s ∧
    stdout s2 = stdout s1 ++
      [Line (Text.nl +:+ "Task '" +:+ n +:+ "' deleted.")].
Proof.
  eexists. eexists. split; [reflexivity|].
  set (t := mkTask n p false (strftime (clock s (ticks s)))).
  split.
  - apply (delete_task_in_range _ _ t); [|apply Nat2Z.is_nonneg].
    rewrite Nat2Z.id. cbn [tasks put_tasks log tick].
    by rewrite lookup_app_r, Nat.sub_diag.
  - cbn [tasks put_tasks log tick stdout]. split; [|done].
    rewrite Nat2Z.id.
    rewrite delete_take_drop, take_app_length.
    rewrite drop_ge by (rewrite List.length_app; simpl; lia).
    by rewrite app_nil_r.
Qed.

(** X14: [toggle_task] with an index below 0 or not below the length changes
    nothing and prints the out-of-range line; it does not raise. *)
Theorem toggle_task_out_of_range (index : Z) (s : state) :
  ¬ (0 ≤ index < Z.of_nat (length (tasks s))) →
  toggle_task index s =
    (Ok tt, log (Line (Text.nl +:+ "Error: Task number is out of range.")) s).
Proof.
  intros H. unfold toggle_task. run.
  destruct (in_range index (tasks s)) eqn:E; [|done].
  by apply in_range_spec in E.
Qed.

Lemma toggle_task_out_of_range_witness :
  let s := mkState [mkTask "a" "Low" false "d"] None true true
             (fun _ => Datetime 2024 1 1 0 0 0) 0 [] in
  toggle_task (-1) s =
    (Ok tt, log (Line (Text.nl +:+ "Error: Task number is out of range.")) s) ∧
  toggle_task 1 s =
    (Ok tt, log (Line (Text.nl +:+ "Error: Task number is out of range.")) s).
Proof.
  intros s. split; apply (toggle_task_out_of_range _ s); simpl; lia.
Defined.

(** ** Sorting by a data attribute *)

Lemma StronglySorted_rev {A} (R : relation A) (l : list A) :
  StronglySorted R l → StronglySorted (flip R) (rev l).
Proof.
  induction 1 as [|x l Hs IH Hx]; simpl; [constructor|].
  apply StronglySorted_app. split; [|split; [done|repeat constructor]].
  intros x1 x2 H1 H2. apply list_elem_of_singleton in H2 as ->.
  rewrite Forall_forall in Hx. apply Hx.
  by apply list_elem_of_In, in_rev, list_elem_of_In.
Qed.

Lemma sorted_by_fmap (g : Task → attr_value) (reverse : bool) (l : list Task) :
  sorted_by (g <$> l) reverse l =
    if reverse then rev (stable_sort (lt_key g) (rev l))
    else stable_sort (lt_key g) l.
Proof.
  unfold sorted_by. rewrite zip_fmap_self.
  set (h := fun t : Task => (g t, t)).
  assert (Hsnd : ∀ m : list Task, (h <$> m).*2 = m).
  { intros m. rewrite <- list_fmap_compose. apply list_fmap_id. }
  destruct reverse.
  - change (rev (h <$> l)) with (rev (map h l)). rewrite <- map_rev.
    change (map h (rev l)) with (h <$> rev l).
    rewrite (stable_sort_fmap h (lt_key g) keyed_lt) by done.
    change (h <$> ?m) with (map h m). rewrite <- map_rev. apply Hsnd.
  - rewrite (stable_sort_fmap h (lt_key g) keyed_lt) by done. apply Hsnd.
Qed.

Lemma ltb_asym (x y : string) : Text.ltb x y = true → Text.ltb y x = false.
Proof.
  unfold Text.ltb, String.ltb. rewrite (String.compare_antisym x y).
  by destruct (String.compare y x).
Qed.

Lemma le_nltb (x y : string) : String.le x y → Text.ltb y x = false.
Proof.
  unfold Text.ltb, String.ltb, String.le, String.leb.
  rewrite (String.compare_antisym y x). by destruct (String.compare x y).
Qed.

Lemma ltb_negtrans (x y z : string) :
  Text.ltb y x = false → Text.ltb z y = false → Text.ltb z x = false.
Proof.
  intros H1%nltb_le H2%nltb_le. apply le_nltb. by trans y.
Qed.

Section FieldOrder.
Context (key : string) (Hkey : key ∈ fields).

Lemma lt_key_field_asym (a b : Task) :
  lt_key (field_value key) a b = true → lt_key (field_value key) b a = false.
Proof.
  revert Hkey. unfold fields. rewrite !elem_of_cons, elem_of_nil.
  intros [->|[->|[->|[->|[]]]]]; unfold lt_key; cbn; try apply ltb_asym.
  destruct (completed a), (completed b); done.
Qed.

Lemma lt_key_field_negtrans (a b c : Task) :
  lt_key (field_value key) b a = false → lt_key (field_value key) c b = false →
  lt_key (field_value key) c a = false.
Proof.
  revert Hkey. unfold fields. rewrite !elem_of_cons, elem_of_nil.
  intros [->|[->|[->|[->|[]]]]]; unfold lt_key; cbn; try apply ltb_negtrans.
  destruct (completed a), (completed b), (completed c); done.
Qed.

Lemma in_order_lt_key (a b : Task) :
  in_order key a b ↔ lt_key (field_value key) b a = false.
Proof.
  revert Hkey. unfold fields. rewrite !elem_of_cons, elem_of_nil.
  intros [->|[->|[->|[->|[]]]]]; unfold in_order, lt_key; cbn;
    (split; [by intros [= ->]|by intros ->]).
Qed.

Global Instance in_order_trans : Transitive (in_order key).
Proof.
  intros a b c. rewrite !in_order_lt_key. intros. by eapply lt_key_field_negtrans.
Qed.

Lemma stable_sort_in_order (l : list Task) :
  StronglySorted (in_order key) (stable_sort (lt_key (field_value key)) l).
Proof.
  apply stable_sort_sorted.
  - apply _.
  - intros a b H. apply in_order_lt_key. by apply lt_key_field_asym.
  - intros a b H. by apply in_order_lt_key.
Qed.

End FieldOrder.

Lemma stable_sort_id {A} (lt : A → A → bool) (l : list A) :
  StronglySorted (fun a b => lt b a = false) l → stable_sort lt l = l.
Proof.
  induction 1 as [|x l Hs IH Hx]; [done|].
  unfold stable_sort in *. simpl. rewrite IH.
  destruct l as [|y l]; [done|]. simpl.
  apply Forall_cons in Hx as [-> _]. done.
Qed.

Lemma StronglySorted_weaken {A} (R1 R2 : A → A → Prop) (l : list A) :
  (∀ a b, R1 a b → R2 a b) → StronglySorted R1 l → StronglySorted R2 l.
Proof.
  intros HR. induction 1 as [|x l Hs IH Hx]; constructor; [done|].
  eapply Forall_impl; [exact Hx|]. intros b. apply HR.
Qed.

Lemma filter_rev {A} (p : A → bool) (l : list A) :
  List.filter p (rev l) = rev (List.filter p l).
Proof.
  induction l as [|x l IH]; [done|]. simpl.
  rewrite List.filter_app, IH. simpl. destruct (p x); simpl; [done|].
  by rewrite app_nil_r.
Qed.

Section SortByField.
Context (other : string → Task → option attr_value).
Context (key : string) (Hkey : key ∈ fields).

Let lt := lt_key (field_value key).

Lemma sort_tasks_field (reverse : bool) (s : state) :
  sort_tasks other key reverse s =
    (Ok tt,
     log (sorted_line key reverse)
       (put_tasks
          (if reverse then rev (stable_sort lt (rev (tasks s)))
           else stable_sort lt (tasks s)) s)).
Proof.
  rewrite sort_tasks_unfold, mapM_getattr_field by done.
  rewrite orderable_field, orb_true_r by done.
  by rewrite sorted_by_fmap.
Qed.

(** X10: sorting by one of the four data attributes always succeeds: the list
    after is a permutation of the list before, in ascending order of the
    attribute, or in descending order when [reverse] is set, and the line
    naming the key is printed. *)
Theorem sort_tasks_field_sorted (reverse : bool) (s : state) :
  ∃ s' : state,
    sort_tasks other key reverse s = (Ok tt, s') ∧
    stdout s' = stdout s ++ [sorted_line key reverse] ∧
    tasks s' ≡ₚ tasks s ∧
    StronglySorted
      (if reverse then flip (in_order key) else in_order key) (tasks s').
Proof.
  eexists. split; [apply sort_tasks_field|].
  split; [done|]. cbn [tasks log put_tasks]. destruct reverse.
  - split.
    + by rewrite <- Permutation_rev, stable_sort_perm, <- Permutation_rev.
    + apply StronglySorted_rev. by apply stable_sort_in_order.
  - split; [apply stable_sort_perm|by apply stable_sort_in_order].
Qed.

Lemma stable_sort_twice (l : list Task) :
  stable_sort lt (stable_sort lt l) = stable_sort lt l.
Proof.
  apply stable_sort_id.
  eapply StronglySorted_weaken; [|by apply (stable_sort_in_order key)].
  intros a b. by apply in_order_lt_key.
Qed.

(** X11: sorting a second time by the same data attribute in the same
    direction changes nothing. *)
Theorem sort_tasks_idempotent (reverse : bool) (s : state) :
  ∃ s1 s2 : state,
    sort_tasks other key reverse s = (Ok tt, s1) ∧
    sort_tasks other key reverse s1 = (Ok tt, s2) ∧
    tasks s2 = tasks s1.
Proof.
  eexists _, _. split; [apply sort_tasks_field|].
  split; [apply sort_tasks_field|].
  cbn [tasks log put_tasks]. destruct reverse.
  - by rewrite rev_involutive, stable_sort_twice.
  - apply stable_sort_twice.
Qed.

(** X12: sorting by a data attribute is stable in both directions: the tasks
    whose attribute equals that of a given task keep the order they had among
    themselves. *)
Theorem sort_tasks_stable (reverse : bool) (s : state) (a : Task) :
  ∃ s' : state,
    sort_tasks other key reverse s = (Ok tt, s') ∧
    List.filter (same_key key a) (tasks s') =
      List.filter (same_key key a) (tasks s).
Proof.
  eexists. split; [apply sort_tasks_field|].
  cbn [tasks log put_tasks].
  assert (Hst : ∀ l, List.filter (same_key key a) (stable_sort lt l) =
                     List.filter (same_key key a) l).
  { intros l. apply (stable_sort_stable lt a).
    intros y x Hyx [_ Hax%negb_true_iff]%andb_true_iff.
    destruct (lt y a) eqn:E; [done|].
    pose proof (lt_key_field_negtrans key Hkey x a y Hax E) as Hn.
    unfold lt in Hyx. congruence. }
  destruct reverse; [|apply Hst].
  by rewrite filter_rev, Hst, filter_rev, rev_involutive.
Qed.

End SortByField.

(** X13: when the key names an attribute other than the four data attributes
    whose values cannot be compared, on two tasks or more, [sort_tasks] raises
    [TypeError], which its [except AttributeError] does not catch, and the
    list is as before. *)
Theorem sort_tasks_unorderable (other : string → Task → option attr_value)
    (key : string) (reverse : bool) (s : state) :
  key ∉ fields →
  (∀ t, t ∈ tasks s → other key t = Some AOpaque) →
  (2 ≤ length (tasks s))%nat →
  sort_tasks other key reverse s = (Raise TypeError, s).
Proof.
  intros Hk Ho Hlen. rewrite sort_tasks_unfold.
  assert (mapM (getattr other key) (tasks s)
          = Some ((fun _ => AOpaque) <$> tasks s)) as ->.
  { apply mapM_Some, Forall2_fmap_r, Forall_Forall2_diag, Forall_forall.
    intros t Ht. rewrite getattr_other by done. by apply Ho. }
  assert ((length (tasks s) <=? 1)%nat = false) as ->
    by (apply Nat.leb_gt; lia).
  destruct (tasks s) as [|t l]; [simpl in Hlen; lia|]. done.
Qed.

Lemma sort_tasks_unorderable_witness :
  let other := fun (key : string) (_ : Task) =>
    if String.eqb key "to_dict" then Some AOpaque else None in
  let s := mkState [mkTask "a" "Low" false "d"; mkTask "b" "High" false "e"]
             None true true (fun _ => Datetime 2024 1 1 0 0 0) 0 [] in
  sort_tasks other "to_dict" false s = (Raise TypeError, s).
Proof.
  intros other s. apply (sort_tasks_unorderable other "to_dict" false s).
  - unfold fields. rewrite !not_elem_of_cons. repeat split; try discriminate.
    apply not_elem_of_nil.
  - intros t _. reflexivity.
  - simpl. lia.
Defined.

Lemma priority_field : "priority" ∈ fields.
Proof. unfold fields. rewrite !elem_of_cons. auto. Defined.

Lemma sort_tasks_field_sorted_witness :
  let s := mkState [mkTask "a" "Low" false "d"; mkTask "b" "High" true "e";
                    mkTask "c" "Medium" false "f"]
             None true true (fun _ => Datetime 2024 1 1 0 0 0) 0 [] in
  ∃ s' : state,
    sort_tasks (fun _ _ => None) "priority" true s = (Ok tt, s') ∧
    stdout s' = stdout s ++ [sorted_line "priority" true] ∧
    tasks s' ≡ₚ tasks s ∧
    StronglySorted (flip (in_order "priority")) (tasks s').
Proof.
  intros s.
  apply (sort_tasks_field_sorted (fun _ _ => None) "priority" priority_field
           true s).
Defined.

Lemma sort_tasks_idempotent_witness :
  let s := mkState [mkTask "a" "Low" false "d"; mkTask "b" "High" true "e";
                    mkTask "c" "Medium" false "f"]
             None true true (fun _ => Datetime 2024 1 1 0 0 0) 0 [] in
  ∃ s1 s2 : state,
    sort_tasks (fun _ _ => None) "priority" false s = (Ok tt, s1) ∧
    sort_tasks (fun _ _ => None) "priority" false s1 = (Ok tt, s2) ∧
    tasks s2 = tasks s1.
Proof.
  intros s.
  apply (sort_tasks_idempotent (fun _ _ => None) "priority" priority_field
           false s).
Defined.

Lemma sort_tasks_stable_witness :
  let a := mkTask "a" "Low" false "d" in
  let s := mkState [a; mkTask "b" "High" true "e"; mkTask "c" "Low" false "f"]
             None true true (fun _ => Datetime 2024 1 1 0 0 0) 0 [] in
  ∃ s' : state,
    sort_tasks (fun _ _ => None) "priority" true s = (Ok tt, s') ∧
    List.filter (same_key "priority" a) (tasks s') =
      List.filter (same_key "priority" a) (tasks s).
Proof.
  intros a s.
  apply (sort_tasks_stable (fun _ _ => None) "priority" priority_field
           true s a).
Defined.

Lemma Task_init_disk (n p : string) (c : bool) (cd : option string)
    (s : state) :
  disk (Task_init n p c cd s).2 = disk s.
Proof. by destruct (Task_init_same n p c cd s) as (_ & ? & _). Qed.

(** [delete_task] and [toggle_task] check the range first, so the list
    access inside them never raises. *)
Lemma delete_task_total (index : Z) (s : state) :
  ∃ s' : state,
    delete_task index s = (Ok tt, s') ∧ disk s' = disk s ∧
    writable s' = writable s ∧
    (length (tasks s') ≤ length (tasks s))%nat.
Proof.
  destruct (in_range index (tasks s)) eqn:E.
  - apply in_range_spec in E.
    destruct (lookup_lt_is_Some_2 (tasks s) (Z.to_nat index)) as [t Ht]; [lia|].
    eexists. split; [by apply (delete_task_in_range s index t); [|lia]|].
    split; [done|]. split; [done|]. cbn [tasks log put_tasks].
    rewrite length_delete by eauto. lia.
  - eexists. split.
    + unfold delete_task. run. rewrite E. reflexivity.
    + done.
Qed.

Lemma toggle_task_total (index : Z) (s : state) :
  ∃ s' : state,
    toggle_task index s = (Ok tt, s') ∧ disk s' = disk s ∧
    writable s' = writable s ∧
    length (tasks s') = length (tasks s).
Proof.
  destruct (in_range index (tasks s)) eqn:E.
  - apply in_range_spec in E.
    destruct (lookup_lt_is_Some_2 (tasks s) (Z.to_nat index)) as [t Ht]; [lia|].
    eexists. split; [by apply (toggle_task_in_range s index t)|].
    split; [done|]. split; [done|].
    cbn [tasks log put_tasks]. by rewrite length_insert.
  - eexists. split.
    + unfold toggle_task. run. rewrite E. reflexivity.
    + done.
Qed.

(** ** What the operations in memory leave alone *)

(** X15: none of [add_task], [display_tasks], [filter_tasks], [sort_tasks],
    [delete_task] and [toggle_task] writes the file, whatever they return or
    raise. *)
Theorem memory_operations_keep_file
    (other : string → Task → option attr_value) (s : state)
    (name priority criterion key : string) (reverse : bool) (index : Z)
    (subset : option (list Task)) :
  disk (add_task name priority s).2 = disk s ∧
  disk (display_tasks subset s).2 = disk s ∧
  disk (filter_tasks criterion s).2 = disk s ∧
  disk (sort_tasks other key reverse s).2 = disk s ∧
  disk (delete_task index s).2 = disk s ∧
  disk (toggle_task index s).2 = disk s.
Proof.
  split_and!.
  - pose proof (Task_init_disk name priority false None s) as H.
    unfold add_task, mbind, py_bind.
    by destruct (Task_init _ _ _ _ s) as [[t| |] s1].
  - rewrite display_tasks_unfold. cbv zeta.
    destruct (default (tasks s) subset); [done|]. cbn [snd disk log].
    by rewrite (proj2 (logs_same _ _)).
  - unfold filter_tasks. repeat case_match; done.
  - rewrite sort_tasks_unfold. repeat case_match; done.
  - by destruct (delete_task_total index s) as (s' & -> & ? & _).
  - by destruct (toggle_task_total index s) as (s' & -> & ? & _).
Qed.

(** ** Saving *)

(** X16: [save_tasks] never raises and never changes the tasks: when the file
    can be opened for writing it holds the encoded list afterwards and the
    success line is printed; when it cannot, the file is as before and the
    error line is printed. *)
Theorem save_tasks_outcome (s : state) :
  ∃ s' : state,
    save_tasks s = (Ok tt, s') ∧ tasks s' = tasks s ∧
    if writable s then
      disk s' = Some (dumps (JArr (to_dict <$> tasks s))) ∧
      stdout s' = stdout s ++ [Line "Tasks saved successfully!"]
    else
      disk s' = disk s ∧ stdout s' = stdout s ++ [SaveErrorLine OSError].
Proof.
  unfold save_tasks, try_except, json_dump, write_file. run.
  destruct (writable s); eexists; (split; [reflexivity|done]).
Qed.

Lemma codes_inj (a b : string) : codes a = codes b → a = b.
Proof.
  intros H. apply (f_equal text_of_codes) in H.
  rewrite !text_of_codes_codes in H. by injection H.
Qed.

Lemma to_dict_inj (t1 t2 : Task) : to_dict t1 = to_dict t2 → t1 = t2.
Proof.
  destruct t1, t2. unfold to_dict. simpl. intros H.
  injection H as Hn Hp -> Hd.
  by rewrite (codes_inj _ _ Hn), (codes_inj _ _ Hp), (codes_inj _ _ Hd).
Qed.

Lemma Wide_to_dict_inj (t1 t2 : Wide.Task) :
  Wide.to_dict t1 = Wide.to_dict t2 → t1 = t2.
Proof. destruct t1, t2. unfold Wide.to_dict. simpl. by intros [= -> -> -> ->]. Qed.

(** X17: two lists of tasks of any text in which no high surrogate is
    directly followed by a low one, that [save_tasks] writes as the same
    text, are the same list: nothing of such a task is lost in the file.
    Without the condition two different tasks can be written as the same
    text. *)
Theorem saved_text_determines_tasks :
  (∀ l1 l2 : list Wide.Task,
     Forall (fun t => Wide.storable t = true) l1 →
     Forall (fun t => Wide.storable t = true) l2 →
     dumps (JArr (Wide.to_dict <$> l1)) = dumps (JArr (Wide.to_dict <$> l2)) →
     l1 = l2) ∧
  (∃ t1 t2 : Wide.Task,
     Wide.valid t1 = true ∧ Wide.valid t2 = true ∧ t1 ≠ t2 ∧
     dumps (JArr (Wide.to_dict <$> [t1])) =
       dumps (JArr (Wide.to_dict <$> [t2]))).
Proof.
  split.
  - intros l1 l2 H1 H2 H. apply (f_equal loads) in H.
    rewrite !loads_dumps in H by by apply Wide_modelled_to_dicts.
    injection H as H. clear H1 H2. revert l2 H.
    induction l1 as [|t1 l1 IH]; intros [|t2 l2] H; try done.
    rewrite !fmap_cons in H.
    assert (Ht : Wide.to_dict t1 = Wide.to_dict t2) by congruence.
    assert (Hl : Wide.to_dict <$> l1 = Wide.to_dict <$> l2) by congruence.
    by rewrite (Wide_to_dict_inj _ _ Ht), (IH _ Hl).
  - exists (Wide.mkTask [55357%N; 56832%N] (codes "High") false
              (codes "2024-03-07 09:05:00")),
           (Wide.mkTask [128512%N] (codes "High") false
              (codes "2024-03-07 09:05:00")).
    split_and!; [reflexivity|reflexivity|discriminate|reflexivity].
Qed.

(** ** Loading *)

(** What a new manager does with a readable file whose text is JSON. *)
Lemma TaskManager_init_unfold (s : state) (text : string) (v : value) :
  disk s = Some text → readable s = true → loads text = Some v →
  TaskManager_init s =
    match iterate v with
    | None => (Ok tt, log (LoadErrorLine TypeError) (put_tasks [] s))
    | Some items =>
        match map_py Task_kwargs items (put_tasks [] s) with
        | (Ok l, s') =>
            (Ok tt,
             log (Line ("Loaded " +:+ Text.of_nat (length l) +:+ " tasks."))
               (put_tasks l s'))
        | (Raise e, s') => (Ok tt, log (LoadErrorLine e) s')
        | (Beyond, s') => (Beyond, s')
        end
    end.
Proof.
  intros Hd Hr Hl.
  assert (Hne : text ≠ "") by (intros ->; discriminate Hl).
  unfold TaskManager_init. unfold mbind at 1, py_bind. cbn [set_tasks].
  rewrite (load_tasks_unfold _ text) by done.
  unfold mbind at 1, py_bind.
  rewrite (json_load_unfold _ text) by done. rewrite Hl.
  unfold for_in. destruct (iterate v) as [items|]; [|done].
  unfold mbind at 1, py_bind. unfold mret at 1, py_ret.
  by destruct (map_py Task_kwargs items (put_tasks [] s)) as [[l| |] s'].
Qed.

(** X18: when there is no file, [load_tasks] returns at once, printing nothing
    and keeping the list, and a new manager starts with the empty list. *)
Theorem load_absent_file (s : state) :
  disk s = None →
  load_tasks s = (Ok tt, s) ∧ TaskManager_init s = (Ok tt, put_tasks [] s).
Proof.
  intros Hd. unfold TaskManager_init, load_tasks, os_path_exists.
  run. by rewrite Hd.
Qed.

Lemma load_absent_file_witness :
  let s := mkState [mkTask "a" "Low" false "d"] None true true
             (fun _ => Datetime 2024 1 1 0 0 0) 0 [] in
  load_tasks s = (Ok tt, s) ∧ TaskManager_init s = (Ok tt, put_tasks [] s).
Proof. intros s. apply (load_absent_file s). reflexivity. Defined.

(** X19: a record of the file with a [name] and any of the other three keys,
    each of the expected type, builds the task [Task.__init__] builds from
    them, with the priority [Medium] and [completed] false for the keys left
    out; a [created_date] left out is the time of the clock. *)
Theorem Task_kwargs_defaults (members : list (list N * value))
    (n : string) (p : option string) (c : option bool) (cd : option string)
    (s : state) :
  let d := as_dict members in
  Forall (fun kv => kv.1 ∈ params) d →
  dict_get (codes "name") d = Some (JStr (codes n)) →
  dict_get (codes "priority") d = (fun x => JStr (codes x)) <$> p →
  dict_get (codes "completed") d = JBool <$> c →
  dict_get (codes "created_date") d = (fun x => JStr (codes x)) <$> cd →
  Task_kwargs (JObj members) s =
    Task_init n (default "Medium" p) (default false c) cd s.
Proof.
  intros d Hk Hn Hp Hc Hd. unfold Task_kwargs. fold d.
  assert (forallb (fun kv => bool_decide (kv.1 ∈ params)) d = true) as ->.
  { apply forallb_forall. intros kv Hin. apply bool_decide_eq_true.
    rewrite Forall_forall in Hk. apply Hk. by apply list_elem_of_In. }
  rewrite Hn, Hp, Hc, Hd. unfold Task_call, as_text at 1, as_bool.
  rewrite text_of_codes_codes.
  assert (as_text (default (JStr (codes "Medium"))
                     ((fun x => JStr (codes x)) <$> p))
          = Some (default "Medium" p)) as ->.
  { destruct p; simpl; [apply text_of_codes_codes|reflexivity]. }
  assert (match default (JBool false) (JBool <$> c) with
          | JBool b => Some b | _ => None end = Some (default false c)) as ->
    by by destruct c.
  destruct cd as [x|]; simpl; [|done].
  by rewrite text_of_codes_codes.
Qed.

Lemma Task_kwargs_defaults_witness :
  let s := mkState [] None true true (fun _ => Datetime 2024 3 7 9 5 0) 0 [] in
  Task_kwargs (JObj [(codes "name", JStr (codes "Buy milk"))]) s =
    (Ok (mkTask "Buy milk" "Medium" false "2024-03-07 09:05:00"), tick s).
Proof.
  intros s.
  apply (Task_kwargs_defaults [(codes "name", JStr (codes "Buy milk"))]
           "Buy milk" None None None s).
  - repeat constructor.
  - reflexivity.
  - reflexivity.
  - reflexivity.
  - reflexivity.
Defined.

Lemma Task_kwargs_bad (v : value) (s : state) :
  bad_record v = true → Task_kwargs v s = (Raise TypeError, s).
Proof.
  unfold bad_record, Task_kwargs. destruct v as [ | | | | |m]; try done.
  destruct (forallb _ _); [|done]. simpl.
  by destruct (dict_get (codes "name") _).
Qed.

Lemma Task_init_returns (n p : string) (c : bool) (cd : option string)
    (s : state) :
  ∃ t s', Task_init n p c cd s = (Ok t, s').
Proof. destruct cd as [[|??]|]; by eexists _, _. Qed.

(** X20: building a task from an item of the file raises exactly when the item
    is not an object, has a key that is no parameter of [Task.__init__], or
    has no [name]; the exception is [TypeError] and the state is as before. *)
Theorem Task_kwargs_raises (v : value) (s s' : state) (e : exn) :
  Task_kwargs v s = (Raise e, s') ↔
  bad_record v = true ∧ e = TypeError ∧ s' = s.
Proof.
  split.
  - unfold bad_record, Task_kwargs. destruct v as [ | | | | |m];
      try (by intros [= <- <-]).
    destruct (forallb _ _); [|by intros [= <- <-]]. simpl.
    destruct (dict_get (codes "name") _) as [n|]; [|by intros [= <- <-]].
    unfold Task_call.
    destruct (as_text n) as [n'|]; [|done].
    destruct (as_text _) as [p'|]; [|done].
    destruct (as_bool _) as [c'|]; [|done].
    destruct (as_text _) as [d'|].
    + destruct (Task_init_returns n' p' c' (Some d') s) as (t & s1 & ->). done.
    + by destruct (truth _) as [[]|].
  - intros (Hb & -> & ->). by apply Task_kwargs_bad.
Qed.






(** A new manager on a file written by [save_tasks]. *)
Lemma load_saved (s : state) (l : list Task) :
  disk s = Some (dumps (JArr (to_dict <$> l))) → readable s = true →
  Forall (fun t => created_date t ≠ "") l →
  TaskManager_init s =
    (Ok tt,
     log (Line ("Loaded " +:+ Text.of_nat (length l) +:+ " tasks."))
       (put_tasks l s)).
Proof.
  intros Hd Hr Hl.
  rewrite (TaskManager_init_unfold s _ _ Hd Hr
             (loads_dumps _ (modelled_to_dicts l))).
  cbn [iterate]. by rewrite map_py_Task_kwargs.
Qed.

(** X23: saving, starting a new manager on the file and saving again writes
    the text of the first save, when the file can be written and read and
    every task has a [created_date]. *)
Theorem save_load_save (s : state) :
  writable s = true → readable s = true →
  Forall (fun t => created_date t ≠ "") (tasks s) →
  ∃ s1 s2 s3 : state,
    save_tasks s = (Ok tt, s1) ∧ TaskManager_init s1 = (Ok tt, s2) ∧
    save_tasks s2 = (Ok tt, s3) ∧ disk s3 = disk s1 ∧ tasks s3 = tasks s.
Proof.
  intros Hw Hr Hd.
  assert (Hsave : ∀ s0, writable s0 = true → save_tasks s0 =
            (Ok tt, log (Line "Tasks saved successfully!")
                      (put_disk (dumps (JArr (to_dict <$> tasks s0))) s0))).
  { intros s0 H0. unfold save_tasks, try_except, json_dump, write_file. run.
    by rewrite H0. }
  eexists _, _, _. split; [by apply Hsave|].
  split; [by apply (load_saved _ (tasks s))|].
  split; [by apply Hsave|]. done.
Qed.

Lemma save_load_save_witness :
  let s := mkState [mkTask "Buy milk" "High" false "2024-03-07 09:05:00"]
             None true true (fun _ => Datetime 2024 3 9 8 0 0) 0 [] in
  ∃ s1 s2 s3 : state,
    save_tasks s = (Ok tt, s1) ∧ TaskManager_init s1 = (Ok tt, s2) ∧
    save_tasks s2 = (Ok tt, s3) ∧ disk s3 = disk s1 ∧ tasks s3 = tasks s.
Proof.
  intros s. apply (save_load_save s).
  - reflexivity.
  - reflexivity.
  - simpl. repeat constructor; discriminate.
Defined.

Lemma saved_text_determines_tasks_witness :
  let l := [Wide.mkTask [26085%N; 26412%N] (codes "High") false
              (codes "2024-03-07 09:05:00")] in
  l = l.
Proof.
  intros l. apply (proj1 saved_text_determines_tasks l l).
  - repeat constructor.
  - repeat constructor.
  - reflexivity.
Defined.

(** ** The console *)

Lemma writable_logs (ps : list printed) (s : state) :
  writable (logs ps s) = writable s.
Proof.
  revert s. induction ps as [|p ps IH]; intros s; simpl; [done|].
  by rewrite IH.
Qed.

Lemma frame_refl (c : console) : frame c c.
Proof. done. Qed.

Lemma frame_trans (c1 c2 c3 : console) :
  frame c1 c2 → frame c2 c3 → frame c1 c3.
Proof.
  intros (H1 & H2 & H3) (H4 & H5 & H6). unfold frame.
  rewrite H4, H1, H5, H2. split_and!; [done|done|lia].
Qed.

Lemma ok_ret {A} (Q : A → Prop) (a : A) : Q a → ok Q (mret a).
Proof. intros H c. split; [done|apply frame_refl]. Qed.

Lemma ok_bind {A B} (Q : A → Prop) (R : B → Prop) (m : io A) (f : A → io B) :
  ok Q m → (∀ a, Q a → ok R (f a)) → ok R (m ≫= f).
Proof.
  intros Hm Hf c. unfold mbind, io_bind. specialize (Hm c).
  destruct (m c) as [[a|e| | | ] c1]; try done.
  destruct Hm as [Ha Hfr]. specialize (Hf a Ha c1).
  destruct (f a c1) as [[b|e| | | ] c2]; try done.
  - destruct Hf. split; [done|]. by eapply frame_trans.
  - destruct Hf. split; [done|]. by eapply frame_trans.
  - destruct Hf. split; [|done]. by eapply frame_trans.
Qed.

Lemma ok_weaken {A} (Q R : A → Prop) (m : io A) :
  (∀ a, Q a → R a) → ok Q m → ok R m.
Proof.
  intros H Hm c. specialize (Hm c).
  destruct (m c) as [[a|e| | | ] c1]; try done.
  destruct Hm. split; [auto|done].
Qed.

Lemma ok_lift {A} (m : py A) : quiet m → ok (fun _ => True) (lift m).
Proof.
  intros Hm c. unfold lift. destruct (Hm (world c)) as (H1 & H2 & H3).
  destruct (m (world c)) as [[a|e|] s]; simpl in *; unfold frame; simpl;
    done.
Qed.

Lemma ok_input (prompt : string) : ok (fun _ => True) (input prompt).
Proof.
  intros c. unfold input. destruct (stdin c) as [|line rest] eqn:E.
  - unfold frame. simpl. by rewrite E.
  - unfold frame. simpl. rewrite E. simpl. split_and!; auto; lia.
Qed.

Lemma quiet_print (line : string) : quiet (print line).
Proof. done. Qed.

Lemma quiet_get_tasks : quiet get_tasks.
Proof. done. Qed.

Lemma quiet_for_each_print (lines : list string) : quiet (for_each lines print).
Proof.
  intros s. rewrite for_each_print. simpl.
  rewrite writable_logs, (proj2 (logs_same _ _)). done.
Qed.

Lemma quiet_display_tasks (subset : option (list Task)) :
  quiet (display_tasks subset).
Proof.
  intros s. rewrite display_tasks_unfold. cbv zeta.
  destruct (default (tasks s) subset); [done|]. cbn [fst snd disk writable log].
  rewrite writable_logs, (proj2 (logs_same _ _)). done.
Qed.

Lemma quiet_add_task (n p : string) : quiet (add_task n p).
Proof. done. Qed.

Lemma quiet_filter_tasks (criterion : string) : quiet (filter_tasks criterion).
Proof. intros s. unfold filter_tasks. repeat case_match; done. Qed.

Lemma quiet_filter_tasks_unmatched : quiet filter_tasks_unmatched.
Proof. done. Qed.

(** [filter_tasks_unmatched] is the branch of [filter_tasks] for a criterion
    that, in lower case, is none of the keywords. *)
Lemma filter_tasks_unmatched_branch (criterion : string) (s : state) :
  Text.lower criterion ∉ keywords →
  filter_tasks criterion s = filter_tasks_unmatched s.
Proof.
  unfold keywords. rewrite !not_elem_of_cons.
  intros (H1 & H2 & H3 & H4 & H5 & H6 & _). unfold filter_tasks.
  apply String.eqb_neq in H1, H5, H6. rewrite H1, H5, H6.
  rewrite bool_decide_eq_false_2; [done|].
  rewrite !elem_of_cons, elem_of_nil. intros [?|[?|[?|[]]]]; done.
Qed.

Lemma quiet_sort_tasks (other : string → Task → option attr_value)
    (key : string) (reverse : bool) :
  quiet (sort_tasks other key reverse).
Proof.
  intros s. rewrite sort_tasks_unfold.
  destruct (mapM _ _); [|done]. by destruct (_ || _).
Qed.

Lemma quiet_delete_task (index : Z) : quiet (delete_task index).
Proof.
  intros s. by destruct (delete_task_total index s) as (s' & -> & ? & ? & _).
Qed.

Lemma quiet_toggle_task (index : Z) : quiet (toggle_task index).
Proof.
  intros s. by destruct (toggle_task_total index s) as (s' & -> & ? & ? & _).
Qed.

Lemma display_tasks_returns (subset : option (list Task)) (s : state) :
  ∃ r, display_tasks subset s = (Ok r, (display_tasks subset s).2) ∧
       tasks (display_tasks subset s).2 = tasks s.
Proof.
  rewrite display_tasks_unfold. cbv zeta.
  destruct (default (tasks s) subset).
  - by eexists.
  - eexists. split; [reflexivity|]. cbn [snd tasks log].
    by rewrite (proj1 (logs_same _ _)).
Qed.

Section ConsoleFacts.
Context (other : string → Task → option attr_value) (max_digits : nat).

(** What [get_task_index] does, in one equation. *)
Lemma get_task_index_unfold (prompt : string) (c : console) :
  get_task_index max_digits prompt c =
    let s1 := (display_tasks None (world c)).2 in
    let written := prompts c ++ [(length (stdout s1), prompt)] in
    match tasks (world c) with
    | [] => (Returned (-1), mkConsole s1 (stdin c) (prompts c))
    | _ =>
        match stdin c with
        | [] => (EOFError, mkConsole s1 [] written)
        | line :: rest =>
            match int_of_str max_digits line with
            | Some n =>
                if in_range (n - 1) (tasks (world c))
                then (Returned (n - 1), mkConsole s1 rest written)
                else
                  (Returned (-1),
                   mkConsole
                     (log (Line (Text.nl +:+
                                 "Error: Task number is out of range.")) s1)
                     rest written)
            | None =>
                (Returned (-1),
                 mkConsole
                   (log (Line (Text.nl +:+
                               "Error: Please enter a valid number.")) s1)
                   rest written)
            end
        end
    end.
Proof.
  cbv zeta. unfold get_task_index.
  destruct (display_tasks_returns None (world c)) as (r & Hd & Ht).
  set (s1 := (display_tasks None (world c)).2) in *.
  unfold mbind at 1, io_bind. unfold lift at 1. rewrite Hd.
  unfold mbind at 1, io_bind. unfold lift at 1.
  cbn [get_tasks world stdin prompts]. rewrite Ht.
  destruct (tasks (world c)) as [|t l] eqn:El; [reflexivity|].
  unfold mbind at 1, io_bind. unfold input. cbn [world stdin prompts].
  destruct (stdin c) as [|line rest]; [reflexivity|].
  destruct (int_of_str max_digits line) as [n|]; [|reflexivity].
  unfold mbind at 1, io_bind. unfold lift at 1.
  cbn [get_tasks world stdin prompts]. rewrite Ht.
  by destruct (in_range (n - 1) (t :: l)).
Qed.

Lemma ok_get_task_index (prompt : string) :
  ok (fun _ => True) (get_task_index max_digits prompt).
Proof.
  intros c. rewrite get_task_index_unfold. cbv zeta.
  destruct (quiet_display_tasks None (world c)) as (Hd & Hw & _).
  assert (Hle : ∀ (x : string) l, (length l ≤ length (x :: l))%nat)
    by (intros; simpl; lia).
  destruct (tasks (world c)); [done|].
  destruct (stdin c) as [|line rest] eqn:E; unfold frame.
  - cbn [world stdin]. by rewrite E.
  - destruct (int_of_str max_digits line) as [n|];
      [destruct (in_range _ _)|]; cbn [world stdin disk writable log];
      rewrite E; auto.
Qed.

Ltac ok_step :=
  first
    [ apply ok_get_task_index
    | apply ok_ret; done
    | apply (ok_bind (fun _ => True)); [|intros ? _]
    | apply ok_input
    | apply ok_lift;
      first [ apply quiet_print | apply quiet_get_tasks
            | apply quiet_for_each_print | apply quiet_display_tasks
            | apply quiet_add_task | apply quiet_filter_tasks
            | apply quiet_filter_tasks_unmatched
            | apply quiet_sort_tasks | apply quiet_delete_task
            | apply quiet_toggle_task ] ].

(** Every choice but 7 keeps the file and goes on with the loop. *)
Lemma ok_dispatch (choice : string) :
  choice ≠ "7" → ok (fun again => again = true) (dispatch other max_digits choice).
Proof.
  intros H7. unfold dispatch.
  destruct (String.eqb choice "7") eqn:E7; [by apply String.eqb_eq in E7|].
  repeat first [ok_step | case_match].
Qed.

End ConsoleFacts.

(** *** Starting never raises and never writes *)

Lemma Task_init_file (n p : string) (c : bool) (cd : option string)
    (s : state) :
  disk (Task_init n p c cd s).2 = disk s ∧
  writable (Task_init n p c cd s).2 = writable s.
Proof. destruct cd as [[|??]|]; done. Qed.

Lemma Task_kwargs_file (v : value) (s : state) :
  disk (Task_kwargs v s).2 = disk s ∧
  writable (Task_kwargs v s).2 = writable s.
Proof.
  unfold Task_kwargs. destruct v as [ | | | | |m]; try done.
  destruct (forallb _ _); [|done].
  destruct (dict_get (codes "name") _) as [n|]; [|done].
  unfold Task_call.
  destruct (as_text n); [|done]. destruct (as_text _); [|done].
  destruct (as_bool _); [|done].
  destruct (as_text _); [apply Task_init_file|].
  destruct (truth _) as [[]|]; first [done|apply Task_init_file].
Qed.

Lemma map_py_Task_kwargs_file (l : list value) (s : state) :
  disk (map_py Task_kwargs l s).2 = disk s ∧
  writable (map_py Task_kwargs l s).2 = writable s.
Proof.
  revert s. induction l as [|v l IH]; intros s; [done|].
  cbn [map_py]. unfold mbind, py_bind.
  pose proof (Task_kwargs_file v s) as [H1 H2].
  destruct (Task_kwargs v s) as [[t| |] s1]; [|done|done].
  pose proof (IH s1) as [H3 H4]. simpl in H1, H2.
  destruct (map_py Task_kwargs l s1) as [[r| |] s2]; simpl in *;
    by rewrite H3, H4.
Qed.

Lemma records_of_file_file (s : state) :
  disk (records_of_file s).2 = disk s ∧
  writable (records_of_file s).2 = writable s.
Proof.
  unfold records_of_file, json_load, read_file, for_in, mbind, py_bind.
  destruct (disk s) as [text|] eqn:Hd; [|done].
  destruct (readable s); [|done].
  destruct (loads text) as [v|]; [|done]. unfold mret, py_ret.
  destruct (iterate v) as [l|]; [|done].
  rewrite <- Hd. apply map_py_Task_kwargs_file.
Qed.

(** A new manager never raises and leaves the file as it is. *)
Lemma TaskManager_init_file (s : state) :
  disk (TaskManager_init s).2 = disk s ∧
  writable (TaskManager_init s).2 = writable s ∧
  ∀ e, (TaskManager_init s).1 ≠ Raise e.
Proof.
  destruct (disk s) as [text|] eqn:Hd.
  - destruct (decide (text = "")) as [->|Hne].
    + unfold TaskManager_init, load_tasks, os_path_exists, os_stat_size.
      run. rewrite Hd. simpl. by rewrite Hd.
    + change (TaskManager_init s) with (load_tasks (put_tasks [] s)).
      rewrite (load_tasks_unfold _ text) by done.
      fold records_of_file.
      pose proof (records_of_file_file (put_tasks [] s)) as [H1 H2].
      destruct (records_of_file (put_tasks [] s)) as [[l|e|] s'];
        simpl in *; by rewrite ?H1, ?H2, ?Hd.
  - unfold TaskManager_init, load_tasks, os_path_exists.
    run. by rewrite Hd.
Qed.

(** *** The loop *)

Lemma save_tasks_unfold (s : state) :
  save_tasks s =
    (Ok tt,
     if writable s
     then log (Line "Tasks saved successfully!")
            (put_disk (dumps (JArr (to_dict <$> tasks s))) s)
     else log (SaveErrorLine OSError) s).
Proof.
  unfold save_tasks, try_except, json_dump, write_file. run.
  by destruct (writable s).
Qed.

Section LoopFacts.
Context (other : string → Task → option attr_value) (max_digits : nat).

Lemma dispatch_exit (c : console) :
  ∃ c', dispatch other max_digits "7" c = (Returned false, c') ∧
        closed c' ∧ stdin c' = stdin c ∧
        tasks (world c') = tasks (world c) ∧
        writable (world c') = writable (world c).
Proof.
  unfold dispatch. cbn [String.eqb Ascii.eqb Bool.eqb]. cbv iota.
  unfold mbind at 1, io_bind. unfold lift at 1. rewrite save_tasks_unfold.
  unfold mbind at 1, io_bind. unfold lift at 1. cbn [print emit world].
  eexists. split; [reflexivity|]. unfold closed. cbn [world stdin].
  destruct (writable (world c)) eqn:Hw; cbn [stdout writable log put_disk tasks disk].
  - rewrite Hw. split_and!; try done. rewrite <- app_assoc. by eexists.
  - rewrite Hw. split_and!; try done. rewrite <- app_assoc. by eexists.
Qed.

Lemma menu_unfold (c : console) :
  menu other max_digits c =
    let s1 := logs (Line <$> menu_lines) (world c) in
    let written :=
      prompts c ++ [(length (stdout s1), "Enter your choice (1-7): ")] in
    match stdin c with
    | [] => (EOFError, mkConsole s1 [] written)
    | choice :: rest =>
        dispatch other max_digits choice (mkConsole s1 rest written)
    end.
Proof.
  unfold menu. unfold mbind at 1, io_bind. unfold lift at 1.
  rewrite for_each_print. unfold mbind at 1, io_bind. unfold input.
  cbn [world stdin prompts]. by destruct (stdin c).
Qed.

(** One turn: it goes on with a shorter input and the same file, or it is
    the last. *)
Lemma menu_turn (c : console) :
  match menu other max_digits c with
  | (Returned again, c') =>
      if again then frame c c' ∧ (length (stdin c') < length (stdin c))%nat
      else closed c'
  | (Uncaught e, c') => e = TypeError ∧ frame c c'
  | (EOFError, c') => frame c c' ∧ stdin c' = []
  | (Outside, _) => False
  | (Unfinished, _) => False
  end.
Proof.
  rewrite menu_unfold. cbv zeta.
  set (s1 := logs (Line <$> menu_lines) (world c)).
  assert (Hs1 : disk s1 = disk (world c) ∧ writable s1 = writable (world c)).
  { unfold s1. by rewrite writable_logs, (proj2 (logs_same _ _)). }
  destruct Hs1 as [Hd Hw].
  destruct (stdin c) as [|choice rest] eqn:E.
  { unfold frame. cbn [world stdin]. by rewrite E. }
  set (c1 := mkConsole s1 rest _).
  assert (Hc1 : ∀ c', frame c1 c' →
            frame c c' ∧ (length (stdin c') < length (stdin c))%nat).
  { intros c' (H1 & H2 & H3). unfold frame. rewrite H1, H2, E.
    cbn [c1 world stdin length] in *. split_and!; try done; lia. }
  destruct (decide (choice = "7")) as [->|H7].
  - destruct (dispatch_exit c1) as (c' & -> & Hcl & _). done.
  - pose proof (ok_dispatch other max_digits choice H7 c1) as Hok.
    destruct (dispatch other max_digits choice c1) as [[again|e| | | ] c'];
      try done.
    + destruct Hok as [-> Hfr]. rewrite <- E. by apply Hc1.
    + destruct Hok as [-> Hfr]. split; [done|]. by apply Hc1.
    + destruct Hok as [Hfr Hnil]. split; [|done]. by apply Hc1.
Qed.

Lemma main_loop_spec (fuel : nat) (c : console) :
  (length (stdin c) < fuel)%nat →
  match main_loop other max_digits fuel c with
  | (Returned _, c') => closed c'
  | (Uncaught e, c') => e = TypeError ∧ frame c c'
  | (EOFError, c') => frame c c' ∧ stdin c' = []
  | (Outside, _) => False
  | (Unfinished, _) => False
  end.
Proof.
  revert c. induction fuel as [|fuel IH]; intros c Hlt; [lia|].
  cbn [main_loop]. unfold mbind, io_bind.
  pose proof (menu_turn c) as Ht.
  destruct (menu other max_digits c) as [[again|e| | | ] c1]; try done.
  destruct again; [|done]. destruct Ht as [Hfr Hlen].
  specialize (IH c1 ltac:(lia)).
  destruct (main_loop other max_digits fuel c1) as [[[]|e| | | ] c2]; try done.
  - destruct IH. split; [done|]. by eapply frame_trans.
  - destruct IH. split; [|done]. by eapply frame_trans.
Qed.

(** X29: the model follows [main] on every finite input typed at the
    console (lines of code points below 256), unless loading the file leaves
    it (a record with a field of another type than [str] or [bool], or a
    text with a code point above 255); that is settled before the loop
    starts, with nothing read.  In every other case [main] ends.  When it returns, the last two lines
    printed are the outcome of [save_tasks] and the farewell, and the file
    holds the tasks if it could be written.  When it ends with the
    [TypeError] of a sort or with [EOFError] at the end of the input, the
    file is as it was at the start: no change was saved.  No other exception
    escapes, so the list accesses of the choices 5 and 6 never raise. *)
Theorem main_outcome (c : console) :
  match main other max_digits c with
  | (Returned _, c') => closed c'
  | (Uncaught e, c') => e = TypeError ∧ disk (world c') = disk (world c)
  | (EOFError, c') => stdin c' = [] ∧ disk (world c') = disk (world c)
  | (Outside, c') =>
      (TaskManager_init (world c)).1 = Beyond ∧
      stdin c' = stdin c ∧ prompts c' = prompts c
  | (Unfinished, _) => False
  end.
Proof.
  unfold main. unfold mbind, io_bind. unfold lift.
  destruct (TaskManager_init_file (world c)) as (Hd1 & _ & Hr).
  destruct (TaskManager_init (world c)) as [[[]|e'|] s1]; simpl in Hd1.
  - set (c1 := mkConsole s1 (stdin c) (prompts c)).
    pose proof (main_loop_spec (S (length (stdin c1))) c1 ltac:(lia)) as Hl.
    unfold main_while.
    destruct (main_loop other max_digits _ c1) as [[[]|e| | | ] c2]; try done.
    + destruct Hl as [-> (Hd & _)]. split; [done|]. by rewrite Hd.
    + destruct Hl as [(Hd & _) Hn]. split; [done|]. by rewrite Hd.
  - by destruct (Hr e').
  - done.
Qed.

End LoopFacts.

(** X2: [mark_complete] sets [completed], is idempotent, gives the same task
    after a toggle, leaves a completed task as it is and agrees with
    [toggle_complete] on a pending one. *)
Theorem mark_complete_absorbs (t : Task) :
  completed (mark_complete t) = true ∧
  mark_complete (mark_complete t) = mark_complete t ∧
  mark_complete (toggle_complete t) = mark_complete t ∧
  (completed t = true → mark_complete t = t) ∧
  (completed t = false → mark_complete t = toggle_complete t).
Proof.
  destruct t as [n p c d]. unfold mark_complete, toggle_complete. simpl.
  split_and!; try done; by intros ->.
Qed.

Lemma filter_tasks_invalid_witness :
  let s := mkState [mkTask "a" "Low" false "d"] None true true
             (fun _ => Datetime 2024 1 1 0 0 0) 0 [] in
  filter_tasks "Urgent" s =
    (Ok [],
     log (Line "Invalid filter criterion. Options: All, Low, Medium, High, Pending, Done.") s).
Proof.
  intros s. apply (filter_tasks_invalid "Urgent" s).
  unfold keywords. rewrite !not_elem_of_cons.
  repeat split; try discriminate. apply not_elem_of_nil.
Defined.

Section IndexFacts.
Context (max_digits : nat).


(** X25: when the line typed is read by [int] as a number [k] between 1 and
    the length, [get_task_index] returns [k - 1], the index of an existing
    task, after showing the whole list and writing the prompt; it reads that
    one line only. *)
Theorem get_task_index_selects (prompt line : string) (rest : list string)
    (k : Z) (c : console) :
  stdin c = line :: rest →
  int_of_str max_digits line = Some k →
  1 ≤ k ≤ Z.of_nat (length (tasks (world c))) →
  ∃ c',
    get_task_index max_digits prompt c = (Returned (k - 1), c') ∧
    is_Some (tasks (world c) !! Z.to_nat (k - 1)) ∧
    tasks (world c') = tasks (world c) ∧ stdin c' = rest ∧
    stdout (world c') = stdout (world c) ++
      [Line (Text.nl +:+ "--- Current To-Do List ---")] ++
      (Line <$> numbered 0 (tasks (world c))) ++
      [Line "--------------------------"] ∧
    prompts c' = prompts c ++ [(length (stdout (world c')), prompt)].
Proof.
  intros Hin Hk Hr. rewrite get_task_index_unfold. cbv zeta.
  rewrite Hin, Hk.
  assert (in_range (k - 1) (tasks (world c)) = true) as ->
    by (apply in_range_spec; lia).
  rewrite display_tasks_unfold. cbv zeta. cbn [default from_option id].
  destruct (tasks (world c)) as [|t l] eqn:El; [simpl in Hr; lia|].
  eexists. split; [reflexivity|]. cbn [world stdin prompts snd].
  split_and!; try done.
  - apply lookup_lt_is_Some_2. lia.
  - cbn [tasks log]. by rewrite (proj1 (logs_same _ _)).
  - cbn [stdout log]. rewrite stdout_logs. cbn [stdout log].
    by rewrite <- !app_assoc.
Qed.

End IndexFacts.

Lemma get_task_index_selects_witness :
  let s := mkState [mkTask "a" "Low" false "2024-01-01 10:00:00";
                    mkTask "b" "High" true "2024-01-02 10:00:00"]
             None true true (fun _ => Datetime 2024 1 1 0 0 0) 0 [] in
  let c := mkConsole s [" 2 "; "x"] [] in
  ∃ c',
    get_task_index 4300%nat "Enter the number of the task: " c
      = (Returned (2 - 1), c') ∧
    is_Some (tasks (world c) !! Z.to_nat (2 - 1)) ∧
    tasks (world c') = tasks (world c) ∧ stdin c' = ["x"] ∧
    stdout (world c') = stdout (world c) ++
      [Line (Text.nl +:+ "--- Current To-Do List ---")] ++
      (Line <$> numbered 0 (tasks (world c))) ++
      [Line "--------------------------"] ∧
    prompts c' = prompts c ++
      [(length (stdout (world c')), "Enter the number of the task: ")].
Proof.
  intros s c.
  apply (get_task_index_selects 4300%nat "Enter the number of the task: "
           " 2 " ["x"] 2 c).
  - reflexivity.
  - reflexivity.
  - simpl. lia.
Defined.

(** *** The priority typed for a new task *)

Ltac each_char c :=
  destruct c as [[] [] [] [] [] [] [] []]; vm_compute; try done.

Lemma lower_char_idemp (c : ascii) :
  Text.lower_char (Text.lower_char c) = Text.lower_char c.
Proof. each_char c. Qed.

Lemma lower_idemp (s : string) : Text.lower (Text.lower s) = Text.lower s.
Proof.
  induction s as [|c s IH]; [done|]. cbn [Text.lower].
  by rewrite lower_char_idemp, IH.
Qed.

Lemma capital_char_lower (c c' : ascii) :
  capital_char c = Some c' → Text.lower_char c' = Text.lower_char c.
Proof.
  destruct c as [[] [] [] [] [] [] [] []]; intros H; vm_compute in H;
    try discriminate H; injection H as <-; reflexivity.
Qed.

Lemma capitalize_lower (x p : string) :
  capitalize x = Some p → Text.lower p = Text.lower x.
Proof.
  destruct x as [|c x]; simpl; [by intros [= <-]|].
  destruct (capital_char c) as [c'|] eqn:E; [|done]. intros [= <-].
  cbn [Text.lower]. by rewrite lower_idemp, (capital_char_lower c c').
Qed.

Lemma capital_char_l (c : ascii) :
  Text.lower_char c = "l"%char → capital_char c = Some "L"%char.
Proof. each_char c. Qed.

Lemma capital_char_m (c : ascii) :
  Text.lower_char c = "m"%char → capital_char c = Some "M"%char.
Proof. each_char c. Qed.

Lemma capital_char_h (c : ascii) :
  Text.lower_char c = "h"%char → capital_char c = Some "H"%char.
Proof. each_char c. Qed.

Lemma capitalize_priority (x : string) :
  Text.lower x ∈ ["low"; "medium"; "high"] →
  ∃ p, capitalize x = Some p ∧ p ∈ ["Low"; "Medium"; "High"].
Proof.
  rewrite !elem_of_cons, elem_of_nil.
  destruct x as [|c x]; [by intros [?|[?|[?|[]]]]|].
  cbn [Text.lower capitalize].
  intros [H|[H|[H|[]]]]; injection H as Hc Hx; rewrite Hx.
  - rewrite (capital_char_l c Hc). eexists. split; [reflexivity|].
    rewrite !elem_of_cons. auto.
  - rewrite (capital_char_m c Hc). eexists. split; [reflexivity|].
    rewrite !elem_of_cons. auto.
  - rewrite (capital_char_h c Hc). eexists. split; [reflexivity|].
    rewrite !elem_of_cons. auto.
Qed.

Section DispatchFacts.
Context (other : string → Task → option attr_value) (max_digits : nat).

(** X26: the task added by the choice 2 has the name as typed and one of the
    priorities [Low], [Medium], [High]: the one typed, blanks around it and
    case apart, when it is one of the three, and [Medium] otherwise. *)
Theorem dispatch_add_priority (n line : string) (rest : list string)
    (c : console) :
  stdin c = n :: line :: rest →
  ∃ (t : Task) (c' : console),
    dispatch other max_digits "2" c = (Returned true, c') ∧
    tasks (world c') = tasks (world c) ++ [t] ∧
    name t = n ∧ completed t = false ∧ stdin c' = rest ∧
    priority t ∈ ["Low"; "Medium"; "High"] ∧
    if bool_decide (Text.lower (strip line) ∈ ["low"; "medium"; "high"])
    then Text.lower (priority t) = Text.lower (strip line)
    else priority t = "Medium".
Proof.
  intros Hin. unfold dispatch. cbn [String.eqb Ascii.eqb Bool.eqb]. cbv iota.
  unfold mbind at 1, io_bind. unfold input at 1. rewrite Hin.
  unfold mbind at 1, io_bind. unfold input at 1. cbn [stdin world prompts].
  set (p := match capitalize (strip line) with
            | Some p => if bool_decide (p ∈ ["Low"; "Medium"; "High"]) then p
                        else "Medium"
            | None => "Medium"
            end).
  unfold mbind at 1, io_bind. unfold lift at 1. cbn [world stdin prompts].
  change (add_task n p (world c)) with
    (Ok tt,
     log (Line (Text.nl +:+ "Task '" +:+ n +:+ "' added with priority '" +:+
                p +:+ "'."))
       (put_tasks (tasks (world c) ++
                   [mkTask n p false
                      (strftime (clock (world c) (ticks (world c))))])
          (tick (world c)))).
  eexists _, _. split; [reflexivity|]. cbn [world stdin tasks log put_tasks].
  split; [reflexivity|]. cbn [name completed priority].
  split_and!; try done.
  - unfold p. destruct (capitalize (strip line)) as [q|].
    + case_bool_decide; [done|]. rewrite !elem_of_cons. auto.
    + rewrite !elem_of_cons. auto.
  - case_bool_decide as Hl.
    + destruct (capitalize_priority _ Hl) as (q & Hq & Hqin).
      unfold p. rewrite Hq, bool_decide_eq_true_2 by done.
      by apply capitalize_lower.
    + unfold p. destruct (capitalize (strip line)) as [q|] eqn:Hq; [|done].
      case_bool_decide as Hqin; [|done].
      destruct Hl. rewrite <- (capitalize_lower _ _ Hq).
      revert Hqin. rewrite !elem_of_cons, !elem_of_nil.
      intros [->|[->|[->|[]]]]; vm_compute; auto.
Qed.

(** X27: a choice that is none of the strings [1] to [7] prints the
    invalid-choice line, reads nothing more, changes neither tasks nor file,
    and the loop goes on. *)
Theorem dispatch_invalid_choice (choice : string) (c : console) :
  choice ∉ ["1"; "2"; "3"; "4"; "5"; "6"; "7"] →
  dispatch other max_digits choice c =
    (Returned true,
     mkConsole
       (log (Line "Invalid choice. Please enter a number from 1 to 7.")
          (world c))
       (stdin c) (prompts c)).
Proof.
  rewrite !not_elem_of_cons.
  intros (H1 & H2 & H3 & H4 & H5 & H6 & H7 & _). unfold dispatch.
  apply String.eqb_neq in H1, H2, H3, H4, H5, H6, H7.
  by rewrite H1, H2, H3, H4, H5, H6, H7.
Qed.

(** X28: at the menu, sorting two tasks or more by an attribute whose values
    cannot be compared ends the program with the [TypeError] of [sort_tasks],
    which nothing in [main] catches; nothing was saved. *)
Theorem dispatch_sort_unorderable (key line : string) (rest : list string)
    (c : console) :
  stdin c = key :: line :: rest →
  key ≠ "" → key ∉ fields →
  (∀ t, t ∈ tasks (world c) → other key t = Some AOpaque) →
  (2 ≤ length (tasks (world c)))%nat →
  ∃ c' : console,
    dispatch other max_digits "3" c = (Uncaught TypeError, c') ∧
    world c' = world c ∧ stdin c' = rest.
Proof.
  intros Hin Hne Hk Ho Hlen.
  unfold dispatch. cbn [String.eqb Ascii.eqb Bool.eqb]. cbv iota.
  unfold mbind at 1, io_bind. unfold input at 1. rewrite Hin.
  unfold mbind at 1, io_bind. unfold input at 1. cbn [stdin world prompts].
  assert (Text.truthy key = true) as -> by by destruct key.
  unfold mbind at 1, io_bind. unfold lift at 1. cbn [world stdin prompts].
  rewrite sort_tasks_unfold.
  assert (mapM (getattr other key) (tasks (world c))
          = Some ((fun _ => AOpaque) <$> tasks (world c))) as ->.
  { apply mapM_Some, Forall2_fmap_r, Forall_Forall2_diag, Forall_forall.
    intros t Ht. rewrite getattr_other by done. by apply Ho. }
  assert ((length (tasks (world c)) <=? 1)%nat = false) as ->
    by (apply Nat.leb_gt; lia).
  destruct (tasks (world c)) as [|t l] eqn:El; [simpl in Hlen; lia|].
  eexists. split; [reflexivity|]. done.
Qed.

End DispatchFacts.

Lemma dispatch_add_priority_witness :
  let s := mkState [] None true true (fun _ => Datetime 2024 3 7 9 5 0) 0 [] in
  let c := mkConsole s ["Buy milk"; "  hIGH "; "7"] [] in
  ∃ (t : Task) (c' : console),
    dispatch (fun _ _ => None) 4300%nat "2" c = (Returned true, c') ∧
    tasks (world c') = tasks (world c) ++ [t] ∧
    name t = "Buy milk" ∧ completed t = false ∧ stdin c' = ["7"] ∧
    priority t ∈ ["Low"; "Medium"; "High"] ∧
    Text.lower (priority t) = "high".
Proof.
  intros s c.
  destruct (dispatch_add_priority (fun _ _ => None) 4300%nat
              "Buy milk" "  hIGH " ["7"] c eq_refl)
    as (t & c' & H1 & H2 & H3 & H4 & H5 & H6 & H7).
  exists t, c'. split_and!; try done.
Defined.

Lemma dispatch_invalid_choice_witness :
  let s := mkState [] None true true (fun _ => Datetime 2024 1 1 0 0 0) 0 [] in
  let c := mkConsole s ["7"] [] in
  dispatch (fun _ _ => None) 4300%nat " 7" c =
    (Returned true,
     mkConsole
       (log (Line "Invalid choice. Please enter a number from 1 to 7.") s)
       ["7"] []).
Proof.
  intros s c. apply (dispatch_invalid_choice (fun _ _ => None) 4300%nat " 7" c).
  rewrite !not_elem_of_cons. repeat split; try discriminate.
  apply not_elem_of_nil.
Defined.

Lemma dispatch_sort_unorderable_witness :
  let other := fun (key : string) (_ : Task) =>
    if String.eqb key "to_dict" then Some AOpaque else None in
  let s := mkState [mkTask "a" "Low" false "d"; mkTask "b" "High" false "e"]
             None true true (fun _ => Datetime 2024 1 1 0 0 0) 0 [] in
  let c := mkConsole s ["to_dict"; "n"; "7"] [] in
  ∃ c' : console,
    dispatch other 4300%nat "3" c = (Uncaught TypeError, c') ∧
    world c' = world c ∧ stdin c' = ["7"].
Proof.
  intros other s c.
  apply (dispatch_sort_unorderable other 4300%nat "to_dict" "n" ["7"] c).
  - reflexivity.
  - discriminate.
  - unfold fields. rewrite !not_elem_of_cons. repeat split; try discriminate.
    apply not_elem_of_nil.
  - intros t _. reflexivity.
  - simpl. lia.
Defined.

(** *** A file that cannot be loaded is replaced at exit *)

(** X30: when the file is not empty and cannot be loaded, because its text is
    not JSON or it cannot be read, but can be written, leaving at once with
    the choice 7 replaces its content by the empty list. *)
Theorem main_overwrites_unloadable_file
    (other : string → Task → option attr_value) (max_digits : nat)
    (text : string) (rest : list string) (c : console) :
  disk (world c) = Some text → text ≠ "" →
  loads text = None ∨ readable (world c) = false →
  writable (world c) = true →
  stdin c = "7" :: rest →
  ∃ c' : console,
    main other max_digits c = (Returned tt, c') ∧
    disk (world c') = Some "[]" ∧ stdin c' = rest.
Proof.
  intros Hd Hne Hbad Hw Hin.
  set (s := world c) in *.
  assert (∃ e, TaskManager_init s = (Ok tt, log (LoadErrorLine e) (put_tasks [] s)))
    as [e Hinit].
  { change (TaskManager_init s) with (load_tasks (put_tasks [] s)).
    rewrite (load_tasks_unfold _ text) by done. fold records_of_file.
    assert (∃ e, records_of_file (put_tasks [] s) = (Raise e, put_tasks [] s))
      as [e ->]; [|by eexists].
    destruct Hbad as [Hl|Hr].
    - by apply (invalid_json_raises _ text).
    - unfold records_of_file, json_load, read_file, mbind, py_bind.
      cbn [disk readable put_tasks]. rewrite Hd, Hr. by eexists. }
  unfold main. unfold mbind at 1, io_bind. unfold lift at 1. fold s.
  rewrite Hinit. unfold main_while. cbn [stdin]. rewrite Hin.
  cbn [length main_loop]. unfold mbind at 1, io_bind.
  rewrite menu_unfold. cbv zeta. cbn [stdin world prompts].
  match goal with
  | |- context [dispatch other max_digits "7" ?c1] =>
      destruct (dispatch_exit other max_digits c1)
        as (c' & -> & (_ & Hsaved) & Hrest & Htasks & Hwr)
  end.
  exists c'. split; [reflexivity|]. cbn [stdin world] in Hrest, Htasks.
  split; [|done].
  assert (Hw' : writable (world c') = true).
  { rewrite Hwr. cbn [world writable log put_tasks].
    by rewrite writable_logs. }
  rewrite (Hsaved Hw'), Htasks. cbn [world].
  rewrite (proj1 (logs_same _ _)). reflexivity.
Qed.


Lemma main_overwrites_unloadable_file_witness :
  let s := mkState [] (Some "[{") true true
             (fun _ => Datetime 2024 1 1 0 0 0) 0 [] in
  let c := mkConsole s ["7"; "1"] [] in
  ∃ c' : console,
    main (fun _ _ => None) 4300%nat c = (Returned tt, c') ∧
    disk (world c') = Some "[]" ∧ stdin c' = ["1"].
Proof.
  intros s c.
  apply (main_overwrites_unloadable_file (fun _ _ => None) 4300%nat
           "[{" ["1"] c).
  - reflexivity.
  - discriminate.
  - left. reflexivity.
  - reflexivity.
  - reflexivity.
Defined.
